(** * TaskManager: a fixed-capacity task container

    Shallow embedding of [src/TaskManager/priority.py], [task.py], [libs.py]
    (the exception classes and [mlogger]) and [TaskManager.py], followed by
    the properties of the admission and eviction logic.

    Conventions of the embedding:
    - a Python [int] is a [Z]; a [str] is a [string];
    - a method of [TaskManager] is a computation in the monad [M], which
      threads the object ([self]) and the lines printed on standard output,
      and either returns a value or raises an exception.  The state that
      comes with a raised exception is the state the object was left in;
    - [tasks_queue] is either the bounded [collections.deque] built by the
      constructor or a plain [list] (what [kill_task] and [kill_by_group]
      assign), because the two do not have the same methods;
    - a task held by the queue is a value. The one method that changes the
      tasks it holds, [kill_all_tasks], empties the queue in the same call,
      so the manager never reads a task it has changed. *)

From Stdlib Require Import ZArith List String Ascii Bool Lia.
From Stdlib Require Import Permutation Sorted.
From Stdlib Require Import SpecFloat DecimalString.
From Stdlib Require OrderedTypeEx.
Import ListNotations.

Open Scope string_scope.
Open Scope list_scope.
Open Scope Z_scope.

(* ================================================================= *)
(** ** priority.py *)

(** [class Priority(Enum)]: three members numbered by [auto()]. *)
Inductive Priority : Type := low | medium | high.

Definition value (p : Priority) : Z :=
  match p with low => 1 | medium => 2 | high => 3 end.

Definition name (p : Priority) : string :=
  match p with low => "low" | medium => "medium" | high => "high" end.

(** [Priority.__lt__], on two members of the class. *)
Definition Priority_lt (self other : Priority) : bool :=
  value self <? value other.

(** [a > b]: the class defines no [__gt__], so Python evaluates the
    reflected [b.__lt__(a)]. *)
Definition Priority_gt (a b : Priority) : bool := Priority_lt b a.

(** Iteration order of the class: definition order. *)
Definition Priority_members : list Priority := [low; medium; high].

(** The builtin [min] of an iterable with first element [x]: the current
    minimum is replaced by a later item only when that item is [<] it. *)
Definition py_min {A : Type} (lt : A -> A -> bool) (x : A) (l : list A) : A :=
  fold_left (fun m y => if lt y m then y else m) l x.

(** [min(Priority)]. *)
Definition min_Priority : Priority := py_min Priority_lt low [medium; high].

(* ================================================================= *)
(** ** task.py *)

Record Task : Type := mkTask
  { get_pid : string;
    get_priority : Priority;
    is_active : bool }.

Definition kill (t : Task) : Task :=
  {| get_pid := get_pid t; get_priority := get_priority t; is_active := false |}.

Definition set_priority (t : Task) (v : Priority) : Task :=
  {| get_pid := get_pid t; get_priority := v; is_active := is_active t |}.

(** [Task.__eq__]: identifiers only. *)
Definition Task_eq (a b : Task) : bool := String.eqb (get_pid a) (get_pid b).

(* ================================================================= *)
(** ** libs.py: exceptions and the module logger *)

(** The four exception classes of [libs.py] and the builtin ones that the
    code raises or that the interpreter raises inside it. Each carries its
    message. *)
Inductive exn : Type :=
| MaxTaskSizeError (msg : string)
| DuplicateTaskError (msg : string)
| EmptyTaskManagerError (msg : string)
| InactiveTaskError (msg : string)
| Exception (msg : string)
| TypeError (msg : string)
| ValueError (msg : string)
| OverflowError (msg : string)
| AttributeError (msg : string)
| IndexError (msg : string).

Inductive result (A : Type) : Type :=
| Ok (a : A)
| Raise (e : exn).
Arguments Ok {A} a.
Arguments Raise {A} e.

(* ================================================================= *)
(** ** The two kinds of sequence held in [tasks_queue] *)

Inductive queue : Type :=
| deque (items : list Task) (maxlen : Z)
| pylist (items : list Task).

Definition items (q : queue) : list Task :=
  match q with deque l _ => l | pylist l => l end.

Definition is_deque (q : queue) : bool :=
  match q with deque _ _ => true | pylist _ => false end.

(** A deque never holds more than [maxlen] items. *)
Definition queue_wf (q : queue) : Prop :=
  match q with
  | deque l n => Z.of_nat (List.length l) <= n
  | pylist _ => True
  end.

(** [len(q)]. *)
Definition len (q : queue) : Z := Z.of_nat (List.length (items q)).

(** [q.append(x)]: a deque appends and then, when it holds more than
    [maxlen] items, drops one from the left; a list just appends. *)
Definition append (q : queue) (x : Task) : queue :=
  match q with
  | deque l n =>
      let l' := l ++ [x] in
      if n <? Z.of_nat (List.length l') then deque (tl l') n else deque l' n
  | pylist l => pylist (l ++ [x])
  end.

(** [q.popleft()]: only a deque has it. *)
Definition popleft (q : queue) : result (Task * queue) :=
  match q with
  | deque [] _ => Raise (IndexError "pop from an empty deque")
  | deque (x :: l) n => Ok (x, deque l n)
  | pylist _ => Raise (AttributeError "'list' object has no attribute 'popleft'")
  end.

Definition remove_at (i : nat) (l : list Task) : list Task :=
  firstn i l ++ skipn (S i) l.

(** [del q[i]], with Python's negative indices. *)
Definition delitem (q : queue) (i : Z) : result queue :=
  let n := len q in
  let j := if i <? 0 then i + n else i in
  if (0 <=? j) && (j <? n) then
    match q with
    | deque l m => Ok (deque (remove_at (Z.to_nat j) l) m)
    | pylist l => Ok (pylist (remove_at (Z.to_nat j) l))
    end
  else
    match q with
    | deque _ _ => Raise (IndexError "deque index out of range")
    | pylist _ => Raise (IndexError "list assignment index out of range")
    end.

(** [q.clear()]. *)
Definition clear (q : queue) : queue :=
  match q with deque _ n => deque [] n | pylist _ => pylist [] end.

(* ================================================================= *)
(** ** TaskManager.py: the object and the monad of its methods *)

Record TaskManager : Type := mkTaskManager
  { max_queue_size : Z;
    tasks_queue : queue;
    run_mode : string;
    verbose : bool;
    duplicates_allowed : bool }.

(** What a method can read and change: the object, and standard output. *)
Record World : Type := mkWorld
  { self : TaskManager;
    stdout : list string }.

Definition M (A : Type) : Type := World -> result A * World.

Definition ret {A : Type} (a : A) : M A := fun w => (Ok a, w).

Definition raise {A : Type} (e : exn) : M A := fun w => (Raise e, w).

Definition bind {A B : Type} (m : M A) (f : A -> M B) : M B :=
  fun w =>
    match m w with
    | (Ok a, w') => f a w'
    | (Raise e, w') => (Raise e, w')
    end.

Notation "x <- m ;; k" := (bind m (fun x => k))
  (at level 61, m at next level, right associativity).
Notation "m ;;; k" := (bind m (fun _ => k))
  (at level 61, right associativity).

(** A pure computation that may raise, run inside a method. *)
Definition lift {A : Type} (r : result A) : M A := fun w => (r, w).

(** [try: m except <class matched by handles>: h]. *)
Definition try_except {A : Type} (m : M A) (handles : exn -> bool) (h : M A) : M A :=
  fun w =>
    match m w with
    | (Ok a, w') => (Ok a, w')
    | (Raise e, w') => if handles e then h w' else (Raise e, w')
    end.

Definition is_DuplicateTaskError (e : exn) : bool :=
  match e with DuplicateTaskError _ => true | _ => false end.

Definition get_self : M TaskManager := fun w => (Ok (self w), w).

(** The object after the assignment [self.tasks_queue = q] (or after a
    method of the queue changed it into [q]). *)
Definition with_tasks_queue (s : TaskManager) (q : queue) : TaskManager :=
  {| max_queue_size := max_queue_size s;
     tasks_queue := q;
     run_mode := run_mode s;
     verbose := verbose s;
     duplicates_allowed := duplicates_allowed s |}.

Definition set_tasks_queue (q : queue) : M unit :=
  fun w => (Ok tt, {| self := with_tasks_queue (self w) q; stdout := stdout w |}).

Definition print (line : string) : M unit :=
  fun w => (Ok tt, {| self := self w; stdout := stdout w ++ [line] |}).

(** [mlogger(message)] prints one line, [[INFO - <local time>]: message];
    the line is recorded by its message (the level is always INFO here). *)
Definition mlogger (message : string) : M unit := print message.

(* ----------------------------------------------------------------- *)
(** *** [__init__] *)

(** The values a caller can pass for [max_queue_size]: the constructor
    tests the argument's type itself, so the embedding keeps the type tag. *)
Inductive PyVal : Type :=
| PyInt (z : Z)
| PyBool (b : bool)
| PyFloat (f : spec_float)
| PyStr (s : string)
| PyNone.

(** [v == 0]. *)
Definition py_eq_zero (v : PyVal) : bool :=
  match v with
  | PyInt z => z =? 0
  | PyBool b => negb b
  | PyFloat (S754_zero _) => true
  | PyFloat _ => false
  | PyStr _ => false
  | PyNone => false
  end.

(** [x in ("a", "b", ...)] for a string [x]. *)
Definition str_in (x : string) (l : list string) : bool :=
  existsb (String.eqb x) l.

(** [sys.maxsize] of a 64-bit interpreter: the largest [maxlen] a deque
    accepts. *)
Definition sys_maxsize : Z := 2 ^ 63 - 1.

(** [deque([], maxlen)] for an [int] [maxlen]. *)
Definition new_deque (maxlen : Z) : result queue :=
  if (sys_maxsize <? maxlen) || (maxlen <? - sys_maxsize - 1) then
    Raise (OverflowError "Python int too large to convert to C ssize_t")
  else if maxlen <? 0 then
    Raise (ValueError "maxlen must be non-negative")
  else Ok (deque [] maxlen).

(** [TaskManager(max_queue_size, run_mode, verbose, duplicates_allowed)].
    The three tests come in the order of the source. *)
Definition __init__ (max_queue_size : PyVal) (run_mode : string)
    (verbose duplicates_allowed : bool) : result TaskManager :=
  if py_eq_zero max_queue_size then
    Raise (EmptyTaskManagerError "Empty task manager container is not permitted.")
  else if negb (str_in run_mode ["default"; "fifo"; "priority"]) then
    Raise (Exception "'method' can only be in ('default', 'fifo', 'priority')")
  else
    match max_queue_size with
    | PyInt n =>
        match new_deque n with
        | Ok q =>
            Ok {| max_queue_size := n;
                  tasks_queue := q;
                  run_mode := run_mode;
                  verbose := verbose;
                  duplicates_allowed := duplicates_allowed |}
        | Raise e => Raise e
        end
    | _ => Raise (TypeError "Only integers are allowed")
    end.

(** [TaskManager()] with the default arguments. *)
Definition TaskManager_default : result TaskManager :=
  __init__ (PyInt 5) "default" true false.

(* ----------------------------------------------------------------- *)
(** *** Accessors and setters *)

Definition filled_size (s : TaskManager) : Z := len (tasks_queue s).

Definition get_max_queue_size (s : TaskManager) : Z := max_queue_size s.

Definition get_run_method (s : TaskManager) : string := run_mode s.

Definition get_empty_slots (s : TaskManager) : Z :=
  max_queue_size s - len (tasks_queue s).

(** [set_max_queue_size(v)]: a bare assignment. The attribute is an [int]
    ([get_max_queue_size -> int]); the setter is taken at that type. *)
Definition set_max_queue_size (v : Z) : M unit :=
  fun w =>
    (Ok tt,
     {| self := {| max_queue_size := v;
                   tasks_queue := tasks_queue (self w);
                   run_mode := run_mode (self w);
                   verbose := verbose (self w);
                   duplicates_allowed := duplicates_allowed (self w) |};
        stdout := stdout w |}).

(** [set_run_method(new_run_mode)]: a bare assignment. *)
Definition set_run_method (new_run_mode : string) : M unit :=
  fun w =>
    (Ok tt,
     {| self := {| max_queue_size := max_queue_size (self w);
                   tasks_queue := tasks_queue (self w);
                   run_mode := new_run_mode;
                   verbose := verbose (self w);
                   duplicates_allowed := duplicates_allowed (self w) |};
        stdout := stdout w |}).

(** [str(n)] of an [int]. *)
Definition str_of_int (n : Z) : string := NilZero.string_of_int (Z.to_int n).

Definition print_max_queue_size : M unit :=
  s <- get_self ;;
  print (String.append "Container has size of " (str_of_int (max_queue_size s))).

Definition print_method : M unit :=
  s <- get_self ;;
  print (String.append "Run method is " (run_mode s)).

(* ----------------------------------------------------------------- *)
(** *** [_check_if_task_not_exists] *)

Definition pid_in (pid : string) (l : list Task) : bool :=
  existsb (String.eqb pid) (map get_pid l).

Definition _check_if_task_not_exists (task : Task) : M bool :=
  s <- get_self ;;
  if duplicates_allowed s then ret (duplicates_allowed s)
  else if pid_in (get_pid task) (items (tasks_queue s)) then
    raise (DuplicateTaskError "A job with given pid is already in queue.")
  else ret true.

(* ----------------------------------------------------------------- *)
(** *** [_add] and [_add_fifo] *)

Definition queue_append (task : Task) : M unit :=
  s <- get_self ;;
  set_tasks_queue (append (tasks_queue s) task).

Definition queue_popleft : M Task :=
  s <- get_self ;;
  r <- lift (popleft (tasks_queue s)) ;;
  set_tasks_queue (snd r) ;;;
  ret (fst r).

Definition queue_delitem (i : Z) : M unit :=
  s <- get_self ;;
  q <- lift (delitem (tasks_queue s) i) ;;
  set_tasks_queue q.

Definition _add (task : Task) : M unit :=
  ok <- _check_if_task_not_exists task ;;
  if ok then queue_append task else ret tt.

Definition _add_fifo (task : Task) : M unit :=
  ok <- _check_if_task_not_exists task ;;
  if ok then
    queue_popleft ;;;
    queue_append task
  else ret tt.

(* ----------------------------------------------------------------- *)
(** *** [_add_priority_based] *)

(** [previous_low_priority] starts as the integer [-1] and later holds a
    [Priority]. *)
Inductive int_or_Priority : Type :=
| AnInt (z : Z)
| APriority (p : Priority).

(** [self < other] when [other] may be an [int]: [Priority.__lt__] answers
    [NotImplemented] for another class, [int] has no answer either, and the
    interpreter raises. *)
Definition Priority_lt_any (self : Priority) (other : int_or_Priority) : result bool :=
  match other with
  | APriority p => Ok (Priority_lt self p)
  | AnInt _ =>
      Raise (TypeError "'<' not supported between instances of 'Priority' and 'int'")
  end.

(** The local variables of the search loop; [current_low_priority] is
    unbound until its one assignment, and never read. *)
Record locals : Type := mkLocals
  { index_to_remove : Z;
    current_index : Z;
    previous_low_priority : int_or_Priority;
    current_low_priority : option Priority }.

Definition locals_init : locals :=
  {| index_to_remove := -1;
     current_index := 0;
     previous_low_priority := AnInt (-1);
     current_low_priority := None |}.

Definition set_index_to_remove (v : Z) (st : locals) : locals :=
  {| index_to_remove := v;
     current_index := current_index st;
     previous_low_priority := previous_low_priority st;
     current_low_priority := current_low_priority st |}.

Definition incr_current_index (st : locals) : locals :=
  {| index_to_remove := index_to_remove st;
     current_index := current_index st + 1;
     previous_low_priority := previous_low_priority st;
     current_low_priority := current_low_priority st |}.

(** The [if]/[elif] that registers a candidate, for a [task] whose
    priority is below the new task's. *)
Definition register (task : Task) (st : locals) : result locals :=
  if index_to_remove st =? -1 then
    Ok {| index_to_remove := current_index st;
          current_index := current_index st;
          previous_low_priority := APriority (get_priority task);
          current_low_priority := current_low_priority st |}
  else
    match
      (if negb (index_to_remove st =? -1)
       then Priority_lt_any (get_priority task) (previous_low_priority st)
       else Ok false)
    with
    | Raise e => Raise e
    | Ok true =>
        Ok {| index_to_remove := current_index st;
              current_index := current_index st;
              previous_low_priority := previous_low_priority st;
              current_low_priority := Some (get_priority task) |}
    | Ok false => Ok st
    end.

(** One iteration of [for task in self.tasks_queue], from the locals [st];
    the boolean tells whether the iteration ended in [break]. *)
Definition loop_body (new_task task : Task) (st : locals) : result (locals * bool) :=
  if Priority_gt (get_priority new_task) (get_priority task) then
    match register task st with
    | Raise e => Raise e
    | Ok st1 =>
        if value (get_priority task) =? value min_Priority then
          Ok (set_index_to_remove (current_index st1) st1, true)
        else Ok (incr_current_index st1, false)
    end
  else Ok (incr_current_index st, false).

(** The whole loop over the items [q], from the locals [st]. *)
Fixpoint search (new_task : Task) (q : list Task) (st : locals) : result locals :=
  match q with
  | [] => Ok st
  | task :: rest =>
      match loop_body new_task task st with
      | Raise e => Raise e
      | Ok (st', true) => Ok st'
      | Ok (st', false) => search new_task rest st'
      end
  end.

(** The locals at the head of the loop once the items [pre] have been
    visited without a [break] (and without an exception). *)
Fixpoint locals_after (new_task : Task) (pre : list Task) (st : locals) : option locals :=
  match pre with
  | [] => Some st
  | task :: rest =>
      match loop_body new_task task st with
      | Ok (st', false) => locals_after new_task rest st'
      | _ => None
      end
  end.

Definition no_lower_priority_message (new_task : Task) : string :=
  String.append
    "Queue is full and there is no task with lower priority than new task's priority, '"
    (String.append (name (get_priority new_task)) "', to be removed.").

Definition _add_priority_based (new_task : Task) : M unit :=
  if value (get_priority new_task) =? value min_Priority then
    mlogger "Task has smallest possible priority and can not be replaced with existing tasks in task manager."
  else
    go_on <- try_except
               (_check_if_task_not_exists new_task ;;; ret true)
               is_DuplicateTaskError
               (mlogger "Task is already in task manager." ;;; ret false) ;;
    if go_on then
      s <- get_self ;;
      st <- lift (search new_task (items (tasks_queue s)) locals_init) ;;
      if index_to_remove st =? -1 then
        if verbose s then mlogger (no_lower_priority_message new_task)
        else ret tt
      else
        queue_delitem (index_to_remove st) ;;;
        queue_append new_task
    else ret tt.

(* ----------------------------------------------------------------- *)
(** *** [add] *)

Definition add (task : Task) : M unit :=
  if negb (is_active task) then
    raise (InactiveTaskError "Inactive jobs can not be added to task manager.")
  else
    s <- get_self ;;
    if filled_size s >=? max_queue_size s then
      if (run_mode s =? "default")%string then
        raise (MaxTaskSizeError "Task manager does not have free job slot.")
      else if (run_mode s =? "fifo")%string then _add_fifo task
      else if (run_mode s =? "priority")%string then _add_priority_based task
      else ret tt
    else _add task.

(* ----------------------------------------------------------------- *)
(** *** Removal *)

Definition _clear_tasks_queue (verbose_arg : option bool) : M unit :=
  s <- get_self ;;
  let verbose := match verbose_arg with None => verbose s | Some b => b end in
  (if verbose then mlogger "Clearing the tasks queue." else ret tt) ;;;
  s <- get_self ;;
  set_tasks_queue (clear (tasks_queue s)).

(** [kill_all_tasks]: every task of the queue is marked inactive, then the
    queue is emptied. The result lists the tasks as the loop left them. *)
Definition kill_all_tasks : M (list Task) :=
  s <- get_self ;;
  (if verbose s then mlogger "Killing all of the tasks queue." else ret tt) ;;;
  s <- get_self ;;
  let killed := map kill (items (tasks_queue s)) in
  _clear_tasks_queue (Some false) ;;;
  ret killed.

Definition kill_task (pid : string) : M unit :=
  s <- get_self ;;
  set_tasks_queue
    (pylist (filter (fun elem => negb (get_pid elem =? pid)%string)
                    (items (tasks_queue s)))).

(** [x in ("a", ...)] and [x != "a"] when [x] may be [None]. *)
Definition opt_str_in (x : option string) (l : list string) : bool :=
  match x with Some s => str_in s l | None => false end.

Definition opt_str_eqb (x : option string) (y : string) : bool :=
  match x with Some s => (s =? y)%string | None => false end.

(** [[elem for elem in l if not elem.get_pid.startswith(match)]]:
    [startswith(None)] raises, at the first element if there is one. *)
Definition drop_pid_prefix (match_ : option string) (l : list Task) : result (list Task) :=
  match match_, l with
  | _, [] => Ok []
  | None, _ :: _ =>
      Raise (TypeError "startswith first arg must be str or a tuple of str, not NoneType")
  | Some m, _ => Ok (filter (fun elem => negb (String.prefix m (get_pid elem))) l)
  end.

Definition kill_by_group (group match_ : option string) : M unit :=
  if negb (opt_str_in group ["priority"; "pid"]) then
    raise (ValueError "'group can only be in ('priority' , 'pid')'")
  else
    s <- get_self ;;
    if opt_str_eqb group "priority" then
      set_tasks_queue
        (pylist (filter (fun elem => negb (opt_str_eqb match_ (name (get_priority elem))))
                        (items (tasks_queue s))))
    else
      l <- lift (drop_pid_prefix match_ (items (tasks_queue s))) ;;
      set_tasks_queue (pylist l).

(* ----------------------------------------------------------------- *)
(** *** Listing *)

(** The builtin [sorted(l, key=key, reverse=reverse)], where keys are
    compared with [lt] only. The sort is stable; with [reverse] the list is
    reversed, sorted, and reversed again, as [list.sort] does, so that equal
    keys keep their original order in both directions. *)
Fixpoint insert_sorted {A K : Type} (lt : K -> K -> bool) (key : A -> K)
    (x : A) (l : list A) : list A :=
  match l with
  | [] => [x]
  | y :: l' =>
      if lt (key y) (key x) then y :: insert_sorted lt key x l'
      else x :: y :: l'
  end.

Definition stable_sort {A K : Type} (lt : K -> K -> bool) (key : A -> K)
    (l : list A) : list A :=
  fold_right (insert_sorted lt key) [] l.

Definition sorted {A K : Type} (lt : K -> K -> bool) (key : A -> K)
    (reverse : bool) (l : list A) : list A :=
  if reverse then rev (stable_sort lt key (rev l)) else stable_sort lt key l.

Definition list_running_tasks (by_ : string) (reverse : bool) : M (option (list Task)) :=
  if negb (str_in by_ ["ctime"; "pid"; "priority"]) then
    mlogger "'by' parameter is not well defined. Acceptable values are: ('ctime', 'pid', 'priority')" ;;;
    ret None
  else
    s <- get_self ;;
    (if verbose s then
       if verbose s then
         mlogger (String.append "Printing list of running tasks by '" (String.append by_ "'."))
       else ret tt
     else ret tt) ;;;
    if filled_size s =? 0 then
      mlogger "Tasks queue is empty" ;;;
      ret None
    else if (by_ =? "ctime")%string then
      ret (Some (if negb reverse then items (tasks_queue s)
                 else rev (items (tasks_queue s))))
    else
      ret (Some (if (by_ =? "priority")%string
                 then sorted Priority_lt get_priority reverse (items (tasks_queue s))
                 else sorted String.ltb get_pid reverse (items (tasks_queue s)))).

(** Running a method on an object and a standard output. *)
Definition run {A : Type} (m : M A) (s : TaskManager) (out : list string) : result A * World :=
  m {| self := s; stdout := out |}.

(* ================================================================= *)
(** ** Example objects *)

Definition task_a : Task := mkTask "a1" medium true.
Definition task_b : Task := mkTask "b2" high true.
Definition task_c : Task := mkTask "c3" low true.
Definition task_d : Task := mkTask "d4" low true.
Definition task_e : Task := mkTask "e5" high true.

(** A manager of capacity 2 holding [task_a] and [task_b]. *)
Definition full_manager (mode : string) (dups : bool) : TaskManager :=
  {| max_queue_size := 2;
     tasks_queue := deque [task_a; task_b] 2;
     run_mode := mode;
     verbose := true;
     duplicates_allowed := dups |}.

(* ================================================================= *)
(** ** Vocabulary of the statements *)

Definition smallest_priority_message : string :=
  "Task has smallest possible priority and can not be replaced with existing tasks in task manager.".

Definition already_in_message : string := "Task is already in task manager.".

(** Position of the first task of priority [p]. *)
Fixpoint first_with (p : Priority) (q : list Task) : option nat :=
  match q with
  | [] => None
  | t :: rest =>
      if value (get_priority t) =? value p then Some 0%nat
      else option_map S (first_with p rest)
  end.

(** The position the loop is meant to find, for a new task of priority
    [np]: the first [low] if there is one below [np], else the first
    [medium] if that is below [np]. *)
Definition victim (np : Priority) (q : list Task) : option nat :=
  match np with
  | low => None
  | medium => first_with low q
  | high =>
      match first_with low q with
      | Some i => Some i
      | None => first_with medium q
      end
  end.

Definition found (cur : Z) (o : option nat) : Z :=
  match o with Some i => cur + Z.of_nat i | None => -1 end.

(** What holds of the locals at the head of the loop, once the items
    [done] have been visited without a [break]: the index counts them, and
    a registered candidate is an item of [done] below the new task, not of
    the lowest priority, whose priority is in [previous_low_priority]. *)
Definition loop_invariant (new_task : Task) (done : list Task) (st : locals) : Prop :=
  current_index st = Z.of_nat (List.length done) /\
  (index_to_remove st = -1 \/
   exists cand,
     0 <= index_to_remove st /\
     nth_error done (Z.to_nat (index_to_remove st)) = Some cand /\
     previous_low_priority st = APriority (get_priority cand) /\
     get_priority cand <> low /\
     Priority_gt (get_priority new_task) (get_priority cand) = true).

(** The same kind of sequence as [q], holding [l]. *)
Definition with_items (q : queue) (l : list Task) : queue :=
  match q with deque _ n => deque l n | pylist _ => pylist l end.

(** The manager of [test_adding_high_priority_task], filled with its eight
    tasks, and the ninth task. *)
Definition eight_tasks : list Task :=
  [ mkTask "t1" medium true; mkTask "t2" medium true; mkTask "t3" low true;
    mkTask "t4" medium true; mkTask "t5" low true; mkTask "t6" high true;
    mkTask "t7" low true; mkTask "t8" low true ].

Definition priority_manager : TaskManager :=
  {| max_queue_size := 8;
     tasks_queue := deque eight_tasks 8;
     run_mode := "priority";
     verbose := true;
     duplicates_allowed := false |}.

Definition task_9 : Task := mkTask "t9" high true.

(** The capacities that compare equal to zero. *)
Definition zero_capacity (cap : PyVal) : Prop :=
  cap = PyInt 0 \/ cap = PyBool false \/ exists sign, cap = PyFloat (S754_zero sign).

Definition known_run_mode (mode : string) : Prop :=
  mode = "default" \/ mode = "fifo" \/ mode = "priority".

(** [capacity >= 1] and [len(queue) <= capacity]. *)
Definition invariant (s : TaskManager) : Prop :=
  1 <= max_queue_size s /\ filled_size s <= max_queue_size s.

(** The public methods, as calls on one object. *)
Inductive call : Type :=
| call_add (task : Task)
| call_kill_all_tasks
| call_kill_task (pid : string)
| call_kill_by_group (group match_ : option string)
| call_list_running_tasks (by_ : string) (reverse : bool)
| call_print_max_queue_size
| call_print_method
| call_set_run_method (new_run_mode : string)
| call_set_max_queue_size (v : Z).

(** The object and the output after a call, whether it returned or raised. *)
Definition perform (c : call) (w : World) : World :=
  match c with
  | call_add task => snd (add task w)
  | call_kill_all_tasks => snd (kill_all_tasks w)
  | call_kill_task pid => snd (kill_task pid w)
  | call_kill_by_group group match_ => snd (kill_by_group group match_ w)
  | call_list_running_tasks by_ reverse => snd (list_running_tasks by_ reverse w)
  | call_print_max_queue_size => snd (print_max_queue_size w)
  | call_print_method => snd (print_method w)
  | call_set_run_method m => snd (set_run_method m w)
  | call_set_max_queue_size v => snd (set_max_queue_size v w)
  end.

(** The object and the output after a sequence of calls. *)
Definition perform_all (calls : list call) (w : World) : World :=
  fold_left (fun w c => perform c w) calls w.

(** [w'] has the capacity of [w] and at most [k] more tasks. *)
Definition grows_by (k : Z) (w w' : World) : Prop :=
  max_queue_size (self w') = max_queue_size (self w) /\
  filled_size (self w') <= filled_size (self w) + k.

(** A manager holding two [low] tasks, [task_c] before [task_d]. *)
Definition two_low_manager : TaskManager :=
  {| max_queue_size := 5;
     tasks_queue := deque [task_c; task_d] 5;
     run_mode := "default";
     verbose := false;
     duplicates_allowed := false |}.

Definition listing_message (by_ : string) : string :=
  String.append "Printing list of running tasks by '" (String.append by_ "'.").

(** Orders on items by an integer rank, and the test of one rank. *)
Definition ascending {A : Type} (rank : A -> Z) (a b : A) : Prop := rank a <= rank b.

Definition descending {A : Type} (rank : A -> Z) (a b : A) : Prop := rank b <= rank a.

Definition of_rank {A : Type} (rank : A -> Z) (k : Z) (a : A) : bool := rank a =? k.

(** The four settings of a manager. *)
Definition same_configuration (s s' : TaskManager) : Prop :=
  max_queue_size s' = max_queue_size s /\
  run_mode s' = run_mode s /\
  verbose s' = verbose s /\
  duplicates_allowed s' = duplicates_allowed s.

(** No two tasks of [l] have the same identifier. *)
Definition unique_pids (l : list Task) : Prop := NoDup (map get_pid l).

(** [append] will not drop an item: a list always has room, a deque when
    it holds fewer than [maxlen] items. *)
Definition has_room (q : queue) : Prop :=
  match q with
  | deque l n => Z.of_nat (List.length l) < n
  | pylist _ => True
  end.

(** The number of tasks of [l] with identifier [pid]. *)
Definition count_pid (pid : string) (l : list Task) : nat :=
  List.length (filter (fun t => (get_pid t =? pid)%string) l).

(** [a] is not above [b] for the order [lt] on keys. *)
Definition not_above {A K : Type} (lt : K -> K -> bool) (key : A -> K) (a b : A) : Prop :=
  lt (key b) (key a) = false.

(** The sum of the priority values of the tasks of [l]. *)
Definition total_value (l : list Task) : Z :=
  fold_right (fun t acc => value (get_priority t) + acc) 0 l.

(* ================================================================= *)
(** ** Generic facts about the monad and the queue *)

Ltac unfold_M :=
  unfold run, queue_append, queue_popleft, queue_delitem, set_tasks_queue,
    mlogger, print, try_except, lift, bind, ret, raise, get_self in *.

Ltac simpl_self :=
  unfold with_tasks_queue, filled_size;
  cbn [self stdout tasks_queue max_queue_size run_mode verbose duplicates_allowed
       fst snd].

Lemma at_capacity_geb (s : TaskManager) :
  max_queue_size s <= filled_size s ->
  (filled_size s >=? max_queue_size s) = true.
Proof. intros H. apply Z.geb_le. exact H. Qed.

Lemma below_capacity_geb (s : TaskManager) :
  filled_size s < max_queue_size s ->
  (filled_size s >=? max_queue_size s) = false.
Proof.
  intros H. destruct (filled_size s >=? max_queue_size s) eqn:E; trivial.
  apply Z.geb_le in E. lia.
Qed.

Lemma pid_in_In (pid : string) (l : list Task) :
  pid_in pid l = true <-> exists t, In t l /\ get_pid t = pid.
Proof.
  unfold pid_in. rewrite existsb_exists. split.
  - intros [x [Hin Hx]]. apply in_map_iff in Hin. destruct Hin as [t [Ht Hin]].
    exists t. split; trivial. apply String.eqb_eq in Hx. congruence.
  - intros [t [Hin Ht]]. exists (get_pid t). split.
    + apply in_map. exact Hin.
    + apply String.eqb_eq. congruence.
Qed.

(* ================================================================= *)
(** ** The strict ("default") run mode at capacity *)

(** C2. In the "default" run mode, when the container is at capacity, [add]
    of an active task raises [MaxTaskSizeError] with the message "Task
    manager does not have free job slot." and leaves the object (hence the
    queue and its size) and the output as they were. *)
Theorem add_default_at_capacity_raises
    (s : TaskManager) (out : list string) (task : Task) :
  is_active task = true ->
  run_mode s = "default" ->
  max_queue_size s <= filled_size s ->
  run (add task) s out =
    (Raise (MaxTaskSizeError "Task manager does not have free job slot."),
     {| self := s; stdout := out |}).
Proof.
  intros Hact Hmode Hfull. unfold add. rewrite Hact. unfold_M. simpl.
  rewrite (at_capacity_geb s Hfull), Hmode. reflexivity.
Qed.

Lemma add_default_at_capacity_raises_witness :
  run (add task_c) (full_manager "default" false) [] =
    (Raise (MaxTaskSizeError "Task manager does not have free job slot."),
     {| self := full_manager "default" false; stdout := [] |}).
Proof.
  apply (add_default_at_capacity_raises (full_manager "default" false) [] task_c).
  - reflexivity.
  - reflexivity.
  - vm_compute. discriminate.
Defined.

(* ================================================================= *)
(** ** The fifo run mode at capacity *)

(** C4. In the "fifo" run mode with duplicates disallowed, when the
    container is at capacity, [add] of an active task whose identifier is
    already present raises [DuplicateTaskError]; the check comes before the
    removal of the head, so the object is left exactly as it was. *)
Theorem add_fifo_duplicate_raises
    (s : TaskManager) (out : list string) (task : Task) :
  is_active task = true ->
  run_mode s = "fifo" ->
  duplicates_allowed s = false ->
  max_queue_size s <= filled_size s ->
  pid_in (get_pid task) (items (tasks_queue s)) = true ->
  run (add task) s out =
    (Raise (DuplicateTaskError "A job with given pid is already in queue."),
     {| self := s; stdout := out |}).
Proof.
  intros Hact Hmode Hdup Hfull Hin. unfold add. rewrite Hact. unfold_M. simpl.
  rewrite (at_capacity_geb s Hfull), Hmode. simpl.
  unfold _add_fifo, _check_if_task_not_exists. unfold_M. simpl.
  rewrite Hdup, Hin. reflexivity.
Qed.

Lemma add_fifo_duplicate_raises_witness :
  run (add task_a) (full_manager "fifo" false) [] =
    (Raise (DuplicateTaskError "A job with given pid is already in queue."),
     {| self := full_manager "fifo" false; stdout := [] |}).
Proof.
  apply (add_fifo_duplicate_raises (full_manager "fifo" false) [] task_a).
  - reflexivity.
  - reflexivity.
  - reflexivity.
  - vm_compute. discriminate.
  - reflexivity.
Defined.


Lemma pid_in_app (pid : string) (l1 l2 : list Task) :
  pid_in pid (l1 ++ l2) = pid_in pid l1 || pid_in pid l2.
Proof. unfold pid_in. rewrite map_app. apply existsb_app. Qed.

Lemma pid_in_false_not_In (pid : string) (l : list Task) :
  ~ In pid (map get_pid l) -> pid_in pid l = false.
Proof.
  intros H. destruct (pid_in pid l) eqn:E; trivial.
  apply pid_in_In in E. destruct E as [t [Hin Ht]].
  exfalso. apply H. rewrite <- Ht. apply in_map. exact Hin.
Qed.



(* ================================================================= *)
(** ** After [kill_task] or [kill_by_group] the queue is a list *)

Lemma kill_task_makes_list (s : TaskManager) (out : list string) (pid : string) :
  exists l,
    run (kill_task pid) s out =
      (Ok tt, {| self := with_tasks_queue s (pylist l); stdout := out |}).
Proof. eexists. unfold kill_task. unfold_M. simpl. reflexivity. Qed.

Lemma kill_by_group_makes_list
    (s : TaskManager) (out : list string) (group match_ : option string) (w : World) :
  run (kill_by_group group match_) s out = (Ok tt, w) ->
  exists l, w = {| self := with_tasks_queue s (pylist l); stdout := out |}.
Proof.
  unfold kill_by_group. unfold_M. simpl.
  destruct (opt_str_in group ["priority"; "pid"]); simpl; [ | discriminate ].
  destruct (opt_str_eqb group "priority").
  - intros H. inversion H. eexists. reflexivity.
  - destruct (drop_pid_prefix match_ (items (tasks_queue s))) as [l | e]; intros H.
    + inversion H. eexists. reflexivity.
    + discriminate.
Qed.

Lemma add_fifo_on_list_raises
    (s : TaskManager) (out : list string) (task : Task) :
  is_active task = true ->
  run_mode s = "fifo" ->
  is_deque (tasks_queue s) = false ->
  max_queue_size s <= filled_size s ->
  duplicates_allowed s = true \/ pid_in (get_pid task) (items (tasks_queue s)) = false ->
  run (add task) s out =
    (Raise (AttributeError "'list' object has no attribute 'popleft'"),
     {| self := s; stdout := out |}).
Proof.
  intros Hact Hmode Hlist Hfull Hnodup. unfold add. rewrite Hact. unfold_M. simpl.
  rewrite (at_capacity_geb s Hfull), Hmode. simpl.
  unfold _add_fifo, _check_if_task_not_exists. unfold_M. simpl.
  destruct (tasks_queue s) as [l n | l] eqn:Eq; [ simpl in Hlist; discriminate | ].
  simpl in Hnodup. destruct (duplicates_allowed s) eqn:Ed.
  - simpl. rewrite Eq. reflexivity.
  - destruct Hnodup as [H | H]; [ discriminate | ]. simpl. rewrite H. simpl.
    rewrite Eq. reflexivity.
Qed.

(** C10. [kill_task], and [kill_by_group] whenever it returns, leave in
    [tasks_queue] a plain list in place of the deque. If the manager is
    then in the "fifo" run mode and at capacity, the next [add] of an active
    task that passes the duplicate check raises [AttributeError] (a list has
    no [popleft]) and changes nothing: no eviction, no insertion. *)
Theorem add_fifo_after_kill_raises_AttributeError
    (s : TaskManager) (out : list string) (task : Task) (w : World) :
  (exists pid, run (kill_task pid) s out = (Ok tt, w)) \/
  (exists group match_, run (kill_by_group group match_) s out = (Ok tt, w)) ->
  is_active task = true ->
  run_mode (self w) = "fifo" ->
  max_queue_size (self w) <= filled_size (self w) ->
  duplicates_allowed (self w) = true \/
    pid_in (get_pid task) (items (tasks_queue (self w))) = false ->
  is_deque (tasks_queue (self w)) = false /\
  add task w =
    (Raise (AttributeError "'list' object has no attribute 'popleft'"), w).
Proof.
  intros Hkill Hact Hmode Hfull Hnodup.
  assert (Hlist : is_deque (tasks_queue (self w)) = false).
  { destruct Hkill as [[pid H] | [group [match_ H]]].
    - destruct (kill_task_makes_list s out pid) as [l Hl].
      rewrite Hl in H. inversion H. reflexivity.
    - apply kill_by_group_makes_list in H. destruct H as [l Hl].
      rewrite Hl. reflexivity. }
  split; [ exact Hlist | ].
  destruct w as [s' out']. simpl in *.
  exact (add_fifo_on_list_raises s' out' task Hact Hmode Hlist Hfull Hnodup).
Qed.

Lemma add_fifo_after_kill_raises_AttributeError_witness :
  is_deque (tasks_queue (with_tasks_queue (full_manager "fifo" false)
                           (pylist [task_a; task_b]))) = false /\
  add task_c {| self := with_tasks_queue (full_manager "fifo" false)
                          (pylist [task_a; task_b]);
                stdout := [] |} =
    (Raise (AttributeError "'list' object has no attribute 'popleft'"),
     {| self := with_tasks_queue (full_manager "fifo" false) (pylist [task_a; task_b]);
        stdout := [] |}).
Proof.
  apply (add_fifo_after_kill_raises_AttributeError
           (full_manager "fifo" false) [] task_c
           {| self := with_tasks_queue (full_manager "fifo" false)
                        (pylist [task_a; task_b]);
              stdout := [] |}).
  - left. exists "zz". reflexivity.
  - reflexivity.
  - reflexivity.
  - vm_compute. discriminate.
  - right. reflexivity.
Defined.

(* ================================================================= *)
(** ** The priority run mode at capacity: the cases that skip *)

Lemma value_min_Priority (p : Priority) :
  (value p =? value min_Priority) = match p with low => true | _ => false end.
Proof. destruct p; reflexivity. Qed.

(** Where the duplicate check is not guarded: below capacity in every run
    mode ([_add]) and at capacity in the "fifo" run mode ([_add_fifo]). *)
Lemma add_propagates_duplicate (s : TaskManager) (out : list string) (task : Task) :
  is_active task = true ->
  duplicates_allowed s = false ->
  pid_in (get_pid task) (items (tasks_queue s)) = true ->
  filled_size s < max_queue_size s \/ run_mode s = "fifo" ->
  run (add task) s out =
    (Raise (DuplicateTaskError "A job with given pid is already in queue."),
     {| self := s; stdout := out |}).
Proof.
  intros Hact Hdup Hin Hpath. unfold add. rewrite Hact. unfold_M. simpl.
  destruct (filled_size s >=? max_queue_size s) eqn:Efull.
  - destruct Hpath as [Hbelow | Hmode].
    { rewrite (below_capacity_geb s Hbelow) in Efull. discriminate. }
    rewrite Hmode. simpl.
    unfold _add_fifo, _check_if_task_not_exists. unfold_M. simpl.
    rewrite Hdup, Hin. reflexivity.
  - unfold _add, _check_if_task_not_exists. unfold_M. simpl.
    rewrite Hdup, Hin. reflexivity.
Qed.

(** C5. In the "priority" run mode with duplicates disallowed, when the
    container is at capacity, [add] of an active task whose identifier is
    already present returns normally: the duplicate check does raise
    [DuplicateTaskError] on this task, but the exception is handled inside;
    one diagnostic line is printed and the object is unchanged. (For a task
    of priority [low] the method returns even before the check, with the
    diagnostic of that case.) On the other paths that run the check, below
    capacity and in the "fifo" run mode, the exception reaches the caller. *)
Theorem add_priority_duplicate_is_skipped
    (s : TaskManager) (out : list string) (task : Task) :
  is_active task = true ->
  run_mode s = "priority" ->
  duplicates_allowed s = false ->
  max_queue_size s <= filled_size s ->
  pid_in (get_pid task) (items (tasks_queue s)) = true ->
  run (_check_if_task_not_exists task) s out =
    (Raise (DuplicateTaskError "A job with given pid is already in queue."),
     {| self := s; stdout := out |}) /\
  run (add task) s out =
    (Ok tt,
     {| self := s;
        stdout := out ++ [match get_priority task with
                          | low => smallest_priority_message
                          | _ => already_in_message
                          end] |}) /\
  (forall s' out',
     duplicates_allowed s' = false ->
     pid_in (get_pid task) (items (tasks_queue s')) = true ->
     filled_size s' < max_queue_size s' \/ run_mode s' = "fifo" ->
     run (add task) s' out' =
       (Raise (DuplicateTaskError "A job with given pid is already in queue."),
        {| self := s'; stdout := out' |})).
Proof.
  intros Hact Hmode Hdup Hfull Hin. split; [ | split ].
  3: { intros s' out' Hdup' Hin' Hpath.
       exact (add_propagates_duplicate s' out' task Hact Hdup' Hin' Hpath). }
  - unfold _check_if_task_not_exists. unfold_M. simpl. rewrite Hdup, Hin. reflexivity.
  - unfold add. rewrite Hact. unfold_M. simpl.
    rewrite (at_capacity_geb s Hfull), Hmode. simpl.
    unfold _add_priority_based. rewrite value_min_Priority.
    destruct (get_priority task); unfold_M; simpl; try reflexivity;
      unfold _check_if_task_not_exists; unfold_M; simpl; rewrite Hdup, Hin;
      reflexivity.
Qed.

Lemma add_priority_duplicate_is_skipped_witness :
  run (_check_if_task_not_exists task_b) (full_manager "priority" false) [] =
    (Raise (DuplicateTaskError "A job with given pid is already in queue."),
     {| self := full_manager "priority" false; stdout := [] |}) /\
  run (add task_b) (full_manager "priority" false) [] =
    (Ok tt,
     {| self := full_manager "priority" false;
        stdout := [] ++ [match get_priority task_b with
                         | low => smallest_priority_message
                         | _ => already_in_message
                         end] |}) /\
  (forall s' out',
     duplicates_allowed s' = false ->
     pid_in (get_pid task_b) (items (tasks_queue s')) = true ->
     filled_size s' < max_queue_size s' \/ run_mode s' = "fifo" ->
     run (add task_b) s' out' =
       (Raise (DuplicateTaskError "A job with given pid is already in queue."),
        {| self := s'; stdout := out' |})).
Proof.
  apply (add_priority_duplicate_is_skipped (full_manager "priority" false) [] task_b).
  - reflexivity.
  - reflexivity.
  - reflexivity.
  - vm_compute. discriminate.
  - reflexivity.
Defined.

(* ----------------------------------------------------------------- *)
(** *** What the search loop computes *)

Lemma value_inj (p p' : Priority) : value p = value p' -> p = p'.
Proof. destruct p, p'; simpl; intros H; try reflexivity; lia. Qed.

Lemma first_with_Some (p : Priority) (q : list Task) (i : nat) :
  first_with p q = Some i ->
  exists v, nth_error q i = Some v /\ get_priority v = p /\
    forall j e, (j < i)%nat -> nth_error q j = Some e -> get_priority e <> p.
Proof.
  revert i. induction q as [ | t rest IH ]; intros i H; simpl in H.
  - discriminate.
  - destruct (value (get_priority t) =? value p) eqn:E.
    + inversion H; subst. exists t. split; [ reflexivity | ]. split.
      * apply value_inj. apply Z.eqb_eq. exact E.
      * intros j e Hj. lia.
    + destruct (first_with p rest) as [ k | ] eqn:Ek; simpl in H; [ | discriminate ].
      inversion H; subst. destruct (IH k eq_refl) as [v [Hv [Hp Hbefore]]].
      exists v. split; [ exact Hv | ]. split; [ exact Hp | ].
      intros j e Hj Hnth. destruct j as [ | j ].
      * simpl in Hnth. inversion Hnth; subst. intros Heq.
        rewrite Heq, Z.eqb_refl in E. discriminate.
      * simpl in Hnth. apply (Hbefore j e); [ lia | exact Hnth ].
Qed.

Lemma first_with_None (p : Priority) (q : list Task) :
  first_with p q = None -> forall e, In e q -> get_priority e <> p.
Proof.
  induction q as [ | t rest IH ]; intros H e Hin; simpl in *.
  - contradiction.
  - destruct (value (get_priority t) =? value p) eqn:E; [ discriminate | ].
    destruct (first_with p rest) eqn:Ek; simpl in H; [ discriminate | ].
    destruct Hin as [ <- | Hin ].
    + intros Heq. rewrite Heq, Z.eqb_refl in E. discriminate.
    + apply IH; trivial.
Qed.

(** Once a [medium] candidate is registered, only a [low] task changes
    the index, and the loop stops there. *)
Lemma search_with_candidate (new_task : Task) (q : list Task) (st : locals) :
  get_priority new_task = high ->
  index_to_remove st <> -1 ->
  0 <= current_index st ->
  previous_low_priority st = APriority medium ->
  exists st',
    search new_task q st = Ok st' /\
    index_to_remove st' =
      match first_with low q with
      | Some i => current_index st + Z.of_nat i
      | None => index_to_remove st
      end.
Proof.
  intros Hnew. revert st. induction q as [ | task rest IH ]; intros st Hidx Hcur Hprev.
  - exists st. split; reflexivity.
  - simpl. unfold loop_body, register. rewrite Hnew, Hprev.
    apply Z.eqb_neq in Hidx. rewrite Hidx. simpl.
    destruct (get_priority task) eqn:Et; simpl.
    + eexists. split; [ reflexivity | ]. simpl. lia.
    + destruct (IH (incr_current_index st)) as [st' [Hs Hi]]; simpl; trivial.
      * apply Z.eqb_neq. exact Hidx.
      * lia.
      * exists st'. split; [ exact Hs | ]. rewrite Hi. simpl.
        destruct (first_with low rest); simpl; lia.
    + destruct (IH (incr_current_index st)) as [st' [Hs Hi]]; simpl; trivial.
      * apply Z.eqb_neq. exact Hidx.
      * lia.
      * exists st'. split; [ exact Hs | ]. rewrite Hi. simpl.
        destruct (first_with low rest); simpl; lia.
Qed.

(** Without a candidate yet, the loop finds [victim]. *)
Lemma search_without_candidate (new_task : Task) (q : list Task) (st : locals) :
  index_to_remove st = -1 ->
  0 <= current_index st ->
  exists st',
    search new_task q st = Ok st' /\
    index_to_remove st' = found (current_index st) (victim (get_priority new_task) q).
Proof.
  revert st. induction q as [ | task rest IH ]; intros st Hidx Hcur.
  - exists st. split; [ reflexivity | ]. rewrite Hidx.
    destruct (get_priority new_task); reflexivity.
  - simpl. unfold loop_body, register. rewrite Hidx. simpl.
    destruct (get_priority new_task) eqn:Hnew, (get_priority task) eqn:Et; simpl;
      rewrite ?Et; simpl;
      try (eexists; split; [ reflexivity | ]; simpl; lia);
      try (destruct (IH (incr_current_index st)) as [st' [Hs Hi]];
           [ exact Hidx | simpl; lia | ];
           exists st'; split; [ exact Hs | ]; rewrite Hi; simpl;
           repeat match goal with
                  | |- context [ first_with ?p rest ] => destruct (first_with p rest)
                  end; simpl; lia).
    (* new task [high], current task [medium]: the candidate is registered *)
    match goal with
    | |- context [ search new_task rest ?s ] =>
        destruct (search_with_candidate new_task rest s) as [st' [Hs Hi]]
    end; simpl; trivial; try lia.
    exists st'. split; [ exact Hs | ]. rewrite Hi. simpl.
    destruct (first_with low rest); simpl; lia.
Qed.

Lemma search_from_start (new_task : Task) (q : list Task) :
  exists st',
    search new_task q locals_init = Ok st' /\
    index_to_remove st' = found 0 (victim (get_priority new_task) q).
Proof.
  apply (search_without_candidate new_task q locals_init); simpl; [ reflexivity | lia ].
Qed.

Lemma victim_Some (np : Priority) (q : list Task) (i : nat) :
  victim np q = Some i ->
  exists v,
    nth_error q i = Some v /\
    Priority_lt (get_priority v) np = true /\
    (forall e, In e q -> Priority_lt (get_priority e) np = true ->
               value (get_priority v) <= value (get_priority e)) /\
    (forall j e, (j < i)%nat -> nth_error q j = Some e ->
                 get_priority e <> get_priority v).
Proof.
  unfold victim. destruct np.
  - discriminate.
  - intros H. destruct (first_with_Some low q i H) as [v [Hv [Hp Hfirst]]].
    exists v. rewrite Hp. repeat split; trivial.
    intros e _ _. destruct (get_priority e); simpl; lia.
  - destruct (first_with low q) as [ k | ] eqn:Elow.
    + intros H. inversion H; subst k.
      destruct (first_with_Some low q i Elow) as [v [Hv [Hp Hfirst]]].
      exists v. rewrite Hp. repeat split; trivial.
      intros e _ _. destruct (get_priority e); simpl; lia.
    + intros H. destruct (first_with_Some medium q i H) as [v [Hv [Hp Hfirst]]].
      exists v. rewrite Hp. repeat split; trivial.
      intros e Hin _. pose proof (first_with_None low q Elow e Hin) as Hne.
      destruct (get_priority e); simpl; try lia. congruence.
Qed.

Lemma victim_None (np : Priority) (q : list Task) :
  victim np q = None ->
  forall e, In e q -> Priority_lt (get_priority e) np = false.
Proof.
  unfold victim. destruct np.
  - intros _ e _. destruct (get_priority e); reflexivity.
  - intros H e Hin. pose proof (first_with_None low q H e Hin) as Hne.
    destruct (get_priority e); try reflexivity. congruence.
  - destruct (first_with low q) eqn:Elow; [ discriminate | ].
    intros H e Hin. pose proof (first_with_None low q Elow e Hin) as Hne.
    pose proof (first_with_None medium q H e Hin) as Hne'.
    destruct (get_priority e); try reflexivity; congruence.
Qed.

Lemma no_lower_no_victim (np : Priority) (q : list Task) :
  (forall e, In e q -> Priority_lt (get_priority e) np = false) ->
  victim np q = None.
Proof.
  intros H. destruct (victim np q) as [ i | ] eqn:E; trivial.
  destruct (victim_Some np q i E) as [v [Hv [Hlt _]]].
  apply nth_error_In in Hv. rewrite (H v Hv) in Hlt. discriminate.
Qed.

(** C6. In the "priority" run mode, when the container is at capacity,
    [add] of an active task whose priority is the lowest rank of the
    enumeration, or for which no task of the queue has a strictly lower
    priority, returns normally and leaves the object as it was; it prints
    at most one line, which is one of the three diagnostics of the method. *)
Theorem add_priority_skip_is_noop
    (s : TaskManager) (out : list string) (task : Task) :
  is_active task = true ->
  run_mode s = "priority" ->
  max_queue_size s <= filled_size s ->
  (forall p, value (get_priority task) <= value p) \/
  (forall e, In e (items (tasks_queue s)) ->
             Priority_lt (get_priority e) (get_priority task) = false) ->
  exists diag,
    run (add task) s out = (Ok tt, {| self := s; stdout := out ++ diag |}) /\
    (List.length diag <= 1)%nat /\
    incl diag [smallest_priority_message; already_in_message;
               no_lower_priority_message task].
Proof.
  intros Hact Hmode Hfull Hcase. unfold add. rewrite Hact. unfold_M. simpl.
  rewrite (at_capacity_geb s Hfull), Hmode. simpl.
  unfold _add_priority_based. rewrite value_min_Priority.
  destruct (get_priority task) eqn:Ep.
  - exists [smallest_priority_message]. unfold_M. simpl.
    split; [ reflexivity | ]. split; [ lia | ].
    intros x [ <- | [] ]. left. reflexivity.
  - destruct Hcase as [Hlow | Hnone].
    { specialize (Hlow low). simpl in Hlow. lia. }
    unfold _check_if_task_not_exists. unfold_M. simpl.
    destruct (duplicates_allowed s) eqn:Ed; simpl;
      [ | destruct (pid_in (get_pid task) (items (tasks_queue s))) eqn:Ein; simpl ].
    2: { exists [already_in_message]. split; [ reflexivity | ]. split; [ simpl; lia | ].
         intros x [ <- | [] ]. right. left. reflexivity. }
    all: destruct (search_from_start task (items (tasks_queue s))) as [st' [Hs Hi]];
      rewrite Hs; rewrite Ep, (no_lower_no_victim _ _ Hnone) in Hi; simpl in Hi;
      rewrite Hi; simpl;
      destruct (verbose s); simpl;
      [ exists [no_lower_priority_message task]; split; [ reflexivity | ];
        split; [ simpl; lia | ]; intros x [ <- | [] ]; right; right; left; reflexivity
      | exists []; rewrite app_nil_r; split; [ reflexivity | ];
        split; [ simpl; lia | ]; intros x [] ].
  - destruct Hcase as [Hlow | Hnone].
    { specialize (Hlow low). simpl in Hlow. lia. }
    unfold _check_if_task_not_exists. unfold_M. simpl.
    destruct (duplicates_allowed s) eqn:Ed; simpl;
      [ | destruct (pid_in (get_pid task) (items (tasks_queue s))) eqn:Ein; simpl ].
    2: { exists [already_in_message]. split; [ reflexivity | ]. split; [ simpl; lia | ].
         intros x [ <- | [] ]. right. left. reflexivity. }
    all: destruct (search_from_start task (items (tasks_queue s))) as [st' [Hs Hi]];
      rewrite Hs; rewrite Ep, (no_lower_no_victim _ _ Hnone) in Hi; simpl in Hi;
      rewrite Hi; simpl;
      destruct (verbose s); simpl;
      [ exists [no_lower_priority_message task]; split; [ reflexivity | ];
        split; [ simpl; lia | ]; intros x [ <- | [] ]; right; right; left; reflexivity
      | exists []; rewrite app_nil_r; split; [ reflexivity | ];
        split; [ simpl; lia | ]; intros x [] ].
Qed.

Lemma add_priority_skip_is_noop_witness :
  exists diag,
    run (add task_a) (full_manager "priority" true) [] =
      (Ok tt, {| self := full_manager "priority" true; stdout := [] ++ diag |}) /\
    (List.length diag <= 1)%nat /\
    incl diag [smallest_priority_message; already_in_message;
               no_lower_priority_message task_a].
Proof.
  apply (add_priority_skip_is_noop (full_manager "priority" true) [] task_a).
  - reflexivity.
  - reflexivity.
  - vm_compute. discriminate.
  - right. intros e [ <- | [ <- | [] ] ]; reflexivity.
Defined.

(* ----------------------------------------------------------------- *)
(** *** The candidate kept by the loop *)

Lemma nth_error_app_left (l l' : list Task) (i : nat) (x : Task) :
  nth_error l i = Some x -> nth_error (l ++ l') i = Some x.
Proof.
  intros H. rewrite nth_error_app1; trivial.
  apply nth_error_Some. congruence.
Qed.

Lemma nth_error_app_here (l l' : list Task) (x : Task) :
  nth_error (l ++ x :: l') (List.length l) = Some x.
Proof.
  rewrite nth_error_app2; [ | lia ]. rewrite Nat.sub_diag. reflexivity.
Qed.

Lemma loop_body_keeps_invariant
    (new_task task : Task) (done : list Task) (st st' : locals) :
  loop_invariant new_task done st ->
  loop_body new_task task st = Ok (st', false) ->
  loop_invariant new_task (done ++ [task]) st'.
Proof.
  intros [Hcur Hcand] Hbody. unfold loop_body, register in Hbody.
  assert (Hlen : Z.of_nat (List.length (done ++ [task])) = current_index st + 1).
  { rewrite length_app. simpl. lia. }
  destruct (Priority_gt (get_priority new_task) (get_priority task)) eqn:Egt.
  - destruct Hcand as [Hnone | [cand [Hpos [Hnth [Hprev [Hnl Hbelow]]]]]].
    + rewrite Hnone in Hbody. simpl in Hbody. rewrite value_min_Priority in Hbody.
      destruct (get_priority task) eqn:Et; inversion Hbody; subst st'; clear Hbody.
      * split; [ simpl; lia | ]. right. exists task. simpl.
        rewrite Hcur, Nat2Z.id, Et.
        repeat split; try lia; try discriminate.
        -- apply nth_error_app_here.
        -- exact Egt.
      * split; [ simpl; lia | ]. right. exists task. simpl.
        rewrite Hcur, Nat2Z.id, Et.
        repeat split; try lia; try discriminate.
        -- apply nth_error_app_here.
        -- exact Egt.
    + assert (Hidx : (index_to_remove st =? -1) = false) by (apply Z.eqb_neq; lia).
      rewrite Hidx, Hprev in Hbody. simpl in Hbody.
      rewrite value_min_Priority in Hbody.
      unfold Priority_gt in *.
      destruct (get_priority new_task) eqn:En, (get_priority cand) eqn:Ec,
               (get_priority task) eqn:Et;
        simpl in *; try discriminate; try congruence;
        inversion Hbody; subst st'; clear Hbody;
        (split; [ simpl; lia | ]); right; exists cand; simpl; rewrite ?En, ?Ec;
        repeat split; trivial; try lia; try discriminate;
        apply nth_error_app_left; exact Hnth.
  - inversion Hbody; subst st'; clear Hbody. split; [ simpl; lia | ].
    destruct Hcand as [Hnone | [cand [Hpos [Hnth [Hprev [Hnl Hbelow]]]]]].
    + left. exact Hnone.
    + right. exists cand. simpl. repeat split; trivial.
      apply nth_error_app_left. exact Hnth.
Qed.

Lemma locals_after_invariant
    (new_task : Task) (pre done : list Task) (st0 st : locals) :
  loop_invariant new_task done st0 ->
  locals_after new_task pre st0 = Some st ->
  loop_invariant new_task (done ++ pre) st.
Proof.
  revert done st0. induction pre as [ | task rest IH ]; intros done st0 Hinv H.
  - simpl in H. inversion H; subst. rewrite app_nil_r. exact Hinv.
  - simpl in H. destruct (loop_body new_task task st0) as [[st1 b] | e] eqn:Eb;
      [ | discriminate ].
    destruct b; [ discriminate | ].
    replace (done ++ task :: rest) with ((done ++ [task]) ++ rest)
      by (rewrite <- app_assoc; reflexivity).
    apply (IH _ st1); trivial.
    apply (loop_body_keeps_invariant new_task task done st0 st1); trivial.
Qed.

Lemma loop_invariant_init (new_task : Task) :
  loop_invariant new_task [] locals_init.
Proof. split; [ reflexivity | left; reflexivity ]. Qed.

(** A registered candidate gives way only to a task of strictly lower
    priority. *)
Lemma candidate_replaced_only_by_lower
    (new_task : Task) (pre post : list Task) (task : Task) (st st' : locals) (b : bool) :
  locals_after new_task pre locals_init = Some st ->
  loop_body new_task task st = Ok (st', b) ->
  index_to_remove st <> -1 ->
  exists cand,
    nth_error (pre ++ task :: post) (Z.to_nat (index_to_remove st)) = Some cand /\
    (index_to_remove st' <> index_to_remove st ->
     Priority_lt (get_priority task) (get_priority cand) = true) /\
    (Priority_lt (get_priority task) (get_priority cand) = false ->
     index_to_remove st' = index_to_remove st).
Proof.
  intros Hafter Hbody Hset.
  pose proof (locals_after_invariant new_task pre [] locals_init st
                (loop_invariant_init new_task) Hafter) as [Hcur Hcand].
  simpl in Hcand. destruct Hcand as [Hnone | [cand [Hpos [Hnth [Hprev [Hnl Hbelow]]]]]];
    [ contradiction | ].
  exists cand. split; [ apply nth_error_app_left; exact Hnth | ].
  assert (Hidx : (index_to_remove st =? -1) = false) by (apply Z.eqb_neq; lia).
  unfold loop_body, register in Hbody. rewrite Hidx, Hprev in Hbody. simpl in Hbody.
  rewrite value_min_Priority in Hbody. unfold Priority_gt in *.
  destruct (get_priority new_task) eqn:En, (get_priority cand) eqn:Ec,
           (get_priority task) eqn:Et;
    simpl in *; try discriminate; try congruence;
    inversion Hbody; subst st'; clear Hbody; simpl;
    split; intros; trivial; try discriminate; try congruence.
Qed.

(* ----------------------------------------------------------------- *)
(** *** The priority run mode at capacity: eviction *)

Lemma length_remove_at (i : nat) (l : list Task) :
  (i < List.length l)%nat ->
  S (List.length (remove_at i l)) = List.length l.
Proof.
  intros H. unfold remove_at. rewrite length_app, length_firstn, length_skipn. lia.
Qed.

Lemma delitem_in_range (q : queue) (i : nat) :
  (i < List.length (items q))%nat ->
  delitem q (Z.of_nat i) = Ok (with_items q (remove_at i (items q))).
Proof.
  intros H. unfold delitem, len.
  assert (E1 : (Z.of_nat i <? 0) = false) by (apply Z.ltb_ge; lia).
  rewrite E1.
  assert (E2 : (0 <=? Z.of_nat i) = true) by (apply Z.leb_le; lia).
  assert (E3 : (Z.of_nat i <? Z.of_nat (List.length (items q))) = true)
    by (apply Z.ltb_lt; lia).
  rewrite E2, E3, Nat2Z.id. destruct q; reflexivity.
Qed.

Lemma append_after_remove (q : queue) (i : nat) (x : Task) :
  queue_wf q ->
  (i < List.length (items q))%nat ->
  append (with_items q (remove_at i (items q))) x =
    with_items q (remove_at i (items q) ++ [x]).
Proof.
  intros Hwf H. destruct q as [l n | l]; simpl in *; [ | reflexivity ].
  pose proof (length_remove_at i l H) as Hlen.
  assert (E : (n <? Z.of_nat (List.length (remove_at i l ++ [x]))) = false).
  { apply Z.ltb_ge. rewrite length_app. simpl. lia. }
  rewrite E. reflexivity.
Qed.

Lemma check_passes (s : TaskManager) (out : list string) (task : Task) :
  duplicates_allowed s = true \/ pid_in (get_pid task) (items (tasks_queue s)) = false ->
  _check_if_task_not_exists task {| self := s; stdout := out |} =
    (Ok true, {| self := s; stdout := out |}).
Proof.
  intros H. unfold _check_if_task_not_exists. unfold_M. simpl.
  destruct (duplicates_allowed s) eqn:Ed; [ reflexivity | ].
  destruct H as [H | H]; [ discriminate | ]. rewrite H. reflexivity.
Qed.

(** C1. In the "priority" run mode, when the container is full and holds
    at least one task whose priority is strictly lower than that of the
    incoming active task, which passes the duplicate check, [add] removes
    exactly one task and appends the incoming one at the tail. The task
    removed, at position [i], has a priority strictly below the incoming
    one, the lowest such priority in the queue, and is the oldest task of
    that priority. In the search, a candidate once registered gives way
    only to a task of strictly lower priority, never to one of equal
    priority. *)
Theorem add_priority_evicts_oldest_of_lowest
    (s : TaskManager) (out : list string) (task : Task) :
  is_active task = true ->
  run_mode s = "priority" ->
  queue_wf (tasks_queue s) ->
  max_queue_size s <= filled_size s ->
  duplicates_allowed s = true \/ pid_in (get_pid task) (items (tasks_queue s)) = false ->
  (exists e, In e (items (tasks_queue s)) /\
             Priority_lt (get_priority e) (get_priority task) = true) ->
  (exists i v,
     nth_error (items (tasks_queue s)) i = Some v /\
     Priority_lt (get_priority v) (get_priority task) = true /\
     (forall e, In e (items (tasks_queue s)) ->
                Priority_lt (get_priority e) (get_priority task) = true ->
                value (get_priority v) <= value (get_priority e)) /\
     (forall j e, (j < i)%nat -> nth_error (items (tasks_queue s)) j = Some e ->
                  get_priority e <> get_priority v) /\
     run (add task) s out =
       (Ok tt,
        {| self := with_tasks_queue s
                     (with_items (tasks_queue s)
                        (remove_at i (items (tasks_queue s)) ++ [task]));
           stdout := out |}) /\
     List.length (remove_at i (items (tasks_queue s)) ++ [task]) =
       List.length (items (tasks_queue s))) /\
  (forall pre cur post st st' b,
     items (tasks_queue s) = pre ++ cur :: post ->
     locals_after task pre locals_init = Some st ->
     loop_body task cur st = Ok (st', b) ->
     index_to_remove st <> -1 ->
     exists cand,
       nth_error (items (tasks_queue s)) (Z.to_nat (index_to_remove st)) = Some cand /\
       (index_to_remove st' <> index_to_remove st ->
        Priority_lt (get_priority cur) (get_priority cand) = true) /\
       (get_priority cur = get_priority cand ->
        index_to_remove st' = index_to_remove st)).
Proof.
  intros Hact Hmode Hwf Hfull Hnodup [e [Hin Hlt]]. split.
  - destruct (victim (get_priority task) (items (tasks_queue s))) as [ i | ] eqn:Ev.
    2: { rewrite (victim_None _ _ Ev e Hin) in Hlt. discriminate. }
    destruct (victim_Some _ _ _ Ev) as [v [Hv [Hvlt [Hlowest Holdest]]]].
    assert (Hi : (i < List.length (items (tasks_queue s)))%nat).
    { apply nth_error_Some. congruence. }
    exists i, v. repeat split; trivial.
    + unfold add. rewrite Hact. unfold_M. simpl.
      rewrite (at_capacity_geb s Hfull), Hmode. simpl.
      unfold _add_priority_based.
      assert (Hnotlow : (value (get_priority task) =? value min_Priority) = false).
      { rewrite value_min_Priority. unfold Priority_lt in Hlt.
        destruct (get_priority task); trivial.
        destruct (get_priority e); simpl in Hlt; discriminate. }
      rewrite Hnotlow. unfold_M. rewrite (check_passes s out task Hnodup). simpl.
      destruct (search_from_start task (items (tasks_queue s))) as [st' [Hs Hidx]].
      rewrite Hs. rewrite Ev in Hidx. simpl in Hidx. rewrite Hidx.
      assert (Hfound : (Z.of_nat i =? -1) = false) by (apply Z.eqb_neq; lia).
      rewrite Hfound. cbn [self stdout]. rewrite (delitem_in_range _ i Hi).
      cbn [self stdout]. unfold with_tasks_queue. cbn [tasks_queue max_queue_size
        run_mode verbose duplicates_allowed].
      rewrite (append_after_remove _ i task Hwf Hi). reflexivity.
    + rewrite length_app. simpl. pose proof (length_remove_at i _ Hi). lia.
  - intros pre cur post st st' b Hitems Hafter Hbody Hset.
    destruct (candidate_replaced_only_by_lower task pre post cur st st' b
                Hafter Hbody Hset) as [cand [Hnth [Hchange Hkeep]]].
    exists cand. rewrite Hitems. split; [ exact Hnth | ]. split; [ exact Hchange | ].
    intros Heq. apply Hkeep. rewrite Heq. unfold Priority_lt. apply Z.ltb_irrefl.
Qed.

(** The test of the repository: the third task, the oldest [low] one, goes
    and the ninth task is the last of eight. *)
Example test_adding_high_priority_task :
  add task_9 {| self := priority_manager; stdout := [] |} =
    (Ok tt,
     {| self := with_tasks_queue priority_manager
                  (deque (remove_at 2 eight_tasks ++ [task_9]) 8);
        stdout := [] |}).
Proof. reflexivity. Qed.

Lemma add_priority_evicts_oldest_of_lowest_witness :
  (exists i v,
     nth_error (items (tasks_queue priority_manager)) i = Some v /\
     Priority_lt (get_priority v) (get_priority task_9) = true /\
     (forall e, In e (items (tasks_queue priority_manager)) ->
                Priority_lt (get_priority e) (get_priority task_9) = true ->
                value (get_priority v) <= value (get_priority e)) /\
     (forall j e, (j < i)%nat ->
                  nth_error (items (tasks_queue priority_manager)) j = Some e ->
                  get_priority e <> get_priority v) /\
     run (add task_9) priority_manager [] =
       (Ok tt,
        {| self := with_tasks_queue priority_manager
                     (with_items (tasks_queue priority_manager)
                        (remove_at i (items (tasks_queue priority_manager)) ++ [task_9]));
           stdout := [] |}) /\
     List.length (remove_at i (items (tasks_queue priority_manager)) ++ [task_9]) =
       List.length (items (tasks_queue priority_manager))) /\
  (forall pre cur post st st' b,
     items (tasks_queue priority_manager) = pre ++ cur :: post ->
     locals_after task_9 pre locals_init = Some st ->
     loop_body task_9 cur st = Ok (st', b) ->
     index_to_remove st <> -1 ->
     exists cand,
       nth_error (items (tasks_queue priority_manager))
                 (Z.to_nat (index_to_remove st)) = Some cand /\
       (index_to_remove st' <> index_to_remove st ->
        Priority_lt (get_priority cur) (get_priority cand) = true) /\
       (get_priority cur = get_priority cand ->
        index_to_remove st' = index_to_remove st)).
Proof.
  apply (add_priority_evicts_oldest_of_lowest priority_manager [] task_9).
  - reflexivity.
  - reflexivity.
  - simpl. lia.
  - vm_compute. discriminate.
  - right. reflexivity.
  - exists (mkTask "t1" medium true). split; [ left; reflexivity | reflexivity ].
Defined.

(* ================================================================= *)
(** ** Construction *)

Lemma py_eq_zero_spec (cap : PyVal) :
  py_eq_zero cap = true <-> zero_capacity cap.
Proof.
  unfold zero_capacity. split.
  - destruct cap as [ z | b | f | s | ]; simpl; try discriminate.
    + intros H. apply Z.eqb_eq in H. left. congruence.
    + destruct b; [ discriminate | ]. intros _. right. left. reflexivity.
    + destruct f; try discriminate. intros _. right. right. eexists. reflexivity.
  - intros [ -> | [ -> | [sign ->] ] ]; reflexivity.
Qed.

Lemma str_in_spec (mode : string) :
  str_in mode ["default"; "fifo"; "priority"] = true <-> known_run_mode mode.
Proof.
  unfold str_in, known_run_mode. simpl. rewrite orb_false_r, !orb_true_iff.
  rewrite !String.eqb_eq. tauto.
Qed.

(** A capacity of zero is reported even when the run mode is unknown, and
    a float zero is reported as an empty container, not as a wrong type. *)
Lemma init_zero_capacity_comes_first :
  ~ known_run_mode "bogus" /\
  __init__ (PyInt 0) "bogus" true false =
    Raise (EmptyTaskManagerError "Empty task manager container is not permitted.") /\
  (forall msg, __init__ (PyInt 0) "bogus" true false <> Raise (Exception msg)) /\
  __init__ (PyFloat (S754_zero false)) "default" true false =
    Raise (EmptyTaskManagerError "Empty task manager container is not permitted.") /\
  (forall msg,
     __init__ (PyFloat (S754_zero false)) "default" true false <> Raise (TypeError msg)).
Proof.
  split.
  { intros [H | [H | H]]; discriminate. }
  split; [ reflexivity | ]. split; [ intros msg; discriminate | ].
  split; [ reflexivity | intros msg; discriminate ].
Qed.

(** A negative [int] capacity passes the three tests of the constructor
    and is refused by [deque] itself. *)
Lemma init_negative_capacity (n : Z) (mode : string) (verbose duplicates_allowed : bool) :
  - sys_maxsize - 1 <= n < 0 ->
  known_run_mode mode ->
  __init__ (PyInt n) mode verbose duplicates_allowed =
    Raise (ValueError "maxlen must be non-negative").
Proof.
  intros Hn Hmode. unfold __init__, py_eq_zero.
  assert (E0 : (n =? 0) = false) by (apply Z.eqb_neq; lia).
  apply str_in_spec in Hmode. rewrite E0, Hmode. cbn [negb]. unfold new_deque.
  assert (E1 : (sys_maxsize <? n) = false).
  { apply Z.ltb_ge. unfold sys_maxsize in *. lia. }
  assert (E2 : (n <? - sys_maxsize - 1) = false) by (apply Z.ltb_ge; lia).
  assert (E3 : (n <? 0) = true) by (apply Z.ltb_lt; lia).
  rewrite E1, E2, E3. reflexivity.
Qed.

(** An [int] capacity that is not a C [ssize_t] is refused by [deque] too,
    with another exception. *)
Lemma init_overflow_capacity (n : Z) (mode : string) (verbose duplicates_allowed : bool) :
  n < - sys_maxsize - 1 \/ sys_maxsize < n ->
  known_run_mode mode ->
  __init__ (PyInt n) mode verbose duplicates_allowed =
    Raise (OverflowError "Python int too large to convert to C ssize_t").
Proof.
  intros Hn Hmode. unfold __init__, py_eq_zero.
  assert (E0 : (n =? 0) = false).
  { apply Z.eqb_neq. unfold sys_maxsize in *. lia. }
  apply str_in_spec in Hmode. rewrite E0, Hmode. cbn [negb]. unfold new_deque.
  assert (E : (sys_maxsize <? n) || (n <? - sys_maxsize - 1) = true).
  { apply orb_true_iff. destruct Hn as [H | H];
      [ right | left ]; apply Z.ltb_lt; exact H. }
  rewrite E. reflexivity.
Qed.

(** With a known run mode and the capacity [-1], an [int] that is not
    positive, the constructor does not raise [EmptyTaskManagerError]: its
    test is [== 0], and the exception is the [ValueError] of [deque]. *)
Lemma init_negative_capacity_is_not_EmptyTaskManagerError :
  known_run_mode "fifo" /\
  -1 <= 0 /\
  __init__ (PyInt (-1)) "fifo" true false =
    Raise (ValueError "maxlen must be non-negative") /\
  (forall msg,
     __init__ (PyInt (-1)) "fifo" true false <> Raise (EmptyTaskManagerError msg)).
Proof.
  split; [ right; left; reflexivity | ]. split; [ lia | ].
  split; [ reflexivity | intros msg; discriminate ].
Qed.

(** C7, amended. The constructor tests in this order: a capacity equal to
    zero raises [EmptyTaskManagerError] (whatever the run mode and the
    type); otherwise a run mode outside "default", "fifo", "priority"
    raises [Exception] (whatever the type of the capacity); otherwise a
    capacity that is not an [int] raises [TypeError]. With a known run
    mode, a negative [int] capacity fails as well, but with the
    [ValueError] of [deque] (or its [OverflowError] beyond [sys.maxsize],
    in either direction), not with [EmptyTaskManagerError]; and for an
    [int] capacity from 1 to [sys.maxsize] the result is a manager with
    that configuration and an empty queue. *)
Theorem init_checks_in_order
    (cap : PyVal) (mode : string) (verbose duplicates_allowed : bool) :
  (zero_capacity cap ->
   __init__ cap mode verbose duplicates_allowed =
     Raise (EmptyTaskManagerError "Empty task manager container is not permitted.")) /\
  (~ zero_capacity cap -> ~ known_run_mode mode ->
   __init__ cap mode verbose duplicates_allowed =
     Raise (Exception "'method' can only be in ('default', 'fifo', 'priority')")) /\
  (~ zero_capacity cap -> known_run_mode mode -> (forall n, cap <> PyInt n) ->
   __init__ cap mode verbose duplicates_allowed =
     Raise (TypeError "Only integers are allowed")) /\
  (forall n, cap = PyInt n -> - sys_maxsize - 1 <= n < 0 -> known_run_mode mode ->
   __init__ cap mode verbose duplicates_allowed =
     Raise (ValueError "maxlen must be non-negative")) /\
  (forall n, cap = PyInt n -> n < - sys_maxsize - 1 \/ sys_maxsize < n ->
   known_run_mode mode ->
   __init__ cap mode verbose duplicates_allowed =
     Raise (OverflowError "Python int too large to convert to C ssize_t")) /\
  (forall n, cap = PyInt n -> 1 <= n <= sys_maxsize -> known_run_mode mode ->
   __init__ cap mode verbose duplicates_allowed =
     Ok (mkTaskManager n (deque [] n) mode verbose duplicates_allowed)).
Proof.
  split; [ | split; [ | split; [ | split; [ | split ] ] ] ].
  - intros Hz. apply py_eq_zero_spec in Hz. unfold __init__. rewrite Hz. reflexivity.
  - intros Hnz Hunk. unfold __init__.
    destruct (py_eq_zero cap) eqn:Ez; [ apply py_eq_zero_spec in Ez; contradiction | ].
    destruct (str_in mode ["default"; "fifo"; "priority"]) eqn:Em;
      [ apply str_in_spec in Em; contradiction | reflexivity ].
  - intros Hnz Hmode Hnotint. unfold __init__.
    destruct (py_eq_zero cap) eqn:Ez; [ apply py_eq_zero_spec in Ez; contradiction | ].
    apply str_in_spec in Hmode. rewrite Hmode. cbn [negb].
    destruct cap; try reflexivity. exfalso. exact (Hnotint z eq_refl).
  - intros n -> Hn Hmode. apply init_negative_capacity; assumption.
  - intros n -> Hn Hmode. apply init_overflow_capacity; assumption.
  - intros n -> Hn Hmode. unfold __init__, py_eq_zero.
    assert (E0 : (n =? 0) = false) by (apply Z.eqb_neq; lia).
    apply str_in_spec in Hmode. rewrite E0, Hmode. cbn [negb]. unfold new_deque.
    assert (E1 : (sys_maxsize <? n) = false) by (apply Z.ltb_ge; lia).
    assert (E2 : (n <? - sys_maxsize - 1) = false).
    { apply Z.ltb_ge. unfold sys_maxsize in *. lia. }
    assert (E3 : (n <? 0) = false) by (apply Z.ltb_ge; lia).
    rewrite E1, E2, E3. reflexivity.
Qed.

Lemma init_checks_in_order_witness :
  __init__ (PyInt 5) "fifo" true false =
    Ok (mkTaskManager 5 (deque [] 5) "fifo" true false) /\
  __init__ (PyInt (-1)) "fifo" true false =
    Raise (ValueError "maxlen must be non-negative").
Proof.
  split.
  - apply (proj2 (proj2 (proj2 (proj2 (proj2
             (init_checks_in_order (PyInt 5) "fifo" true false))))) 5).
    + reflexivity.
    + unfold sys_maxsize. lia.
    + right. left. reflexivity.
  - apply (proj1 (proj2 (proj2 (proj2
             (init_checks_in_order (PyInt (-1)) "fifo" true false)))) (-1)).
    + reflexivity.
    + unfold sys_maxsize. lia.
    + right. left. reflexivity.
Defined.

(* ================================================================= *)
(** ** The capacity invariant *)

Lemma grows_by_refl (k : Z) (w : World) : 0 <= k -> grows_by k w w.
Proof. intros H. split; [ reflexivity | lia ]. Qed.

Lemma grows_by_same_self (k : Z) (w : World) (out : list string) :
  0 <= k -> grows_by k w {| self := self w; stdout := out |}.
Proof. intros H. split; simpl; [ reflexivity | lia ]. Qed.

Lemma len_append (q : queue) (x : Task) : len (append q x) <= len q + 1.
Proof.
  unfold len. destruct q as [l n | l]; simpl.
  - destruct (n <? Z.of_nat (List.length (l ++ [x]))); simpl.
    + destruct l; simpl; [ lia | ]. rewrite length_app. simpl. lia.
    + rewrite length_app. simpl. lia.
  - rewrite length_app. simpl. lia.
Qed.

Lemma len_popleft (q q' : queue) (x : Task) :
  popleft q = Ok (x, q') -> len q' + 1 = len q.
Proof.
  unfold len. destruct q as [[ | y l] n | l]; simpl; intros H; inversion H; subst.
  simpl. lia.
Qed.

Lemma len_delitem (q q' : queue) (i : Z) :
  delitem q i = Ok q' -> len q' + 1 = len q.
Proof.
  unfold delitem.
  set (j := if i <? 0 then i + len q else i).
  destruct ((0 <=? j) && (j <? len q)) eqn:E.
  - apply andb_true_iff in E. destruct E as [E1 E2].
    apply Z.leb_le in E1. apply Z.ltb_lt in E2. unfold len in *.
    assert (Hj : (Z.to_nat j < List.length (items q))%nat) by lia.
    pose proof (length_remove_at (Z.to_nat j) (items q) Hj) as Hlen.
    destruct q; intros H; inversion H; subst; simpl in *; lia.
  - destruct q; discriminate.
Qed.

Lemma add_new_grows_by_1 (task : Task) (w : World) :
  grows_by 1 w (snd (_add task w)).
Proof.
  unfold _add, _check_if_task_not_exists. unfold_M. simpl.
  destruct (duplicates_allowed (self w)); simpl.
  - split; simpl_self; [ reflexivity | apply len_append ].
  - destruct (pid_in (get_pid task) (items (tasks_queue (self w)))); simpl.
    + apply grows_by_refl. lia.
    + split; simpl_self; [ reflexivity | apply len_append ].
Qed.

Lemma pop_then_append (task : Task) (w : World) :
  grows_by 0 w (snd ((queue_popleft ;;; queue_append task) w)).
Proof.
  unfold_M. simpl.
  destruct (popleft (tasks_queue (self w))) as [[x q'] | e] eqn:E; simpl.
  - split; simpl_self; [ reflexivity | ].
    pose proof (len_popleft _ _ _ E). pose proof (len_append q' task). lia.
  - apply grows_by_refl. lia.
Qed.

Lemma add_fifo_grows_by_0 (task : Task) (w : World) :
  grows_by 0 w (snd (_add_fifo task w)).
Proof.
  unfold _add_fifo, _check_if_task_not_exists.
  unfold bind at 1. unfold bind at 1. unfold get_self at 1. cbn [fst snd].
  destruct (duplicates_allowed (self w)).
  - unfold ret at 1. apply pop_then_append.
  - destruct (pid_in (get_pid task) (items (tasks_queue (self w)))).
    + unfold raise. simpl. apply grows_by_refl. lia.
    + unfold ret at 1. apply pop_then_append.
Qed.

Lemma delete_then_append (task : Task) (i : Z) (w : World) :
  grows_by 0 w (snd ((queue_delitem i ;;; queue_append task) w)).
Proof.
  unfold_M. simpl.
  destruct (delitem (tasks_queue (self w)) i) as [q' | e] eqn:E; simpl.
  - split; simpl_self; [ reflexivity | ].
    pose proof (len_delitem _ _ _ E). pose proof (len_append q' task). lia.
  - apply grows_by_refl. lia.
Qed.

Lemma search_returns (new_task : Task) (q : list Task) :
  exists st, search new_task q locals_init = Ok st.
Proof.
  destruct (search_from_start new_task q) as [st [H _]]. exists st. exact H.
Qed.

Lemma add_priority_based_grows_by_0 (task : Task) (w : World) :
  grows_by 0 w (snd (_add_priority_based task w)).
Proof.
  unfold _add_priority_based.
  destruct (value (get_priority task) =? value min_Priority).
  { unfold mlogger, print. simpl. apply grows_by_same_self. lia. }
  unfold bind at 1. unfold try_except, _check_if_task_not_exists.
  unfold bind at 1. unfold bind at 1. unfold get_self at 1.
  destruct (duplicates_allowed (self w)) eqn:Ed;
    [ | destruct (pid_in (get_pid task) (items (tasks_queue (self w)))) eqn:Ep ].
  2: { unfold raise, mlogger, print, bind, ret. simpl. apply grows_by_same_self. lia. }
  all: unfold ret at 1; unfold ret at 1; cbv beta iota;
    unfold bind at 1; unfold get_self at 1; cbv beta iota;
    unfold bind at 1; unfold lift at 1;
    destruct (search_returns task (items (tasks_queue (self w)))) as [st Hs];
    rewrite Hs; cbv beta iota;
    destruct (index_to_remove st =? -1);
    [ destruct (verbose (self w));
      [ unfold mlogger, print; simpl; apply grows_by_same_self; lia
      | unfold ret; simpl; apply grows_by_refl; lia ]
    | apply delete_then_append ].
Qed.

Lemma invariant_grows_by_0 (w w' : World) :
  invariant (self w) -> grows_by 0 w w' -> invariant (self w').
Proof. unfold invariant. intros [H1 H2] [G1 G2]. rewrite G1. lia. Qed.

Lemma invariant_grows_by_1 (w w' : World) :
  invariant (self w) ->
  filled_size (self w) < max_queue_size (self w) ->
  grows_by 1 w w' ->
  invariant (self w').
Proof. unfold invariant. intros [H1 H2] Hlt [G1 G2]. rewrite G1. lia. Qed.

Lemma add_keeps_invariant (task : Task) (w : World) :
  invariant (self w) -> invariant (self (snd (add task w))).
Proof.
  intros Hinv. unfold add. destruct (is_active task); simpl; [ | exact Hinv ].
  unfold bind at 1. unfold get_self at 1.
  destruct (filled_size (self w) >=? max_queue_size (self w)) eqn:Efull.
  - destruct (run_mode (self w) =? "default")%string; [ exact Hinv | ].
    destruct (run_mode (self w) =? "fifo")%string.
    { apply (invariant_grows_by_0 w); [ exact Hinv | apply add_fifo_grows_by_0 ]. }
    destruct (run_mode (self w) =? "priority")%string.
    { apply (invariant_grows_by_0 w);
        [ exact Hinv | apply add_priority_based_grows_by_0 ]. }
    exact Hinv.
  - apply (invariant_grows_by_1 w); [ exact Hinv | | apply add_new_grows_by_1 ].
    destruct (Z.ltb_spec (filled_size (self w)) (max_queue_size (self w))) as [ H | H ];
      [ exact H | ].
    apply Z.geb_le in H. congruence.
Qed.

Lemma filter_length_le (f : Task -> bool) (l : list Task) :
  (List.length (filter f l) <= List.length l)%nat.
Proof.
  induction l as [ | x l IH ]; simpl; [ lia | ]. destruct (f x); simpl; lia.
Qed.

Lemma kill_all_tasks_keeps_invariant (w : World) :
  invariant (self w) -> invariant (self (snd (kill_all_tasks w))).
Proof.
  unfold invariant. intros [H1 H2]. unfold kill_all_tasks, _clear_tasks_queue.
  unfold_M. destruct (verbose (self w)); simpl; simpl_self; unfold len;
    destruct (tasks_queue (self w)); simpl; lia.
Qed.

Lemma kill_task_keeps_invariant (pid : string) (w : World) :
  invariant (self w) -> invariant (self (snd (kill_task pid w))).
Proof.
  unfold invariant. intros [H1 H2]. unfold kill_task. unfold_M. simpl. simpl_self.
  unfold filled_size, len in *. simpl.
  pose proof (filter_length_le (fun elem => negb (get_pid elem =? pid)%string)
                (items (tasks_queue (self w)))).
  lia.
Qed.

Lemma drop_pid_prefix_length (match_ : option string) (l l' : list Task) :
  drop_pid_prefix match_ l = Ok l' -> (List.length l' <= List.length l)%nat.
Proof.
  unfold drop_pid_prefix. destruct match_ as [ m | ], l as [ | x l ]; intros H;
    try discriminate; injection H as <-; try (simpl; lia).
  exact (filter_length_le (fun elem => negb (String.prefix m (get_pid elem))) (x :: l)).
Qed.

Lemma kill_by_group_keeps_invariant (group match_ : option string) (w : World) :
  invariant (self w) -> invariant (self (snd (kill_by_group group match_ w))).
Proof.
  unfold invariant. intros [H1 H2]. unfold kill_by_group. unfold_M.
  destruct (opt_str_in group ["priority"; "pid"]); simpl; [ | tauto ].
  destruct (opt_str_eqb group "priority"); simpl.
  - simpl_self. unfold filled_size, len in *. simpl.
    pose proof (filter_length_le
                  (fun elem => negb (opt_str_eqb match_ (name (get_priority elem))))
                  (items (tasks_queue (self w)))).
    lia.
  - destruct (drop_pid_prefix match_ (items (tasks_queue (self w)))) as [l' | e] eqn:E;
      simpl; [ | tauto ].
    simpl_self. unfold filled_size, len in *. simpl.
    pose proof (drop_pid_prefix_length _ _ _ E). lia.
Qed.

Lemma list_running_tasks_keeps_self (by_ : string) (reverse : bool) (w : World) :
  self (snd (list_running_tasks by_ reverse w)) = self w.
Proof.
  unfold list_running_tasks. unfold_M.
  destruct (str_in by_ ["ctime"; "pid"; "priority"]); simpl; [ | reflexivity ].
  destruct (verbose (self w)); simpl;
    destruct (filled_size (self w) =? 0); simpl; try reflexivity;
    destruct (by_ =? "ctime")%string; reflexivity.
Qed.

(** The capacity setter accepts zero, and the run-mode setter any string. *)
Lemma setters_do_not_validate :
  invariant (mkTaskManager 5 (deque [] 5) "default" true false) /\
  __init__ (PyInt 5) "default" true false =
    Ok (mkTaskManager 5 (deque [] 5) "default" true false) /\
  run (set_max_queue_size 0) (mkTaskManager 5 (deque [] 5) "default" true false) [] =
    (Ok tt, {| self := mkTaskManager 0 (deque [] 5) "default" true false;
               stdout := [] |}) /\
  ~ invariant (mkTaskManager 0 (deque [] 5) "default" true false) /\
  run (set_run_method "bogus") (mkTaskManager 5 (deque [] 5) "default" true false) [] =
    (Ok tt, {| self := mkTaskManager 5 (deque [] 5) "bogus" true false;
               stdout := [] |}) /\
  ~ known_run_mode "bogus".
Proof.
  split; [ unfold invariant; simpl; unfold filled_size, len; simpl; lia | ].
  split; [ reflexivity | ]. split; [ reflexivity | ].
  split; [ unfold invariant; simpl; lia | ].
  split; [ reflexivity | ].
  intros [H | [H | H]]; discriminate.
Qed.

(** C8, amended. The invariant [capacity >= 1] and [len(queue) <= capacity]
    holds of every manager the constructor returns, whose queue is empty,
    and is preserved by every public method other than the capacity setter,
    whether the call returns or raises. The setters are bare assignments:
    [set_max_queue_size v] stores [v] unchecked, so the invariant holds
    afterwards exactly when [v >= 1] and [v >= len(queue)];
    [set_run_method] stores any string, without comparing it with the three
    run modes, and changes neither the capacity nor the queue. *)
Theorem invariant_kept_except_by_capacity_setter :
  (forall cap mode verbose duplicates_allowed s,
     __init__ cap mode verbose duplicates_allowed = Ok s ->
     invariant s /\ items (tasks_queue s) = []) /\
  (forall c w,
     (forall v, c <> call_set_max_queue_size v) ->
     invariant (self w) ->
     invariant (self (perform c w))) /\
  (forall v w,
     max_queue_size (self (perform (call_set_max_queue_size v) w)) = v /\
     tasks_queue (self (perform (call_set_max_queue_size v) w)) = tasks_queue (self w) /\
     (invariant (self (perform (call_set_max_queue_size v) w)) <->
      1 <= v /\ filled_size (self w) <= v)) /\
  (forall m w,
     run_mode (self (perform (call_set_run_method m) w)) = m /\
     max_queue_size (self (perform (call_set_run_method m) w)) = max_queue_size (self w) /\
     tasks_queue (self (perform (call_set_run_method m) w)) = tasks_queue (self w)).
Proof.
  split; [ | split; [ | split ] ].
  - intros cap mode v d s. unfold __init__.
    destruct (py_eq_zero cap) eqn:Ez; [ discriminate | ].
    destruct (negb (str_in mode ["default"; "fifo"; "priority"])); [ discriminate | ].
    destruct cap as [ n | | | | ]; try discriminate. unfold new_deque.
    destruct ((sys_maxsize <? n) || (n <? - sys_maxsize - 1)); [ discriminate | ].
    destruct (n <? 0) eqn:En; [ discriminate | ].
    intros H. inversion H; subst. simpl in Ez.
    apply Z.eqb_neq in Ez. apply Z.ltb_ge in En.
    split; [ | reflexivity ]. unfold invariant, filled_size, len. simpl. lia.
  - intros c w Hc Hinv. destruct c; simpl.
    + apply add_keeps_invariant. exact Hinv.
    + apply kill_all_tasks_keeps_invariant. exact Hinv.
    + apply kill_task_keeps_invariant. exact Hinv.
    + apply kill_by_group_keeps_invariant. exact Hinv.
    + rewrite list_running_tasks_keeps_self. exact Hinv.
    + exact Hinv.
    + exact Hinv.
    + exact Hinv.
    + exfalso. exact (Hc v eq_refl).
  - intros v w. simpl. split; [ reflexivity | ]. split; [ reflexivity | ].
    unfold invariant, filled_size. simpl. tauto.
  - intros m w. simpl. repeat split.
Qed.

Lemma invariant_kept_except_by_capacity_setter_witness :
  invariant (self (perform (call_add task_c)
                     {| self := full_manager "fifo" false; stdout := [] |})).
Proof.
  apply (proj1 (proj2 invariant_kept_except_by_capacity_setter)).
  - intros v. discriminate.
  - unfold invariant, filled_size, len. simpl. lia.
Defined.

(* ================================================================= *)
(** ** Listing by priority *)

Section StableSort.

Variables A K : Type.
Variable lt : K -> K -> bool.
Variable key : A -> K.
Variable rank : A -> Z.
Hypothesis lt_rank : forall a b, lt (key a) (key b) = (rank a <? rank b).

Lemma insert_sorted_Permutation (x : A) (l : list A) :
  Permutation (insert_sorted lt key x l) (x :: l).
Proof.
  induction l as [ | y l IH ]; simpl.
  - apply Permutation_refl.
  - destruct (lt (key y) (key x)).
    + apply perm_trans with (y :: x :: l).
      * apply perm_skip. exact IH.
      * apply perm_swap.
    + apply Permutation_refl.
Qed.

Lemma stable_sort_Permutation (l : list A) :
  Permutation (stable_sort lt key l) l.
Proof.
  induction l as [ | x l IH ]; simpl.
  - apply perm_nil.
  - apply perm_trans with (x :: stable_sort lt key l).
    + apply insert_sorted_Permutation.
    + apply perm_skip. exact IH.
Qed.

Lemma insert_sorted_ascending (x : A) (l : list A) :
  StronglySorted (ascending rank) l ->
  StronglySorted (ascending rank) (insert_sorted lt key x l).
Proof.
  induction l as [ | y l IH ]; simpl; intros Hs.
  - constructor; constructor.
  - inversion Hs as [ | y' l' Hl Hy ]; subst.
    destruct (lt (key y) (key x)) eqn:E; rewrite lt_rank in E.
    + apply Z.ltb_lt in E. constructor; [ apply IH; exact Hl | ].
      apply (Permutation_Forall (Permutation_sym (insert_sorted_Permutation x l))).
      constructor; [ unfold ascending; lia | exact Hy ].
    + apply Z.ltb_ge in E. constructor; [ exact Hs | ].
      constructor; [ exact E | ].
      apply (Forall_impl _ (P := ascending rank y)); [ | exact Hy ].
      unfold ascending. intros a Ha. lia.
Qed.

Lemma stable_sort_ascending (l : list A) :
  StronglySorted (ascending rank) (stable_sort lt key l).
Proof.
  induction l as [ | x l IH ]; simpl.
  - constructor.
  - apply insert_sorted_ascending. exact IH.
Qed.

Lemma insert_sorted_filter (k : Z) (x : A) (l : list A) :
  filter (of_rank rank k) (insert_sorted lt key x l) =
    if of_rank rank k x then x :: filter (of_rank rank k) l else filter (of_rank rank k) l.
Proof.
  induction l as [ | y l IH ]; simpl.
  - reflexivity.
  - destruct (lt (key y) (key x)) eqn:E; [ | reflexivity ].
    rewrite lt_rank in E. apply Z.ltb_lt in E. simpl. rewrite IH.
    unfold of_rank in *.
    destruct (rank x =? k) eqn:Ex; [ | reflexivity ].
    apply Z.eqb_eq in Ex.
    assert (Ey : (rank y =? k) = false) by (apply Z.eqb_neq; lia).
    rewrite Ey. reflexivity.
Qed.

(** Stability: the items of one rank come out in the order they came in. *)
Lemma stable_sort_filter (k : Z) (l : list A) :
  filter (of_rank rank k) (stable_sort lt key l) = filter (of_rank rank k) l.
Proof.
  induction l as [ | x l IH ]; simpl.
  - reflexivity.
  - rewrite insert_sorted_filter, IH. reflexivity.
Qed.

Lemma StronglySorted_snoc (R : A -> A -> Prop) (l : list A) (x : A) :
  StronglySorted R l -> Forall (fun a => R a x) l -> StronglySorted R (l ++ [x]).
Proof.
  induction l as [ | y l IH ]; simpl; intros Hs Hall.
  - constructor; constructor.
  - inversion Hs as [ | y' l' Hl Hy ]; subst. inversion Hall; subst.
    constructor; [ apply IH; assumption | ].
    apply Forall_app. split; [ exact Hy | ]. constructor; [ assumption | constructor ].
Qed.

Lemma rev_ascending_descending (l : list A) :
  StronglySorted (ascending rank) l -> StronglySorted (descending rank) (rev l).
Proof.
  induction l as [ | x l IH ]; simpl; intros Hs.
  - constructor.
  - inversion Hs as [ | x' l' Hl Hx ]; subst.
    apply StronglySorted_snoc; [ apply IH; exact Hl | ].
    apply Forall_rev. exact Hx.
Qed.

Lemma sorted_Permutation (reverse : bool) (l : list A) :
  Permutation (sorted lt key reverse l) l.
Proof.
  unfold sorted. destruct reverse.
  - apply perm_trans with (stable_sort lt key (rev l)).
    + apply Permutation_sym, Permutation_rev.
    + apply perm_trans with (rev l).
      * apply stable_sort_Permutation.
      * apply Permutation_sym, Permutation_rev.
  - apply stable_sort_Permutation.
Qed.

Lemma sorted_ascending (l : list A) :
  StronglySorted (ascending rank) (sorted lt key false l).
Proof. apply stable_sort_ascending. Qed.

Lemma sorted_descending (l : list A) :
  StronglySorted (descending rank) (sorted lt key true l).
Proof. unfold sorted. apply rev_ascending_descending, stable_sort_ascending. Qed.

(** In both directions equal keys keep the original order. *)
Lemma sorted_filter (k : Z) (reverse : bool) (l : list A) :
  filter (of_rank rank k) (sorted lt key reverse l) = filter (of_rank rank k) l.
Proof.
  unfold sorted. destruct reverse.
  - rewrite filter_rev, stable_sort_filter, filter_rev. apply rev_involutive.
  - apply stable_sort_filter.
Qed.

End StableSort.

Lemma Priority_lt_value (a b : Task) :
  Priority_lt (get_priority a) (get_priority b) =
    (value (get_priority a) <? value (get_priority b)).
Proof. reflexivity. Qed.

(** With [reverse], two tasks of equal priority are not swapped: the
    listing is not the reversal of the ascending listing. *)
Lemma list_by_priority_reverse_keeps_ties :
  filled_size two_low_manager <> 0 /\
  run (list_running_tasks "priority" false) two_low_manager [] =
    (Ok (Some [task_c; task_d]), {| self := two_low_manager; stdout := [] |}) /\
  run (list_running_tasks "priority" true) two_low_manager [] =
    (Ok (Some [task_c; task_d]), {| self := two_low_manager; stdout := [] |}) /\
  [task_c; task_d] <> rev [task_c; task_d].
Proof.
  split; [ vm_compute; discriminate | ].
  split; [ reflexivity | ]. split; [ reflexivity | ].
  simpl. intros H. inversion H.
Qed.

(** C9, amended. For a non-empty container, listing by "priority" returns
    a permutation of the queue, leaves the object unchanged, and the result
    is sorted by priority rank, ascending without [reverse] and descending
    with it; in both directions the tasks of one priority appear in their
    original insertion order. *)
Theorem list_by_priority_is_stable
    (s : TaskManager) (out : list string) (reverse : bool) :
  filled_size s <> 0 ->
  exists l,
    run (list_running_tasks "priority" reverse) s out =
      (Ok (Some l),
       {| self := s;
          stdout := out ++ (if verbose s then [listing_message "priority"] else []) |}) /\
    Permutation l (items (tasks_queue s)) /\
    (reverse = false ->
     StronglySorted
       (fun a b => value (get_priority a) <= value (get_priority b)) l) /\
    (reverse = true ->
     StronglySorted
       (fun a b => value (get_priority b) <= value (get_priority a)) l) /\
    (forall p,
       filter (fun t => value (get_priority t) =? value p) l =
       filter (fun t => value (get_priority t) =? value p) (items (tasks_queue s))).
Proof.
  intros Hne.
  exists (sorted Priority_lt get_priority reverse (items (tasks_queue s))).
  split; [ | split; [ | split; [ | split ] ] ].
  - unfold list_running_tasks. unfold_M. simpl.
    apply Z.eqb_neq in Hne. rewrite Hne.
    destruct (verbose s); simpl; rewrite ?app_nil_r; reflexivity.
  - apply sorted_Permutation.
  - intros ->.
    exact (sorted_ascending Task Priority Priority_lt get_priority
             (fun t => value (get_priority t)) Priority_lt_value _).
  - intros ->.
    exact (sorted_descending Task Priority Priority_lt get_priority
             (fun t => value (get_priority t)) Priority_lt_value _).
  - intros p.
    exact (sorted_filter Task Priority Priority_lt get_priority
             (fun t => value (get_priority t)) Priority_lt_value (value p) reverse _).
Qed.

Lemma list_by_priority_is_stable_witness :
  exists l,
    run (list_running_tasks "priority" true) priority_manager [] =
      (Ok (Some l),
       {| self := priority_manager;
          stdout := [] ++ (if verbose priority_manager
                           then [listing_message "priority"] else []) |}) /\
    Permutation l (items (tasks_queue priority_manager)) /\
    (true = false ->
     StronglySorted
       (fun a b => value (get_priority a) <= value (get_priority b)) l) /\
    (true = true ->
     StronglySorted
       (fun a b => value (get_priority b) <= value (get_priority a)) l) /\
    (forall p,
       filter (fun t => value (get_priority t) =? value p) l =
       filter (fun t => value (get_priority t) =? value p)
              (items (tasks_queue priority_manager))).
Proof.
  apply (list_by_priority_is_stable priority_manager [] true).
  vm_compute. discriminate.
Defined.

(* ================================================================= *)
(** ** Queues stay well formed *)

Section QueueProperty.

(** A property of the queue that its three mutating methods keep is kept
    by [add], whether it returns or raises. *)
Variable P : queue -> Prop.
Hypothesis P_append : forall q x, P q -> P (append q x).
Hypothesis P_popleft : forall q q' x, popleft q = Ok (x, q') -> P q -> P q'.
Hypothesis P_delitem : forall q q' i, delitem q i = Ok q' -> P q -> P q'.

Lemma add_new_keeps (task : Task) (w : World) :
  P (tasks_queue (self w)) -> P (tasks_queue (self (snd (_add task w)))).
Proof.
  intros H. unfold _add, _check_if_task_not_exists. unfold_M. simpl.
  destruct (duplicates_allowed (self w)); simpl.
  - apply P_append. exact H.
  - destruct (pid_in (get_pid task) (items (tasks_queue (self w)))); simpl.
    + exact H.
    + apply P_append. exact H.
Qed.

Lemma pop_then_append_keeps (task : Task) (w : World) :
  P (tasks_queue (self w)) ->
  P (tasks_queue (self (snd ((queue_popleft ;;; queue_append task) w)))).
Proof.
  intros H. unfold_M. simpl.
  destruct (popleft (tasks_queue (self w))) as [[x q'] | e] eqn:E; simpl.
  - apply P_append. exact (P_popleft _ _ _ E H).
  - exact H.
Qed.

Lemma add_fifo_keeps (task : Task) (w : World) :
  P (tasks_queue (self w)) -> P (tasks_queue (self (snd (_add_fifo task w)))).
Proof.
  intros H. unfold _add_fifo, _check_if_task_not_exists.
  unfold bind at 1. unfold bind at 1. unfold get_self at 1. cbn [fst snd].
  destruct (duplicates_allowed (self w)).
  - unfold ret at 1. apply pop_then_append_keeps. exact H.
  - destruct (pid_in (get_pid task) (items (tasks_queue (self w)))).
    + unfold raise. simpl. exact H.
    + unfold ret at 1. apply pop_then_append_keeps. exact H.
Qed.

Lemma delete_then_append_keeps (task : Task) (i : Z) (w : World) :
  P (tasks_queue (self w)) ->
  P (tasks_queue (self (snd ((queue_delitem i ;;; queue_append task) w)))).
Proof.
  intros H. unfold_M. simpl.
  destruct (delitem (tasks_queue (self w)) i) as [q' | e] eqn:E; simpl.
  - apply P_append. exact (P_delitem _ _ _ E H).
  - exact H.
Qed.

Lemma add_priority_based_keeps (task : Task) (w : World) :
  P (tasks_queue (self w)) ->
  P (tasks_queue (self (snd (_add_priority_based task w)))).
Proof.
  intros H. unfold _add_priority_based.
  destruct (value (get_priority task) =? value min_Priority).
  { unfold mlogger, print. simpl. exact H. }
  unfold bind at 1. unfold try_except, _check_if_task_not_exists.
  unfold bind at 1. unfold bind at 1. unfold get_self at 1.
  destruct (duplicates_allowed (self w)) eqn:Ed;
    [ | destruct (pid_in (get_pid task) (items (tasks_queue (self w)))) eqn:Ep ].
  2: { unfold raise, mlogger, print, bind, ret. simpl. exact H. }
  all: unfold ret at 1; unfold ret at 1; cbv beta iota;
    unfold bind at 1; unfold get_self at 1; cbv beta iota;
    unfold bind at 1; unfold lift at 1;
    destruct (search_returns task (items (tasks_queue (self w)))) as [st Hs];
    rewrite Hs; cbv beta iota;
    destruct (index_to_remove st =? -1);
    [ destruct (verbose (self w));
      [ unfold mlogger, print; simpl; exact H | unfold ret; simpl; exact H ]
    | apply delete_then_append_keeps; exact H ].
Qed.

Lemma add_keeps (task : Task) (w : World) :
  P (tasks_queue (self w)) -> P (tasks_queue (self (snd (add task w)))).
Proof.
  intros H. unfold add. destruct (is_active task); simpl; [ | exact H ].
  unfold bind at 1. unfold get_self at 1.
  destruct (filled_size (self w) >=? max_queue_size (self w)).
  - destruct (run_mode (self w) =? "default")%string; [ exact H | ].
    destruct (run_mode (self w) =? "fifo")%string;
      [ apply add_fifo_keeps; exact H | ].
    destruct (run_mode (self w) =? "priority")%string;
      [ apply add_priority_based_keeps; exact H | exact H ].
  - apply add_new_keeps. exact H.
Qed.

End QueueProperty.

Lemma queue_wf_append (q : queue) (x : Task) : queue_wf q -> queue_wf (append q x).
Proof.
  destruct q as [l n | l]; simpl; [ | trivial ]. intros H.
  destruct (n <? Z.of_nat (List.length (l ++ [x]))) eqn:E; simpl.
  - destruct l; simpl in *; [ lia | ]. rewrite length_app. simpl. lia.
  - apply Z.ltb_ge in E. exact E.
Qed.

Lemma queue_wf_popleft (q q' : queue) (x : Task) :
  popleft q = Ok (x, q') -> queue_wf q -> queue_wf q'.
Proof.
  destruct q as [[ | y l] n | l]; simpl; intros H; inversion H; subst.
  simpl. lia.
Qed.

Lemma queue_wf_delitem (q q' : queue) (i : Z) :
  delitem q i = Ok q' -> queue_wf q -> queue_wf q'.
Proof.
  intros H Hwf. pose proof (len_delitem q q' i H) as Hlen.
  unfold delitem in H.
  destruct ((0 <=? (if i <? 0 then i + len q else i)) &&
            ((if i <? 0 then i + len q else i) <? len q));
    destruct q; try discriminate; inversion H; subst; unfold len in *;
    simpl in *; trivial; lia.
Qed.

(** The queue of a new manager is a well-formed deque, and every public
    method keeps the queue well formed. *)
Lemma queue_wf_kept :
  (forall cap mode verbose duplicates_allowed s,
     __init__ cap mode verbose duplicates_allowed = Ok s ->
     queue_wf (tasks_queue s) /\ is_deque (tasks_queue s) = true) /\
  (forall c w,
     queue_wf (tasks_queue (self w)) ->
     queue_wf (tasks_queue (self (perform c w)))).
Proof.
  split.
  - intros cap mode v d s. unfold __init__.
    destruct (py_eq_zero cap); [ discriminate | ].
    destruct (negb (str_in mode ["default"; "fifo"; "priority"])); [ discriminate | ].
    destruct cap as [ n | | | | ]; try discriminate. unfold new_deque.
    destruct ((sys_maxsize <? n) || (n <? - sys_maxsize - 1)); [ discriminate | ].
    destruct (n <? 0) eqn:En; [ discriminate | ].
    intros H. inversion H; subst. apply Z.ltb_ge in En. simpl. split; [ lia | reflexivity ].
  - intros c w H. destruct c; simpl.
    + apply (add_keeps queue_wf queue_wf_append queue_wf_popleft queue_wf_delitem).
      exact H.
    + unfold kill_all_tasks, _clear_tasks_queue. unfold_M.
      destruct (verbose (self w)); simpl;
        destruct (tasks_queue (self w)); simpl in *; trivial; lia.
    + exact I.
    + unfold kill_by_group. unfold_M.
      destruct (opt_str_in group ["priority"; "pid"]); simpl; [ | exact H ].
      destruct (opt_str_eqb group "priority"); simpl; [ exact I | ].
      destruct (drop_pid_prefix match_ (items (tasks_queue (self w)))); simpl;
        [ exact I | exact H ].
    + rewrite list_running_tasks_keeps_self. exact H.
    + exact H.
    + exact H.
    + exact H.
    + exact H.
Qed.

(* ================================================================= *)
(** ** Scenarios run from the constructor *)

(** Capacity 2, "default" mode: A (medium) and B (high) go in, C (low) is
    refused with [MaxTaskSizeError] and the two tasks stay. *)
Example scenario_strict_overflow :
  __init__ (PyInt 2) "default" false false =
    Ok (mkTaskManager 2 (deque [] 2) "default" false false) /\
  perform_all [call_add task_a; call_add task_b]
    {| self := mkTaskManager 2 (deque [] 2) "default" false false; stdout := [] |} =
    {| self := mkTaskManager 2 (deque [task_a; task_b] 2) "default" false false;
       stdout := [] |} /\
  add task_c
    {| self := mkTaskManager 2 (deque [task_a; task_b] 2) "default" false false;
       stdout := [] |} =
    (Raise (MaxTaskSizeError "Task manager does not have free job slot."),
     {| self := mkTaskManager 2 (deque [task_a; task_b] 2) "default" false false;
        stdout := [] |}).
Proof. split; [ reflexivity | ]. split; reflexivity. Qed.

(** Capacity 2, "fifo" mode: after [kill_task] of an unknown identifier the
    queue is a list of two tasks, and the next [add] raises. *)
Example scenario_fifo_after_kill_task :
  perform_all [call_add task_a; call_add task_b; call_kill_task "zz"]
    {| self := mkTaskManager 2 (deque [] 2) "fifo" false false; stdout := [] |} =
    {| self := mkTaskManager 2 (pylist [task_a; task_b]) "fifo" false false;
       stdout := [] |} /\
  add task_c
    {| self := mkTaskManager 2 (pylist [task_a; task_b]) "fifo" false false;
       stdout := [] |} =
    (Raise (AttributeError "'list' object has no attribute 'popleft'"),
     {| self := mkTaskManager 2 (pylist [task_a; task_b]) "fifo" false false;
        stdout := [] |}).
Proof. split; reflexivity. Qed.

(** Capacity 3, "priority" mode, three [high] tasks: a [low] task is
    skipped and the queue is unchanged. *)
Example scenario_priority_low_skipped :
  perform_all
    [call_add (mkTask "h1" high true); call_add (mkTask "h2" high true);
     call_add (mkTask "h3" high true); call_add task_c]
    {| self := mkTaskManager 3 (deque [] 3) "priority" false false; stdout := [] |} =
    {| self := mkTaskManager 3
                 (deque [mkTask "h1" high true; mkTask "h2" high true;
                         mkTask "h3" high true] 3)
                 "priority" false false;
       stdout := [smallest_priority_message] |}.
Proof. reflexivity. Qed.

(* ================================================================= *)
(** ** [add]: inactive tasks, and the path below capacity *)

(** X1. [add] of an inactive task raises [InactiveTaskError] in every run
    mode and at every fill level, and changes nothing. *)
Theorem add_inactive_raises (s : TaskManager) (out : list string) (task : Task) :
  is_active task = false ->
  run (add task) s out =
    (Raise (InactiveTaskError "Inactive jobs can not be added to task manager."),
     {| self := s; stdout := out |}).
Proof. intros H. unfold add. rewrite H. reflexivity. Qed.

Lemma add_inactive_raises_witness :
  run (add (kill task_a)) (full_manager "priority" true) [] =
    (Raise (InactiveTaskError "Inactive jobs can not be added to task manager."),
     {| self := full_manager "priority" true; stdout := [] |}).
Proof.
  apply (add_inactive_raises (full_manager "priority" true) [] (kill task_a)).
  reflexivity.
Defined.

Lemma append_with_room (q : queue) (x : Task) :
  has_room q -> append q x = with_items q (items q ++ [x]).
Proof.
  destruct q as [l n | l]; simpl; [ | reflexivity ]. intros H.
  assert (E : (n <? Z.of_nat (List.length (l ++ [x]))) = false).
  { apply Z.ltb_ge. rewrite length_app. simpl. lia. }
  rewrite E. reflexivity.
Qed.

Lemma add_appends (s : TaskManager) (out : list string) (task : Task) :
  is_active task = true ->
  filled_size s < max_queue_size s ->
  has_room (tasks_queue s) ->
  duplicates_allowed s = true \/ pid_in (get_pid task) (items (tasks_queue s)) = false ->
  add task {| self := s; stdout := out |} =
    (Ok tt,
     {| self := with_tasks_queue s
                  (with_items (tasks_queue s) (items (tasks_queue s) ++ [task]));
        stdout := out |}).
Proof.
  intros Hact Hbelow Hroom Hnodup.
  unfold add. rewrite Hact. unfold_M. simpl.
  rewrite (below_capacity_geb s Hbelow). unfold _add. unfold_M.
  rewrite (check_passes s out task Hnodup). simpl.
  rewrite (append_with_room _ task Hroom). reflexivity.
Qed.

(** X2. Below capacity, in every run mode, [add] of an active task that
    passes the duplicate check appends it: the tasks already held keep
    their places, the new task is the last, and one slot less is empty. *)
Theorem add_below_capacity_appends
    (s : TaskManager) (out : list string) (task : Task) :
  is_active task = true ->
  filled_size s < max_queue_size s ->
  has_room (tasks_queue s) ->
  duplicates_allowed s = true \/ pid_in (get_pid task) (items (tasks_queue s)) = false ->
  run (add task) s out =
    (Ok tt,
     {| self := with_tasks_queue s
                  (with_items (tasks_queue s) (items (tasks_queue s) ++ [task]));
        stdout := out |}) /\
  get_empty_slots
    (with_tasks_queue s (with_items (tasks_queue s) (items (tasks_queue s) ++ [task]))) =
    get_empty_slots s - 1.
Proof.
  intros Hact Hbelow Hroom Hnodup. split.
  - exact (add_appends s out task Hact Hbelow Hroom Hnodup).
  - unfold get_empty_slots, with_tasks_queue, len. simpl.
    destruct (tasks_queue s); simpl; rewrite length_app; simpl; lia.
Qed.

Lemma add_below_capacity_appends_witness :
  run (add task_c) (mkTaskManager 5 (deque [task_a; task_b] 5) "fifo" true false) [] =
    (Ok tt,
     {| self := with_tasks_queue
                  (mkTaskManager 5 (deque [task_a; task_b] 5) "fifo" true false)
                  (with_items (deque [task_a; task_b] 5) ([task_a; task_b] ++ [task_c]));
        stdout := [] |}) /\
  get_empty_slots
    (with_tasks_queue
       (mkTaskManager 5 (deque [task_a; task_b] 5) "fifo" true false)
       (with_items (deque [task_a; task_b] 5) ([task_a; task_b] ++ [task_c]))) =
    get_empty_slots (mkTaskManager 5 (deque [task_a; task_b] 5) "fifo" true false) - 1.
Proof.
  apply (add_below_capacity_appends
           (mkTaskManager 5 (deque [task_a; task_b] 5) "fifo" true false) [] task_c).
  - reflexivity.
  - vm_compute. reflexivity.
  - simpl. lia.
  - right. reflexivity.
Defined.

Lemma pid_in_self (task : Task) (l : list Task) :
  pid_in (get_pid task) (l ++ [task]) = true.
Proof.
  rewrite pid_in_app. unfold pid_in at 2. simpl. rewrite String.eqb_refl.
  apply orb_true_iff. right. reflexivity.
Qed.

Lemma count_pid_app (pid : string) (l l' : list Task) :
  count_pid pid (l ++ l') = (count_pid pid l + count_pid pid l')%nat.
Proof. unfold count_pid. rewrite filter_app, length_app. reflexivity. Qed.

(** X3. Adding the same active task twice in a row, with room for both:
    when duplicates are disallowed the second [add] raises
    [DuplicateTaskError] and leaves the single copy in place; when they are
    allowed the container ends with two more copies, at the tail. *)
Theorem add_same_task_twice (s : TaskManager) (out : list string) (task : Task) :
  is_active task = true ->
  filled_size s + 1 < max_queue_size s ->
  (forall l n, tasks_queue s = deque l n -> Z.of_nat (List.length l) + 1 < n) ->
  duplicates_allowed s = true \/ pid_in (get_pid task) (items (tasks_queue s)) = false ->
  (duplicates_allowed s = false ->
   run (add task ;;; add task) s out =
     (Raise (DuplicateTaskError "A job with given pid is already in queue."),
      {| self := with_tasks_queue s
                   (with_items (tasks_queue s) (items (tasks_queue s) ++ [task]));
         stdout := out |}) /\
   count_pid (get_pid task) (items (tasks_queue s) ++ [task]) = 1%nat) /\
  (duplicates_allowed s = true ->
   run (add task ;;; add task) s out =
     (Ok tt,
      {| self := with_tasks_queue s
                   (with_items (tasks_queue s) (items (tasks_queue s) ++ [task; task]));
         stdout := out |}) /\
   count_pid (get_pid task) (items (tasks_queue s) ++ [task; task]) =
     (count_pid (get_pid task) (items (tasks_queue s)) + 2)%nat).
Proof.
  intros Hact Hbelow Hroom Hnodup.
  assert (Hroom1 : has_room (tasks_queue s)).
  { destruct (tasks_queue s) as [l n | l] eqn:Eq; simpl; trivial.
    specialize (Hroom l n eq_refl). lia. }
  assert (Hbelow1 : filled_size s < max_queue_size s) by lia.
  pose proof (add_appends s out task Hact Hbelow1 Hroom1 Hnodup) as Hfirst.
  set (s1 := with_tasks_queue s
               (with_items (tasks_queue s) (items (tasks_queue s) ++ [task]))) in *.
  assert (Hitems1 : items (tasks_queue s1) = items (tasks_queue s) ++ [task]).
  { unfold s1. simpl. destruct (tasks_queue s); reflexivity. }
  assert (Hbelow2 : filled_size s1 < max_queue_size s1).
  { unfold filled_size, len in *. rewrite Hitems1, length_app. simpl. lia. }
  split.
  - intros Hdup. split.
    + unfold run, bind. rewrite Hfirst.
      apply (add_propagates_duplicate s1 out task Hact).
      * exact Hdup.
      * rewrite Hitems1. apply pid_in_self.
      * left. exact Hbelow2.
    + destruct Hnodup as [H | H]; [ congruence | ].
      rewrite count_pid_app. unfold count_pid at 2. simpl. rewrite String.eqb_refl.
      simpl. unfold count_pid.
      assert (Hnone : filter (fun t => (get_pid t =? get_pid task)%string)
                             (items (tasks_queue s)) = []).
      { destruct (filter (fun t => (get_pid t =? get_pid task)%string)
                         (items (tasks_queue s))) as [ | t l ] eqn:Ef; trivial.
        assert (Hin : In t (t :: l)) by (left; reflexivity).
        rewrite <- Ef in Hin. apply filter_In in Hin. destruct Hin as [Hin Heq].
        apply String.eqb_eq in Heq.
        assert (Hp : pid_in (get_pid task) (items (tasks_queue s)) = true).
        { apply pid_in_In. exists t. split; assumption. }
        congruence. }
      rewrite Hnone. reflexivity.
  - intros Hdup. split.
    + unfold run, bind. rewrite Hfirst.
      assert (Hroom2 : has_room (tasks_queue s1)).
      { unfold s1. simpl. destruct (tasks_queue s) as [l n | l] eqn:Eq; simpl; trivial.
        specialize (Hroom l n eq_refl). rewrite length_app. simpl. lia. }
      rewrite (add_appends s1 out task Hact Hbelow2 Hroom2 (or_introl Hdup)).
      unfold s1, with_tasks_queue. simpl.
      destruct (tasks_queue s); simpl; rewrite <- app_assoc; reflexivity.
    + rewrite count_pid_app. unfold count_pid at 2. simpl. rewrite String.eqb_refl.
      reflexivity.
Qed.

Lemma add_same_task_twice_witness :
  run (add task_c ;;; add task_c)
      (mkTaskManager 5 (deque [task_a; task_b] 5) "default" true false) [] =
    (Raise (DuplicateTaskError "A job with given pid is already in queue."),
     {| self := mkTaskManager 5 (deque [task_a; task_b; task_c] 5) "default" true false;
        stdout := [] |}).
Proof.
  apply (proj1 (add_same_task_twice
                  (mkTaskManager 5 (deque [task_a; task_b] 5) "default" true false)
                  [] task_c eq_refl
                  ltac:(vm_compute; reflexivity)
                  ltac:(intros l n H; inversion H; subst; simpl; lia)
                  (or_intror eq_refl))
               eq_refl).
Defined.

(* ================================================================= *)
(** ** The capacity setter and the deque's own bound *)

(** X4. [set_max_queue_size] does not resize the deque. When the deque is
    full at its [maxlen] and the capacity is raised above it, the next
    [add] of an active task that passes the duplicate check returns
    normally in every run mode, "default" included, and the deque itself
    drops the oldest task to make room: the size stays at [maxlen]. *)
Theorem raised_capacity_drops_head
    (s : TaskManager) (out : list string) (task head : Task) (rest : list Task)
    (n v : Z) :
  is_active task = true ->
  tasks_queue s = deque (head :: rest) n ->
  Z.of_nat (List.length (head :: rest)) = n ->
  n < v ->
  duplicates_allowed s = true \/ pid_in (get_pid task) (head :: rest) = false ->
  run (set_max_queue_size v ;;; add task) s out =
    (Ok tt,
     {| self := mkTaskManager v (deque (rest ++ [task]) n) (run_mode s) (verbose s)
                  (duplicates_allowed s);
        stdout := out |}) /\
  Z.of_nat (List.length (rest ++ [task])) = n.
Proof.
  intros Hact Hq Hfull Hv Hnodup. split.
  - unfold run, bind, set_max_queue_size. cbn [self stdout].
    unfold add. rewrite Hact. unfold_M. cbn [negb self stdout].
    assert (Hbelow : (filled_size
                        (mkTaskManager v (tasks_queue s) (run_mode s) (verbose s)
                           (duplicates_allowed s)) >=? v) = false).
    { unfold filled_size, len. simpl. rewrite Hq. simpl items.
      destruct (Z.of_nat (List.length (head :: rest)) >=? v) eqn:E; trivial.
      apply Z.geb_le in E. lia. }
    cbn [max_queue_size]. rewrite Hbelow.
    unfold _add. unfold_M.
    rewrite (check_passes _ out task); [ | simpl; rewrite Hq; exact Hnodup ].
    cbn [self stdout tasks_queue]. unfold with_tasks_queue. cbn [tasks_queue
      max_queue_size run_mode verbose duplicates_allowed]. rewrite Hq.
    unfold append.
    assert (Htrim : (n <? Z.of_nat (List.length ((head :: rest) ++ [task]))) = true).
    { apply Z.ltb_lt. rewrite length_app. simpl in *. lia. }
    cbv zeta. rewrite Htrim. reflexivity.
  - rewrite length_app. simpl in *. lia.
Qed.

Lemma raised_capacity_drops_head_witness :
  run (set_max_queue_size 9 ;;; add task_c) (full_manager "default" false) [] =
    (Ok tt,
     {| self := mkTaskManager 9 (deque ([task_b] ++ [task_c]) 2) "default" true false;
        stdout := [] |}) /\
  Z.of_nat (List.length ([task_b] ++ [task_c])) = 2.
Proof.
  apply (raised_capacity_drops_head (full_manager "default" false) [] task_c
           task_a [task_b] 2 9).
  - reflexivity.
  - reflexivity.
  - reflexivity.
  - lia.
  - right. reflexivity.
Defined.

(* ================================================================= *)
(** ** Removal *)


Lemma kill_all_tasks_run (s : TaskManager) (out : list string) :
  kill_all_tasks {| self := s; stdout := out |} =
    (Ok (map kill (items (tasks_queue s))),
     {| self := with_tasks_queue s (clear (tasks_queue s));
        stdout := out ++ (if verbose s then ["Killing all of the tasks queue."] else []) |}).
Proof.
  unfold kill_all_tasks, _clear_tasks_queue. unfold_M. simpl.
  destruct (verbose s); simpl; rewrite ?app_nil_r; reflexivity.
Qed.








Lemma name_inj (p p' : Priority) : name p = name p' -> p = p'.
Proof. destruct p, p'; simpl; intros H; try reflexivity; discriminate. Qed.

Lemma name_eqb (p p' : Priority) :
  (name p =? name p')%string = (value p' =? value p).
Proof. destruct p, p'; reflexivity. Qed.

(** X7. [kill_by_group] on the group "priority": with the name of a
    priority as [match], exactly the tasks of that priority go and the
    others stay in their order; with a string that is the name of no
    priority, or with [None], every task stays. In both cases the method
    returns normally. *)
Theorem kill_by_group_priority (s : TaskManager) (out : list string) :
  (forall p,
     run (kill_by_group (Some "priority") (Some (name p))) s out =
       (Ok tt,
        {| self := with_tasks_queue s
                     (pylist (filter (fun t => negb (value (get_priority t) =? value p))
                                     (items (tasks_queue s))));
           stdout := out |})) /\
  (forall match_,
     (forall p, match_ <> Some (name p)) ->
     run (kill_by_group (Some "priority") match_) s out =
       (Ok tt,
        {| self := with_tasks_queue s (pylist (items (tasks_queue s)));
           stdout := out |})).
Proof.
  split.
  - intros p. unfold kill_by_group. unfold_M. simpl. do 4 f_equal.
    apply filter_ext. intros t. rewrite name_eqb. reflexivity.
  - intros match_ Hno. unfold kill_by_group. unfold_M. simpl. do 4 f_equal.
    induction (items (tasks_queue s)) as [ | t l IH ]; simpl; [ reflexivity | ].
    assert (E : opt_str_eqb match_ (name (get_priority t)) = false).
    { destruct match_ as [ m | ]; simpl; [ | reflexivity ].
      apply String.eqb_neq. intros ->. exact (Hno (get_priority t) eq_refl). }
    rewrite E. simpl. f_equal. exact IH.
Qed.

Lemma kill_by_group_priority_witness :
  run (kill_by_group (Some "priority") (Some "urgent")) priority_manager [] =
    (Ok tt,
     {| self := with_tasks_queue priority_manager
                  (pylist (items (tasks_queue priority_manager)));
        stdout := [] |}).
Proof.
  apply (proj2 (kill_by_group_priority priority_manager []) (Some "urgent")).
  intros p. destruct p; discriminate.
Defined.

Lemma prefix_append (m suffix : string) : String.prefix m (m ++ suffix)%string = true.
Proof.
  induction m as [ | c m IH ]; simpl.
  - destruct suffix; reflexivity.
  - destruct (Ascii.ascii_dec c c) as [ _ | Hne ]; [ exact IH | contradiction ].
Qed.

Lemma prefix_is_append (m s : string) :
  String.prefix m s = true -> exists suffix, s = (m ++ suffix)%string.
Proof.
  revert s. induction m as [ | c m IH ]; intros s H.
  - exists s. reflexivity.
  - destruct s as [ | c' s ]; simpl in H; [ discriminate | ].
    destruct (Ascii.ascii_dec c c') as [ <- | Hne ]; [ | discriminate ].
    destruct (IH s H) as [suffix ->]. exists suffix. reflexivity.
Qed.

(** X8. [kill_by_group] on the group "pid" with a string [m] returns
    normally; a task stays exactly when its identifier does not begin with
    [m], so no identifier of the form [m ++ suffix] is left, the task whose
    identifier is [m] goes, and the empty string removes every task. *)
Theorem kill_by_group_pid_prefix (s : TaskManager) (out : list string) (m : string) :
  exists l',
    run (kill_by_group (Some "pid") (Some m)) s out =
      (Ok tt, {| self := with_tasks_queue s (pylist l'); stdout := out |}) /\
    (forall t, In t l' <->
               In t (items (tasks_queue s)) /\
               forall suffix, get_pid t <> (m ++ suffix)%string) /\
    pid_in m l' = false /\
    (m = EmptyString -> l' = []).
Proof.
  exists (filter (fun elem => negb (String.prefix m (get_pid elem)))
                 (items (tasks_queue s))).
  assert (Hmem : forall t,
    In t (filter (fun elem => negb (String.prefix m (get_pid elem)))
                 (items (tasks_queue s))) <->
    In t (items (tasks_queue s)) /\ forall suffix, get_pid t <> (m ++ suffix)%string).
  { intros t. rewrite filter_In. split; intros [Hin H]; split; trivial.
    - intros suffix Heq. rewrite Heq, prefix_append in H. discriminate.
    - destruct (String.prefix m (get_pid t)) eqn:E; trivial.
      destruct (prefix_is_append _ _ E) as [suffix Hs]. elim (H suffix Hs). }
  split; [ | split; [ exact Hmem | split ] ].
  - unfold kill_by_group, drop_pid_prefix. unfold_M. simpl.
    destruct (items (tasks_queue s)); reflexivity.
  - match goal with |- pid_in m ?l = false => destruct (pid_in m l) eqn:E end; trivial.
    apply pid_in_In in E. destruct E as [t [Hin Ht]].
    apply Hmem in Hin. destruct Hin as [_ Hno].
    elim (Hno EmptyString). rewrite Ht. clear. induction m; simpl; congruence.
  - intros ->. clear Hmem. induction (items (tasks_queue s)) as [ | t l IH ]; simpl;
      [ reflexivity | ].
    destruct (get_pid t); simpl; exact IH.
Qed.

Lemma kill_by_group_pid_prefix_witness :
  exists l',
    run (kill_by_group (Some "pid") (Some "t")) priority_manager [] =
      (Ok tt, {| self := with_tasks_queue priority_manager (pylist l'); stdout := [] |}) /\
    (forall t, In t l' <->
               In t (items (tasks_queue priority_manager)) /\
               forall suffix, get_pid t <> ("t" ++ suffix)%string) /\
    pid_in "t" l' = false /\
    ("t" = EmptyString -> l' = []).
Proof. exact (kill_by_group_pid_prefix priority_manager [] "t"). Defined.

(** X9. The two ways [kill_by_group] fails: a group other than "priority"
    and "pid" (or no group) raises [ValueError]; the group "pid" without a
    [match] raises [TypeError] as soon as the queue holds a task. Neither
    changes the object, and the queue keeps its kind. *)
Theorem kill_by_group_errors (s : TaskManager) (out : list string) :
  (forall group match_,
     group <> Some "priority" -> group <> Some "pid" ->
     run (kill_by_group group match_) s out =
       (Raise (ValueError "'group can only be in ('priority' , 'pid')'"),
        {| self := s; stdout := out |})) /\
  (items (tasks_queue s) <> [] ->
   run (kill_by_group (Some "pid") None) s out =
     (Raise (TypeError "startswith first arg must be str or a tuple of str, not NoneType"),
      {| self := s; stdout := out |})).
Proof.
  split.
  - intros group match_ Hp Hi. unfold kill_by_group. unfold_M.
    assert (E : opt_str_in group ["priority"; "pid"] = false).
    { destruct group as [ g | ]; simpl; [ | reflexivity ].
      rewrite orb_false_r. apply orb_false_iff.
      split; apply String.eqb_neq; congruence. }
    rewrite E. reflexivity.
  - intros Hne. unfold kill_by_group, drop_pid_prefix. unfold_M. simpl.
    destruct (items (tasks_queue s)); [ contradiction | reflexivity ].
Qed.

Lemma kill_by_group_errors_witness :
  run (kill_by_group (Some "pid") None) (full_manager "fifo" false) [] =
    (Raise (TypeError "startswith first arg must be str or a tuple of str, not NoneType"),
     {| self := full_manager "fifo" false; stdout := [] |}).
Proof.
  apply (proj2 (kill_by_group_errors (full_manager "fifo" false) [])).
  simpl. discriminate.
Defined.

(* ================================================================= *)
(** ** Listing never fails and never changes the manager *)

Lemma list_running_tasks_run
    (s : TaskManager) (out : list string) (by_ : string) (reverse : bool) :
  run (list_running_tasks by_ reverse) s out =
    if negb (str_in by_ ["ctime"; "pid"; "priority"]) then
      (Ok None,
       {| self := s;
          stdout := out ++ ["'by' parameter is not well defined. Acceptable values are: ('ctime', 'pid', 'priority')"] |})
    else if filled_size s =? 0 then
      (Ok None,
       {| self := s;
          stdout := out ++ (if verbose s then [listing_message by_] else [])
                        ++ ["Tasks queue is empty"] |})
    else
      (Ok (Some (if (by_ =? "ctime")%string then
                   if reverse then rev (items (tasks_queue s))
                   else items (tasks_queue s)
                 else if (by_ =? "priority")%string then
                   sorted Priority_lt get_priority reverse (items (tasks_queue s))
                 else sorted String.ltb get_pid reverse (items (tasks_queue s)))),
       {| self := s;
          stdout := out ++ (if verbose s then [listing_message by_] else []) |}).
Proof.
  unfold list_running_tasks. unfold_M.
  destruct (str_in by_ ["ctime"; "pid"; "priority"]); simpl; [ | reflexivity ].
  destruct (verbose s); simpl; destruct (filled_size s =? 0); simpl;
    rewrite ?app_nil_r, <- ?app_assoc; try reflexivity;
    destruct (by_ =? "ctime")%string; destruct reverse; reflexivity.
Qed.

(** X10. [list_running_tasks] never raises and never changes the object;
    it only prints diagnostics. It returns nothing exactly when [by] is not
    one of "ctime", "pid", "priority" or the container is empty; otherwise
    it returns a permutation of the queue, which for "ctime" is the queue in
    insertion order, or that order reversed with [reverse]. *)
Theorem list_running_tasks_is_read_only
    (s : TaskManager) (out : list string) (by_ : string) (reverse : bool) :
  exists r diag,
    run (list_running_tasks by_ reverse) s out =
      (Ok r, {| self := s; stdout := out ++ diag |}) /\
    (r = None <->
     (by_ <> "ctime" /\ by_ <> "pid" /\ by_ <> "priority") \/ filled_size s = 0) /\
    (forall l, r = Some l -> Permutation l (items (tasks_queue s))) /\
    (forall l, r = Some l -> by_ = "ctime" ->
       l = if reverse then rev (items (tasks_queue s)) else items (tasks_queue s)).
Proof.
  rewrite list_running_tasks_run.
  destruct (str_in by_ ["ctime"; "pid"; "priority"]) eqn:Eby; cbn [negb].
  2: { eexists None, [_]. split; [ reflexivity | ]. split; [ | split ].
       - split; [ | reflexivity ]. intros _. left.
         unfold str_in in Eby. simpl in Eby. rewrite orb_false_r in Eby.
         apply orb_false_iff in Eby. destruct Eby as [E1 Eby].
         apply orb_false_iff in Eby. destruct Eby as [E2 E3].
         rewrite String.eqb_neq in E1, E2, E3. tauto.
       - intros l H. discriminate.
       - intros l H. discriminate. }
  assert (Hby : by_ = "ctime" \/ by_ = "pid" \/ by_ = "priority").
  { unfold str_in in Eby. simpl in Eby. rewrite orb_false_r in Eby.
    rewrite !orb_true_iff, !String.eqb_eq in Eby. tauto. }
  destruct (filled_size s =? 0) eqn:Ez.
  - apply Z.eqb_eq in Ez. eexists None, _. rewrite app_assoc.
    split; [ rewrite <- app_assoc; reflexivity | ].
    split; [ split; [ intros _; right; exact Ez | reflexivity ] | ].
    split; intros l H; discriminate.
  - apply Z.eqb_neq in Ez. eexists (Some _), _. split; [ reflexivity | ].
    split; [ split; [ discriminate | intros [[H1 [H2 H3]] | H]; [ tauto | congruence ] ] | ].
    split; intros l H; injection H as <-.
    + destruct (by_ =? "ctime")%string.
      * destruct reverse;
          [ apply Permutation_sym, Permutation_rev | apply Permutation_refl ].
      * destruct (by_ =? "priority")%string; apply sorted_Permutation.
    + intros ->. reflexivity.
Qed.

Lemma list_running_tasks_is_read_only_witness :
  exists r diag,
    run (list_running_tasks "ctime" true) priority_manager [] =
      (Ok r, {| self := priority_manager; stdout := [] ++ diag |}) /\
    (r = None <->
     ("ctime" <> "ctime" /\ "ctime" <> "pid" /\ "ctime" <> "priority") \/
     filled_size priority_manager = 0) /\
    (forall l, r = Some l -> Permutation l (items (tasks_queue priority_manager))) /\
    (forall l, r = Some l -> "ctime" = "ctime" ->
       l = if true then rev (items (tasks_queue priority_manager))
           else items (tasks_queue priority_manager)).
Proof. exact (list_running_tasks_is_read_only priority_manager [] "ctime" true). Defined.

(* ================================================================= *)
(** ** The order on priorities *)

(** X11. [Priority.__lt__] is a strict total order that follows the
    declaration order [low < medium < high]: it is irreflexive and
    transitive, any two priorities are equal or ordered one way only,
    [a > b] holds exactly when [b < a], and [min(Priority)] is the member
    that nothing is below. *)
Theorem Priority_lt_strict_total_order :
  (forall a, Priority_lt a a = false) /\
  (forall a b c, Priority_lt a b = true -> Priority_lt b c = true ->
                 Priority_lt a c = true) /\
  (forall a b, (Priority_lt a b = true /\ a <> b /\ Priority_lt b a = false) \/
               (a = b /\ Priority_lt a b = false /\ Priority_lt b a = false) \/
               (Priority_lt b a = true /\ a <> b /\ Priority_lt a b = false)) /\
  (forall a b, Priority_gt a b = Priority_lt b a) /\
  Priority_lt low medium = true /\ Priority_lt medium high = true /\
  (forall p, Priority_lt p min_Priority = false) /\
  (forall p, (forall p', Priority_lt p' p = false) -> p = min_Priority).
Proof.
  split; [ intros a; destruct a; reflexivity | ].
  split; [ intros a b c; destruct a, b, c; simpl; intros; trivial; discriminate | ].
  split.
  { intros a b. destruct a, b; simpl;
      try (left; repeat split; trivial; discriminate);
      try (right; left; repeat split; trivial; discriminate);
      right; right; repeat split; trivial; discriminate. }
  split; [ reflexivity | ]. split; [ reflexivity | ]. split; [ reflexivity | ].
  split; [ intros p; destruct p; reflexivity | ].
  intros p H. destruct p; trivial; specialize (H low); discriminate.
Qed.

Lemma Priority_lt_strict_total_order_witness :
  Priority_lt low high = true.
Proof.
  apply (proj1 (proj2 Priority_lt_strict_total_order) low medium high); reflexivity.
Defined.

(* ================================================================= *)
(** ** A run mode that [add] does not know *)

(** X12. [set_run_method] accepts any string. With a run mode other than
    "default", "fifo" and "priority", [add] of an active task on a
    container at capacity returns normally without storing the task and
    without printing anything: the task is lost in silence. *)
Theorem add_with_unknown_run_mode_is_silent
    (s : TaskManager) (out : list string) (task : Task) (mode : string) :
  is_active task = true ->
  mode <> "default" -> mode <> "fifo" -> mode <> "priority" ->
  max_queue_size s <= filled_size s ->
  run (set_run_method mode ;;; add task) s out =
    (Ok tt,
     {| self := mkTaskManager (max_queue_size s) (tasks_queue s) mode (verbose s)
                  (duplicates_allowed s);
        stdout := out |}).
Proof.
  intros Hact Hd Hf Hp Hfull. unfold run, bind, set_run_method. cbn [self stdout].
  unfold add. rewrite Hact. unfold_M. cbn [negb self stdout run_mode].
  assert (E : (filled_size
                 (mkTaskManager (max_queue_size s) (tasks_queue s) mode (verbose s)
                    (duplicates_allowed s)) >=?
               max_queue_size
                 (mkTaskManager (max_queue_size s) (tasks_queue s) mode (verbose s)
                    (duplicates_allowed s))) = true).
  { apply Z.geb_le. exact Hfull. }
  rewrite E.
  apply String.eqb_neq in Hd, Hf, Hp. rewrite Hd, Hf, Hp. reflexivity.
Qed.

Lemma add_with_unknown_run_mode_is_silent_witness :
  run (set_run_method "lifo" ;;; add task_c) (full_manager "fifo" false) [] =
    (Ok tt,
     {| self := mkTaskManager 2 (deque [task_a; task_b] 2) "lifo" true false;
        stdout := [] |}).
Proof.
  apply (add_with_unknown_run_mode_is_silent (full_manager "fifo" false) [] task_c "lifo").
  - reflexivity.
  - discriminate.
  - discriminate.
  - discriminate.
  - vm_compute. discriminate.
Defined.

(* ================================================================= *)
(** ** Capacities that only the deque refuses *)

(** X13. An [int] capacity other than zero, with a known run mode, passes
    the three tests of the constructor; the construction then succeeds
    exactly when [deque] accepts the value as [maxlen]: a negative capacity
    raises [ValueError], one beyond [sys.maxsize] in either direction
    raises [OverflowError], and neither is an [EmptyTaskManagerError]. *)
Theorem init_capacity_refused_by_deque
    (n : Z) (mode : string) (verbose duplicates_allowed : bool) :
  n <> 0 ->
  known_run_mode mode ->
  (- sys_maxsize - 1 <= n < 0 ->
   __init__ (PyInt n) mode verbose duplicates_allowed =
     Raise (ValueError "maxlen must be non-negative")) /\
  (n < - sys_maxsize - 1 \/ sys_maxsize < n ->
   __init__ (PyInt n) mode verbose duplicates_allowed =
     Raise (OverflowError "Python int too large to convert to C ssize_t")) /\
  ((exists s, __init__ (PyInt n) mode verbose duplicates_allowed = Ok s) <->
   1 <= n <= sys_maxsize).
Proof.
  intros Hn Hmode. unfold __init__, py_eq_zero.
  apply Z.eqb_neq in Hn. apply str_in_spec in Hmode. rewrite Hn, Hmode. cbn [negb].
  unfold new_deque. apply Z.eqb_neq in Hn.
  split; [ | split ].
  - intros H.
    assert (E1 : (sys_maxsize <? n) = false).
    { apply Z.ltb_ge. unfold sys_maxsize in *. lia. }
    assert (E2 : (n <? - sys_maxsize - 1) = false) by (apply Z.ltb_ge; lia).
    assert (E3 : (n <? 0) = true) by (apply Z.ltb_lt; lia).
    rewrite E1, E2, E3. reflexivity.
  - intros H.
    assert (E : (sys_maxsize <? n) || (n <? - sys_maxsize - 1) = true).
    { apply orb_true_iff. destruct H as [H | H];
        [ right | left ]; apply Z.ltb_lt; exact H. }
    rewrite E. reflexivity.
  - destruct (sys_maxsize <? n) eqn:E1; cbn [orb].
    + apply Z.ltb_lt in E1. split; [ intros [s H]; discriminate | lia ].
    + apply Z.ltb_ge in E1. destruct (n <? - sys_maxsize - 1) eqn:E2.
      * apply Z.ltb_lt in E2. split; [ intros [s H]; discriminate | ].
        unfold sys_maxsize in *. lia.
      * destruct (n <? 0) eqn:E3.
        -- apply Z.ltb_lt in E3. split; [ intros [s H]; discriminate | lia ].
        -- apply Z.ltb_ge in E3. split; [ lia | ]. intros _. eexists. reflexivity.
Qed.

Lemma init_capacity_refused_by_deque_witness :
  __init__ (PyInt (-3)) "fifo" true false =
    Raise (ValueError "maxlen must be non-negative").
Proof.
  apply (proj1 (init_capacity_refused_by_deque (-3) "fifo" true false
                  ltac:(lia) (or_intror (or_introl eq_refl)))).
  unfold sys_maxsize. lia.
Defined.

(* ================================================================= *)
(** ** The priority run mode at capacity, as a whole *)

(** What [add] does in the "priority" run mode at capacity, case by case. *)
Lemma add_priority_at_capacity_run
    (s : TaskManager) (out : list string) (task : Task) :
  is_active task = true ->
  run_mode s = "priority" ->
  queue_wf (tasks_queue s) ->
  max_queue_size s <= filled_size s ->
  add task {| self := s; stdout := out |} =
    match get_priority task with
    | low => (Ok tt, {| self := s; stdout := out ++ [smallest_priority_message] |})
    | _ =>
        if negb (duplicates_allowed s) && pid_in (get_pid task) (items (tasks_queue s))
        then (Ok tt, {| self := s; stdout := out ++ [already_in_message] |})
        else
          match victim (get_priority task) (items (tasks_queue s)) with
          | None =>
              (Ok tt,
               {| self := s;
                  stdout := out ++ (if verbose s
                                    then [no_lower_priority_message task] else []) |})
          | Some i =>
              (Ok tt,
               {| self := with_tasks_queue s
                            (with_items (tasks_queue s)
                               (remove_at i (items (tasks_queue s)) ++ [task]));
                  stdout := out |})
          end
    end.
Proof.
  intros Hact Hmode Hwf Hfull.
  destruct (search_from_start task (items (tasks_queue s))) as [st' [Hs Hidx]].
  assert (Hrun : forall go,
    (go = true -> duplicates_allowed s = true \/
                  pid_in (get_pid task) (items (tasks_queue s)) = false) ->
    negb (duplicates_allowed s) && pid_in (get_pid task) (items (tasks_queue s)) = negb go ->
    (value (get_priority task) =? value min_Priority) = false ->
    add task {| self := s; stdout := out |} =
      if negb go
      then (Ok tt, {| self := s; stdout := out ++ [already_in_message] |})
      else
        match victim (get_priority task) (items (tasks_queue s)) with
        | None =>
            (Ok tt,
             {| self := s;
                stdout := out ++ (if verbose s
                                  then [no_lower_priority_message task] else []) |})
        | Some i =>
            (Ok tt,
             {| self := with_tasks_queue s
                          (with_items (tasks_queue s)
                             (remove_at i (items (tasks_queue s)) ++ [task]));
                stdout := out |})
        end).
  { intros go Hgo Hdup Hnotlow. unfold add. rewrite Hact. unfold_M. simpl.
    rewrite (at_capacity_geb s Hfull), Hmode. simpl.
    unfold _add_priority_based. rewrite Hnotlow. unfold_M.
    destruct go; cbn [negb].
    - rewrite (check_passes s out task (Hgo eq_refl)). simpl. rewrite Hs.
      destruct (victim (get_priority task) (items (tasks_queue s))) as [ i | ] eqn:Ev.
      + assert (Hi : (i < List.length (items (tasks_queue s)))%nat).
        { destruct (victim_Some _ _ _ Ev) as [v [Hv _]].
          apply nth_error_Some. congruence. }
        simpl in Hidx. rewrite Hidx.
        assert (Hfound : (Z.of_nat i =? -1) = false) by (apply Z.eqb_neq; lia).
        rewrite Hfound. cbn [self stdout]. rewrite (delitem_in_range _ i Hi).
        cbn [self stdout]. unfold with_tasks_queue.
        cbn [tasks_queue max_queue_size run_mode verbose duplicates_allowed].
        rewrite (append_after_remove _ i task Hwf Hi). reflexivity.
      + simpl in Hidx. rewrite Hidx. simpl.
        destruct (verbose s); simpl; rewrite ?app_nil_r; reflexivity.
    - apply andb_true_iff in Hdup. destruct Hdup as [Hd Hin].
      apply negb_true_iff in Hd.
      unfold _check_if_task_not_exists. unfold_M. simpl. rewrite Hd, Hin. reflexivity. }
  destruct (get_priority task) eqn:Ep.
  - unfold add. rewrite Hact. unfold_M. simpl.
    rewrite (at_capacity_geb s Hfull), Hmode. simpl.
    unfold _add_priority_based. rewrite Ep. reflexivity.
  - rewrite (Hrun (negb (negb (duplicates_allowed s) &&
                         pid_in (get_pid task) (items (tasks_queue s))))).
    + rewrite negb_involutive. reflexivity.
    + destruct (duplicates_allowed s); simpl; [ left; reflexivity | ].
      intros H. right. apply negb_true_iff in H. exact H.
    + rewrite negb_involutive. reflexivity.
    + reflexivity.
  - rewrite (Hrun (negb (negb (duplicates_allowed s) &&
                         pid_in (get_pid task) (items (tasks_queue s))))).
    + rewrite negb_involutive. reflexivity.
    + destruct (duplicates_allowed s); simpl; [ left; reflexivity | ].
      intros H. right. apply negb_true_iff in H. exact H.
    + rewrite negb_involutive. reflexivity.
    + reflexivity.
Qed.

Lemma In_remove_at (e v : Task) (l : list Task) (i : nat) :
  In e l -> nth_error l i = Some v -> e <> v -> In e (remove_at i l).
Proof.
  unfold remove_at. revert i. induction l as [ | x l IH ]; intros i Hin Hnth Hne.
  - contradiction.
  - destruct i as [ | i ]; simpl in *.
    + inversion Hnth; subst. destruct Hin as [ -> | Hin ]; [ contradiction | exact Hin ].
    + destruct Hin as [ -> | Hin ]; [ left; reflexivity | right ].
      apply IH; assumption.
Qed.

(** X14. In the "priority" run mode at capacity, [add] of an active task
    never raises and never changes the size or the settings; every task
    whose priority is not strictly below the incoming one is still held
    afterwards, and the output grows by at most one line. *)
Theorem add_priority_keeps_higher_or_equal
    (s : TaskManager) (out : list string) (task : Task) :
  is_active task = true ->
  run_mode s = "priority" ->
  queue_wf (tasks_queue s) ->
  max_queue_size s <= filled_size s ->
  exists s' diag,
    run (add task) s out = (Ok tt, {| self := s'; stdout := out ++ diag |}) /\
    (List.length diag <= 1)%nat /\
    filled_size s' = filled_size s /\
    same_configuration s s' /\
    is_deque (tasks_queue s') = is_deque (tasks_queue s) /\
    (forall e, In e (items (tasks_queue s)) ->
               Priority_lt (get_priority e) (get_priority task) = false ->
               In e (items (tasks_queue s'))).
Proof.
  intros Hact Hmode Hwf Hfull. unfold run.
  rewrite (add_priority_at_capacity_run s out task Hact Hmode Hwf Hfull).
  assert (Hsame : forall d, (List.length d <= 1)%nat ->
    exists s' diag,
      (Ok tt, {| self := s; stdout := out ++ d |}) =
        (Ok tt, {| self := s'; stdout := out ++ diag |}) /\
      (List.length diag <= 1)%nat /\
      filled_size s' = filled_size s /\
      same_configuration s s' /\
      is_deque (tasks_queue s') = is_deque (tasks_queue s) /\
      (forall e, In e (items (tasks_queue s)) ->
                 Priority_lt (get_priority e) (get_priority task) = false ->
                 In e (items (tasks_queue s')))).
  { intros d Hd. exists s, d. repeat split; trivial. }
  assert (Hevict : forall i,
    victim (get_priority task) (items (tasks_queue s)) = Some i ->
    exists s' diag,
      (Ok tt,
       {| self := with_tasks_queue s
                    (with_items (tasks_queue s)
                       (remove_at i (items (tasks_queue s)) ++ [task]));
          stdout := out |}) =
        (Ok tt, {| self := s'; stdout := out ++ diag |}) /\
      (List.length diag <= 1)%nat /\
      filled_size s' = filled_size s /\
      same_configuration s s' /\
      is_deque (tasks_queue s') = is_deque (tasks_queue s) /\
      (forall e, In e (items (tasks_queue s)) ->
                 Priority_lt (get_priority e) (get_priority task) = false ->
                 In e (items (tasks_queue s')))).
  { intros i Ev. destruct (victim_Some _ _ _ Ev) as [v [Hv [Hvlt _]]].
    assert (Hi : (i < List.length (items (tasks_queue s)))%nat)
      by (apply nth_error_Some; congruence).
    eexists _, []. rewrite app_nil_r. split; [ reflexivity | ].
    split; [ simpl; lia | ].
    assert (Hitems : items (with_items (tasks_queue s)
                              (remove_at i (items (tasks_queue s)) ++ [task])) =
                     remove_at i (items (tasks_queue s)) ++ [task])
      by (destruct (tasks_queue s); reflexivity).
    split; [ | split; [ repeat split | split ] ].
    - unfold filled_size, len. simpl. rewrite Hitems, length_app. simpl.
      pose proof (length_remove_at i _ Hi). lia.
    - simpl. destruct (tasks_queue s); reflexivity.
    - intros e Hin Hge. simpl. rewrite Hitems. apply in_or_app. left.
      apply (In_remove_at e v _ i Hin Hv). intros ->. congruence. }
  destruct (get_priority task) eqn:Ep.
  - apply Hsame. simpl. lia.
  - destruct (negb (duplicates_allowed s) && pid_in (get_pid task) (items (tasks_queue s))).
    + apply Hsame. simpl. lia.
    + destruct (victim medium (items (tasks_queue s))) as [ i | ] eqn:Ev.
      * apply Hevict. reflexivity.
      * apply Hsame. destruct (verbose s); simpl; lia.
  - destruct (negb (duplicates_allowed s) && pid_in (get_pid task) (items (tasks_queue s))).
    + apply Hsame. simpl. lia.
    + destruct (victim high (items (tasks_queue s))) as [ i | ] eqn:Ev.
      * apply Hevict. reflexivity.
      * apply Hsame. destruct (verbose s); simpl; lia.
Qed.

Lemma add_priority_keeps_higher_or_equal_witness :
  exists s' diag,
    run (add task_9) priority_manager [] =
      (Ok tt, {| self := s'; stdout := [] ++ diag |}) /\
    (List.length diag <= 1)%nat /\
    filled_size s' = filled_size priority_manager /\
    same_configuration priority_manager s' /\
    is_deque (tasks_queue s') = is_deque (tasks_queue priority_manager) /\
    (forall e, In e (items (tasks_queue priority_manager)) ->
               Priority_lt (get_priority e) (get_priority task_9) = false ->
               In e (items (tasks_queue s'))).
Proof.
  apply (add_priority_keeps_higher_or_equal priority_manager [] task_9).
  - reflexivity.
  - reflexivity.
  - simpl. lia.
  - vm_compute. discriminate.
Defined.

(* ================================================================= *)
(** ** Identifiers stay unique *)

Lemma remove_at_incl (t : Task) (i : nat) (l : list Task) :
  In t (remove_at i l) -> In t l.
Proof.
  unfold remove_at. intros H. apply in_app_or in H. destruct H as [H | H].
  - rewrite <- (firstn_skipn i l). apply in_or_app. left. exact H.
  - rewrite <- (firstn_skipn (S i) l). apply in_or_app. right. exact H.
Qed.

Lemma unique_pids_sub (l l' : list Task) (x : Task) :
  unique_pids (x :: l) -> unique_pids l' -> (forall t, In t l' -> In t l) ->
  unique_pids (x :: l').
Proof.
  unfold unique_pids. simpl. intros H H' Hsub. inversion H as [ | p ps Hnotin Hnd ]; subst.
  constructor; [ | exact H' ]. intros Hin. apply Hnotin.
  apply in_map_iff in Hin. destruct Hin as [t [Ht Hin]].
  rewrite <- Ht. apply in_map. apply Hsub. exact Hin.
Qed.

Lemma unique_pids_remove_at (i : nat) (l : list Task) :
  unique_pids l -> unique_pids (remove_at i l).
Proof.
  revert i. induction l as [ | x l IH ]; intros i H.
  - unfold remove_at. destruct i; exact H.
  - destruct i as [ | i ].
    + unfold unique_pids in *. simpl in *. inversion H. assumption.
    + change (remove_at (S i) (x :: l)) with (x :: remove_at i l).
      apply (unique_pids_sub l); [ exact H | | intros t; apply remove_at_incl ].
      apply IH. unfold unique_pids in *. simpl in H. inversion H. assumption.
Qed.

Lemma unique_pids_tl (l : list Task) : unique_pids l -> unique_pids (tl l).
Proof.
  destruct l as [ | x l ]; simpl; [ trivial | ].
  unfold unique_pids. simpl. intros H. inversion H. assumption.
Qed.

Lemma unique_pids_filter (f : Task -> bool) (l : list Task) :
  unique_pids l -> unique_pids (filter f l).
Proof.
  induction l as [ | x l IH ]; simpl; intros H; [ exact H | ].
  assert (Hl : unique_pids l).
  { unfold unique_pids in *. simpl in H. inversion H. assumption. }
  destruct (f x); [ | apply IH; exact Hl ].
  apply (unique_pids_sub l); [ exact H | apply IH; exact Hl | ].
  intros t Ht. apply filter_In in Ht. tauto.
Qed.

Lemma unique_pids_snoc (l : list Task) (x : Task) :
  unique_pids l -> pid_in (get_pid x) l = false -> unique_pids (l ++ [x]).
Proof.
  unfold unique_pids. induction l as [ | y l IH ]; simpl; intros H Hfresh.
  - constructor; [ intros [] | constructor ].
  - inversion H as [ | p ps Hnotin Hnd ]; subst.
    unfold pid_in in Hfresh. simpl in Hfresh. apply orb_false_iff in Hfresh.
    destruct Hfresh as [Hne Hfresh]. constructor.
    + rewrite map_app. intros Hin. apply in_app_or in Hin. destruct Hin as [Hin | Hin].
      * contradiction.
      * simpl in Hin. destruct Hin as [Heq | []].
        rewrite Heq, String.eqb_refl in Hne. discriminate.
    + apply IH; assumption.
Qed.

Lemma pid_in_sub (pid : string) (l l' : list Task) :
  (forall t, In t l' -> In t l) -> pid_in pid l = false -> pid_in pid l' = false.
Proof.
  intros Hsub H. destruct (pid_in pid l') eqn:E; trivial.
  apply pid_in_In in E. destruct E as [t [Hin Ht]].
  assert (Hp : pid_in pid l = true).
  { apply pid_in_In. exists t. split; [ apply Hsub; exact Hin | exact Ht ]. }
  congruence.
Qed.

Lemma unique_pids_append (q : queue) (x : Task) :
  unique_pids (items q) -> pid_in (get_pid x) (items q) = false ->
  unique_pids (items (append q x)).
Proof.
  intros H Hfresh. pose proof (unique_pids_snoc _ x H Hfresh) as Hs.
  destruct q as [l n | l]; simpl in *; [ | exact Hs ].
  destruct (n <? Z.of_nat (List.length (l ++ [x]))); simpl;
    [ apply unique_pids_tl | ]; exact Hs.
Qed.

Lemma popleft_items (q q' : queue) (x : Task) :
  popleft q = Ok (x, q') -> items q = x :: items q'.
Proof.
  destruct q as [[ | y l] n | l]; simpl; intros H; inversion H; subst. reflexivity.
Qed.

Lemma delitem_items (q q' : queue) (i : Z) :
  delitem q i = Ok q' -> exists j, items q' = remove_at j (items q).
Proof.
  unfold delitem.
  destruct ((0 <=? (if i <? 0 then i + len q else i)) &&
            ((if i <? 0 then i + len q else i) <? len q));
    destruct q; intros H; inversion H; subst; eexists; reflexivity.
Qed.

Lemma guarded_append_keeps_unique_pids (task : Task) (w : World) (q' : queue) :
  unique_pids (items (tasks_queue (self w))) ->
  pid_in (get_pid task) (items (tasks_queue (self w))) = false ->
  unique_pids (items q') ->
  (forall t, In t (items q') -> In t (items (tasks_queue (self w)))) ->
  unique_pids (items (append q' task)).
Proof.
  intros _ Hfresh Hq' Hsub. apply unique_pids_append; [ exact Hq' | ].
  apply (pid_in_sub _ _ _ Hsub Hfresh).
Qed.

Lemma add_keeps_unique_pids (task : Task) (w : World) :
  duplicates_allowed (self w) = false ->
  unique_pids (items (tasks_queue (self w))) ->
  unique_pids (items (tasks_queue (self (snd (add task w))))).
Proof.
  intros Hdup H. unfold add. destruct (is_active task); simpl; [ | exact H ].
  unfold bind at 1. unfold get_self at 1.
  destruct (filled_size (self w) >=? max_queue_size (self w)).
  - destruct (run_mode (self w) =? "default")%string; [ exact H | ].
    destruct (run_mode (self w) =? "fifo")%string.
    { unfold _add_fifo, _check_if_task_not_exists. unfold_M. simpl. rewrite Hdup.
      destruct (pid_in (get_pid task) (items (tasks_queue (self w)))) eqn:Ein; simpl;
        [ exact H | ].
      destruct (popleft (tasks_queue (self w))) as [[x q'] | e] eqn:Ep; simpl;
        [ | exact H ].
      pose proof (popleft_items _ _ _ Ep) as Hitems.
      apply (guarded_append_keeps_unique_pids task w q' H Ein).
      - rewrite Hitems in H. unfold unique_pids in *. simpl in H. inversion H. assumption.
      - intros t Ht. rewrite Hitems. right. exact Ht. }
    destruct (run_mode (self w) =? "priority")%string; [ | exact H ].
    unfold _add_priority_based.
    destruct (value (get_priority task) =? value min_Priority).
    { unfold mlogger, print. simpl. exact H. }
    unfold _check_if_task_not_exists. unfold_M. simpl. rewrite Hdup.
    destruct (pid_in (get_pid task) (items (tasks_queue (self w)))) eqn:Ein; simpl;
      [ exact H | ].
    destruct (search_returns task (items (tasks_queue (self w)))) as [st Hs].
    rewrite Hs. destruct (index_to_remove st =? -1).
    { destruct (verbose (self w)); simpl; exact H. }
    simpl.
    destruct (delitem (tasks_queue (self w)) (index_to_remove st)) as [q' | e] eqn:Ed;
      simpl; [ | exact H ].
    destruct (delitem_items _ _ _ Ed) as [j Hitems].
    apply (guarded_append_keeps_unique_pids task w q' H Ein).
    + rewrite Hitems. apply unique_pids_remove_at. exact H.
    + intros t Ht. rewrite Hitems in Ht. apply (remove_at_incl t j). exact Ht.
  - unfold _add, _check_if_task_not_exists. unfold_M. simpl. rewrite Hdup.
    destruct (pid_in (get_pid task) (items (tasks_queue (self w)))) eqn:Ein; simpl;
      [ exact H | ].
    apply unique_pids_append; assumption.
Qed.

(* ================================================================= *)
(** ** What no method changes *)

Section ManagerProperty.

(** A property of the object that does not depend on its queue is kept by
    [add], whether it returns or raises. *)
Variable P : TaskManager -> Prop.
Hypothesis P_queue : forall s q, P s -> P (with_tasks_queue s q).

Lemma add_new_keeps_settings (task : Task) (w : World) :
  P (self w) -> P (self (snd (_add task w))).
Proof.
  intros H. unfold _add, _check_if_task_not_exists. unfold_M. simpl.
  destruct (duplicates_allowed (self w)); simpl.
  - apply P_queue. exact H.
  - destruct (pid_in (get_pid task) (items (tasks_queue (self w)))); simpl.
    + exact H.
    + apply P_queue. exact H.
Qed.

Lemma add_fifo_keeps_settings (task : Task) (w : World) :
  P (self w) -> P (self (snd (_add_fifo task w))).
Proof.
  intros H. unfold _add_fifo, _check_if_task_not_exists. unfold_M. simpl.
  destruct (duplicates_allowed (self w)); simpl;
    [ | destruct (pid_in (get_pid task) (items (tasks_queue (self w)))); simpl;
        [ exact H | ] ];
    (destruct (popleft (tasks_queue (self w))) as [[x q'] | e]; simpl;
     [ apply P_queue, P_queue; exact H | exact H ]).
Qed.

Lemma add_priority_based_keeps_settings (task : Task) (w : World) :
  P (self w) -> P (self (snd (_add_priority_based task w))).
Proof.
  intros H. unfold _add_priority_based.
  destruct (value (get_priority task) =? value min_Priority).
  { unfold mlogger, print. simpl. exact H. }
  unfold _check_if_task_not_exists. unfold_M. simpl.
  destruct (duplicates_allowed (self w)); simpl;
    [ | destruct (pid_in (get_pid task) (items (tasks_queue (self w)))); simpl;
        [ exact H | ] ];
    (destruct (search_returns task (items (tasks_queue (self w)))) as [st Hs];
     rewrite Hs; destruct (index_to_remove st =? -1);
     [ destruct (verbose (self w)); simpl; exact H
     | simpl;
       destruct (delitem (tasks_queue (self w)) (index_to_remove st)); simpl;
       [ apply P_queue, P_queue; exact H | exact H ] ]).
Qed.

Lemma add_keeps_settings (task : Task) (w : World) :
  P (self w) -> P (self (snd (add task w))).
Proof.
  intros H. unfold add. destruct (is_active task); simpl; [ | exact H ].
  unfold bind at 1. unfold get_self at 1.
  destruct (filled_size (self w) >=? max_queue_size (self w)).
  - destruct (run_mode (self w) =? "default")%string; [ exact H | ].
    destruct (run_mode (self w) =? "fifo")%string;
      [ apply add_fifo_keeps_settings; exact H | ].
    destruct (run_mode (self w) =? "priority")%string;
      [ apply add_priority_based_keeps_settings; exact H | exact H ].
  - apply add_new_keeps_settings. exact H.
Qed.

End ManagerProperty.

Lemma kill_all_tasks_run_snd (w : World) :
  self (snd (kill_all_tasks w)) =
    with_tasks_queue (self w) (clear (tasks_queue (self w))).
Proof.
  destruct w as [s out]. rewrite kill_all_tasks_run. reflexivity.
Qed.

Lemma perform_keeps_settings (P : TaskManager -> Prop) (c : call) (w : World) :
  (forall s q, P s -> P (with_tasks_queue s q)) ->
  (forall m, c <> call_set_run_method m) ->
  (forall v, c <> call_set_max_queue_size v) ->
  P (self w) -> P (self (perform c w)).
Proof.
  intros HP Hm Hv H. destruct c; simpl.
  - apply add_keeps_settings; assumption.
  - rewrite kill_all_tasks_run_snd. apply HP. exact H.
  - apply HP. exact H.
  - unfold kill_by_group. unfold_M.
    destruct (opt_str_in group ["priority"; "pid"]); simpl; [ | exact H ].
    destruct (opt_str_eqb group "priority"); simpl; [ apply HP; exact H | ].
    destruct (drop_pid_prefix match_ (items (tasks_queue (self w)))); simpl;
      [ apply HP; exact H | exact H ].
  - rewrite list_running_tasks_keeps_self. exact H.
  - exact H.
  - exact H.
  - elim (Hm new_run_mode). reflexivity.
  - elim (Hv v). reflexivity.
Qed.

Lemma perform_all_keeps (P : World -> Prop) (calls : list call) (w : World) :
  (forall c w', In c calls -> P w' -> P (perform c w')) ->
  P w -> P (perform_all calls w).
Proof.
  unfold perform_all. revert w. induction calls as [ | c calls IH ]; intros w Hstep H.
  - exact H.
  - simpl. apply IH.
    + intros c' w' Hin. apply Hstep. right. exact Hin.
    + apply Hstep; [ left; reflexivity | exact H ].
Qed.

Lemma perform_keeps_duplicates_allowed (c : call) (w : World) :
  duplicates_allowed (self (perform c w)) = duplicates_allowed (self w).
Proof.
  destruct c; try reflexivity;
    try (apply (perform_keeps_settings
                  (fun s' => duplicates_allowed s' = duplicates_allowed (self w)));
         [ intros s q H; exact H | intros m; discriminate | intros v; discriminate
         | reflexivity ]).
Qed.

Lemma perform_keeps_unique_pids (c : call) (w : World) :
  duplicates_allowed (self w) = false ->
  unique_pids (items (tasks_queue (self w))) ->
  unique_pids (items (tasks_queue (self (perform c w)))).
Proof.
  intros Hdup H. destruct c; simpl; try exact H.
  - apply add_keeps_unique_pids; assumption.
  - rewrite kill_all_tasks_run_snd. simpl.
    destruct (tasks_queue (self w)); simpl; constructor.
  - apply unique_pids_filter. exact H.
  - unfold kill_by_group, drop_pid_prefix. unfold_M.
    destruct (opt_str_in group ["priority"; "pid"]); simpl; [ | exact H ].
    destruct (opt_str_eqb group "priority"); simpl;
      [ apply unique_pids_filter; exact H | ].
    destruct match_ as [ m | ], (items (tasks_queue (self w))) as [ | x l ] eqn:El;
      simpl; try (rewrite El; exact H); try constructor.
    change (unique_pids (filter (fun elem => negb (String.prefix m (get_pid elem)))
                                (x :: l))).
    apply unique_pids_filter. exact H.
  - rewrite list_running_tasks_keeps_self. exact H.
Qed.

(** X15. A manager built with [duplicates_allowed=False] never holds two
    tasks with the same identifier, whatever sequence of public calls is
    made on it, and whether each call returns or raises; the flag itself is
    never changed by a call. *)
Theorem unique_pids_is_invariant
    (cap : PyVal) (mode : string) (verbose : bool) (s : TaskManager)
    (calls : list call) (out : list string) :
  __init__ cap mode verbose false = Ok s ->
  unique_pids (items (tasks_queue (self (perform_all calls {| self := s; stdout := out |})))) /\
  duplicates_allowed (self (perform_all calls {| self := s; stdout := out |})) = false.
Proof.
  intros Hinit.
  assert (Hstart : duplicates_allowed s = false /\ items (tasks_queue s) = []).
  { unfold __init__ in Hinit.
    destruct (py_eq_zero cap); [ discriminate | ].
    destruct (negb (str_in mode ["default"; "fifo"; "priority"])); [ discriminate | ].
    destruct cap as [ n | | | | ]; try discriminate.
    destruct (new_deque n) as [q | e] eqn:Eq; [ | discriminate ].
    inversion Hinit; subst. simpl. split; [ reflexivity | ].
    unfold new_deque in Eq.
    destruct ((sys_maxsize <? n) || (n <? - sys_maxsize - 1)); [ discriminate | ].
    destruct (n <? 0); inversion Eq. reflexivity. }
  destruct Hstart as [Hdup Hempty].
  apply (perform_all_keeps
           (fun w => unique_pids (items (tasks_queue (self w))) /\
                     duplicates_allowed (self w) = false)).
  - intros c w' _ [Hu Hd]. split.
    + apply perform_keeps_unique_pids; assumption.
    + rewrite perform_keeps_duplicates_allowed. exact Hd.
  - simpl. rewrite Hempty. split; [ constructor | exact Hdup ].
Qed.

Lemma unique_pids_is_invariant_witness :
  unique_pids
    (items (tasks_queue (self (perform_all
       [call_add task_a; call_add task_a; call_add task_b; call_kill_task "zz";
        call_add task_b; call_add task_c]
       {| self := mkTaskManager 2 (deque [] 2) "priority" true false;
          stdout := [] |})))) /\
  duplicates_allowed (self (perform_all
       [call_add task_a; call_add task_a; call_add task_b; call_kill_task "zz";
        call_add task_b; call_add task_c]
       {| self := mkTaskManager 2 (deque [] 2) "priority" true false;
          stdout := [] |})) = false.
Proof.
  apply (unique_pids_is_invariant (PyInt 2) "priority" true).
  reflexivity.
Defined.

(** X16. No public method other than the two setters changes the capacity,
    the run mode, [verbose] or [duplicates_allowed], whatever the sequence
    of calls and whether they return or raise. *)
Theorem settings_change_only_through_setters (calls : list call) (w : World) :
  (forall c, In c calls ->
     (forall m, c <> call_set_run_method m) /\
     (forall v, c <> call_set_max_queue_size v)) ->
  same_configuration (self w) (self (perform_all calls w)).
Proof.
  intros Hcalls.
  apply (perform_all_keeps (fun w' => same_configuration (self w) (self w'))).
  - intros c w' Hin H. destruct (Hcalls c Hin) as [Hm Hv].
    apply (perform_keeps_settings (same_configuration (self w))); trivial.
  - repeat split.
Qed.

Lemma settings_change_only_through_setters_witness :
  same_configuration
    (full_manager "fifo" false)
    (self (perform_all
             [call_add task_c; call_kill_task "a1"; call_kill_all_tasks;
              call_list_running_tasks "pid" false]
             {| self := full_manager "fifo" false; stdout := [] |})).
Proof.
  apply (settings_change_only_through_setters
           [call_add task_c; call_kill_task "a1"; call_kill_all_tasks;
            call_list_running_tasks "pid" false]
           {| self := full_manager "fifo" false; stdout := [] |}).
  intros c Hin. split; [ intros m | intros v ];
    repeat (destruct Hin as [ <- | Hin ]; [ discriminate | ]); destruct Hin.
Defined.

Lemma perform_keeps_queue_property (P : queue -> Prop) (c : call) (w : World) :
  (forall q x, P q -> P (append q x)) ->
  (forall q q' x, popleft q = Ok (x, q') -> P q -> P q') ->
  (forall q q' i, delitem q i = Ok q' -> P q -> P q') ->
  (forall q, P q -> P (clear q)) ->
  (forall l, P (pylist l)) ->
  P (tasks_queue (self w)) -> P (tasks_queue (self (perform c w))).
Proof.
  intros Ha Hp Hd Hc Hl H. destruct c; simpl; try exact H.
  - apply add_keeps; assumption.
  - rewrite kill_all_tasks_run_snd. simpl. apply Hc. exact H.
  - apply Hl.
  - unfold kill_by_group. unfold_M.
    destruct (opt_str_in group ["priority"; "pid"]); simpl; [ | exact H ].
    destruct (opt_str_eqb group "priority"); simpl; [ apply Hl | ].
    destruct (drop_pid_prefix match_ (items (tasks_queue (self w)))); simpl;
      [ apply Hl | exact H ].
  - rewrite list_running_tasks_keeps_self. exact H.
Qed.

(** X17. Once [tasks_queue] is a list no sequence of public calls makes it
    a deque again, and as long as it is a deque its [maxlen] is the one of
    its construction: no call, the capacity setter included, changes it. *)
Theorem queue_kind_is_never_restored (calls : list call) (w : World) :
  (is_deque (tasks_queue (self w)) = false ->
   is_deque (tasks_queue (self (perform_all calls w))) = false) /\
  (forall l n l' n',
     tasks_queue (self w) = deque l n ->
     tasks_queue (self (perform_all calls w)) = deque l' n' ->
     n' = n).
Proof.
  split.
  - intros H.
    apply (perform_all_keeps (fun w' => is_deque (tasks_queue (self w')) = false));
      [ | exact H ].
    intros c w' _ Hw'.
    apply (perform_keeps_queue_property (fun q => is_deque q = false)); trivial.
    + intros q x Hq. destruct q; [ discriminate | reflexivity ].
    + intros q q' x Hpop Hq. destruct q; [ discriminate | discriminate ].
    + intros q q' i Hdel Hq. destruct q; [ discriminate | ].
      unfold delitem in Hdel.
      destruct ((0 <=? (if i <? 0 then i + len (pylist items0) else i)) &&
                ((if i <? 0 then i + len (pylist items0) else i) <? len (pylist items0)));
        inversion Hdel. reflexivity.
    + intros q Hq. destruct q; [ discriminate | reflexivity ].
  - intros l n l' n' Hq Hq'.
    assert (Hkept : forall l1 n1,
      tasks_queue (self (perform_all calls w)) = deque l1 n1 -> n1 = n).
    { apply (perform_all_keeps
               (fun w' => forall l1 n1, tasks_queue (self w') = deque l1 n1 -> n1 = n)).
      - intros c w' _ Hw'.
        apply (perform_keeps_queue_property
                 (fun q => forall l1 n1, q = deque l1 n1 -> n1 = n)); trivial.
        + intros q x Hq0 l1 n1 Happ. destruct q as [l0 n0 | l0]; simpl in Happ.
          * destruct (n0 <? Z.of_nat (List.length (l0 ++ [x]))); inversion Happ; subst;
              apply (Hq0 l0 n1 eq_refl).
          * discriminate.
        + intros q q' x Hpop Hq0 l1 n1 ->. destruct q as [[ | y l0] n0 | l0];
            simpl in Hpop; inversion Hpop; subst. apply (Hq0 _ n1 eq_refl).
        + intros q q' i Hdel Hq0 l1 n1 ->. unfold delitem in Hdel.
          destruct ((0 <=? (if i <? 0 then i + len q else i)) &&
                    ((if i <? 0 then i + len q else i) <? len q));
            destruct q as [l0 n0 | l0]; inversion Hdel; subst.
          apply (Hq0 l0 n1 eq_refl).
        + intros q Hq0 l1 n1 Hc. destruct q as [l0 n0 | l0]; simpl in Hc;
            inversion Hc; subst. apply (Hq0 l0 n1 eq_refl).
        + intros l0 l1 n1 Hc. discriminate.
      - intros l1 n1 H1. rewrite Hq in H1. inversion H1. reflexivity. }
    exact (Hkept l' n' Hq').
Qed.

Lemma queue_kind_is_never_restored_witness :
  is_deque (tasks_queue (self (perform_all
      [call_kill_all_tasks; call_add task_c; call_set_max_queue_size 7]
      {| self := with_tasks_queue (full_manager "fifo" false) (pylist [task_a]);
         stdout := [] |}))) = false.
Proof.
  apply (proj1 (queue_kind_is_never_restored
                  [call_kill_all_tasks; call_add task_c; call_set_max_queue_size 7]
                  {| self := with_tasks_queue (full_manager "fifo" false)
                               (pylist [task_a]);
                     stdout := [] |})).
  reflexivity.
Defined.

(* ================================================================= *)
(** ** Sequences of insertions *)

Lemma items_with_items (q : queue) (l : list Task) : items (with_items q l) = l.
Proof. destruct q; reflexivity. Qed.

Lemma with_items_twice (q : queue) (l l' : list Task) :
  with_items (with_items q l) l' = with_items q l'.
Proof. destruct q; reflexivity. Qed.

Lemma unique_pids_middle (l : list Task) (t : Task) (ts : list Task) :
  unique_pids (l ++ t :: ts) ->
  pid_in (get_pid t) l = false /\ unique_pids ((l ++ [t]) ++ ts).
Proof.
  intros H. split.
  - apply pid_in_false_not_In. unfold unique_pids in H. rewrite map_app in H. simpl in H.
    apply NoDup_remove_2 in H. intros Hin. apply H. apply in_or_app. left. exact Hin.
  - rewrite <- app_assoc. exact H.
Qed.

(** X18. Starting below capacity, a sequence of [add] calls with active
    tasks that all fit, and that are pairwise distinct from each other and
    from the tasks held unless duplicates are allowed, stores them all, in
    the order of the calls, behind the tasks already held; nothing is
    printed. This holds in every run mode. *)
Theorem adds_below_capacity_accumulate
    (tasks : list Task) (s : TaskManager) (out : list string) :
  Forall (fun t => is_active t = true) tasks ->
  filled_size s + Z.of_nat (List.length tasks) <= max_queue_size s ->
  (forall l n, tasks_queue s = deque l n ->
               Z.of_nat (List.length l) + Z.of_nat (List.length tasks) <= n) ->
  duplicates_allowed s = true \/ unique_pids (items (tasks_queue s) ++ tasks) ->
  perform_all (map call_add tasks) {| self := s; stdout := out |} =
    {| self := with_tasks_queue s
                 (with_items (tasks_queue s) (items (tasks_queue s) ++ tasks));
       stdout := out |}.
Proof.
  revert s. induction tasks as [ | t ts IH ]; intros s Hact Hfit Hroom Hdistinct.
  - simpl. rewrite app_nil_r. f_equal. destruct s as [m q r v d]. unfold with_tasks_queue.
    simpl. f_equal. destruct q; reflexivity.
  - inversion Hact as [ | t' ts' Ht Hts ]; subst.
    simpl in Hfit. unfold perform_all. simpl.
    assert (Hnodup : duplicates_allowed s = true \/
                     pid_in (get_pid t) (items (tasks_queue s)) = false).
    { destruct Hdistinct as [H | H]; [ left; exact H | right ].
      apply (unique_pids_middle _ _ _ H). }
    rewrite add_appends; trivial; try lia.
    2: { destruct (tasks_queue s) as [l n | l] eqn:Eq; simpl; trivial.
         specialize (Hroom l n eq_refl). simpl in Hroom. lia. }
    cbn [snd]. fold (perform_all (map call_add ts)).
    rewrite IH; trivial.
    + unfold with_tasks_queue. simpl. rewrite with_items_twice, items_with_items.
      rewrite <- app_assoc. reflexivity.
    + unfold filled_size, len in *. simpl. rewrite items_with_items, length_app.
      simpl. lia.
    + intros l n Hq. simpl in Hq.
      destruct (tasks_queue s) as [l0 n0 | l0] eqn:Eq; simpl in Hq; inversion Hq; subst.
      specialize (Hroom l0 n eq_refl). rewrite length_app. simpl in *. lia.
    + simpl. rewrite items_with_items.
      destruct Hdistinct as [H | H]; [ left; exact H | right ].
      apply (unique_pids_middle _ _ _ H).
Qed.

Lemma adds_below_capacity_accumulate_witness :
  perform_all (map call_add [task_a; task_b; task_c])
    {| self := mkTaskManager 5 (deque [] 5) "priority" true false; stdout := [] |} =
    {| self := with_tasks_queue (mkTaskManager 5 (deque [] 5) "priority" true false)
                 (with_items (deque [] 5) ([] ++ [task_a; task_b; task_c]));
       stdout := [] |}.
Proof.
  apply (adds_below_capacity_accumulate [task_a; task_b; task_c]
           (mkTaskManager 5 (deque [] 5) "priority" true false) []).
  - repeat constructor.
  - vm_compute. discriminate.
  - intros l n H. inversion H; subst. simpl. lia.
  - right. unfold unique_pids. simpl.
    repeat constructor; simpl; intuition discriminate.
Defined.

Lemma add_fifo_rotates
    (s : TaskManager) (out : list string) (task head : Task) (rest : list Task) (n : Z) :
  is_active task = true ->
  run_mode s = "fifo" ->
  tasks_queue s = deque (head :: rest) n ->
  Z.of_nat (List.length (head :: rest)) <= n ->
  max_queue_size s <= filled_size s ->
  duplicates_allowed s = true \/ pid_in (get_pid task) (head :: rest) = false ->
  add task {| self := s; stdout := out |} =
    (Ok tt, {| self := with_tasks_queue s (deque (rest ++ [task]) n); stdout := out |}).
Proof.
  intros Hact Hmode Hq Hwf Hfull Hnodup.
  unfold add. rewrite Hact. unfold_M. simpl.
  rewrite (at_capacity_geb s Hfull), Hmode. simpl.
  unfold _add_fifo. unfold_M.
  rewrite (check_passes s out task); [ | rewrite Hq; exact Hnodup ].
  simpl. rewrite Hq. simpl. unfold with_tasks_queue at 2. simpl. cbv zeta.
  assert (Hnotrim : (n <? Z.of_nat (List.length (rest ++ [task]))) = false).
  { apply Z.ltb_ge. rewrite length_app. simpl in *. lia. }
  rewrite Hnotrim. reflexivity.
Qed.

(** X19. In the "fifo" run mode, on a full deque (as many tasks as its
    [maxlen], capacity not above it), a sequence of [add] calls with active
    tasks each of which passes the duplicate check when it is called
    (duplicates are allowed, or its identifier is not among the tasks held
    at that moment, which are the last [maxlen] of the old contents
    followed by the tasks added before it) works as a sliding window: the
    container ends up holding the newest [maxlen] tasks of the old contents
    followed by the added ones, in that order. An identifier that has been
    evicted can come back. *)
Theorem fifo_keeps_the_newest
    (tasks : list Task) (s : TaskManager) (out : list string)
    (l : list Task) (n : Z) :
  run_mode s = "fifo" ->
  tasks_queue s = deque l n ->
  Z.of_nat (List.length l) = n ->
  1 <= n ->
  max_queue_size s <= n ->
  Forall (fun t => is_active t = true) tasks ->
  duplicates_allowed s = true \/
    (forall i t, nth_error tasks i = Some t ->
                 pid_in (get_pid t) (skipn i (l ++ firstn i tasks)) = false) ->
  perform_all (map call_add tasks) {| self := s; stdout := out |} =
    {| self := with_tasks_queue s (deque (skipn (List.length tasks) (l ++ tasks)) n);
       stdout := out |}.
Proof.
  revert s l. induction tasks as [ | t ts IH ];
    intros s l Hmode Hq Hlen Hn Hcap Hact Hchecks.
  - simpl. rewrite app_nil_r. f_equal. destruct s as [m q r v d]. unfold with_tasks_queue.
    simpl in *. rewrite Hq. reflexivity.
  - inversion Hact as [ | t' ts' Ht Hts ]; subst.
    destruct l as [ | head rest ]; [ simpl in Hn; lia | ].
    unfold perform_all. simpl.
    assert (Hnodup : duplicates_allowed s = true \/
                     pid_in (get_pid t) (head :: rest) = false).
    { destruct Hchecks as [H | H]; [ left; exact H | right ].
      specialize (H 0%nat t eq_refl). simpl in H. rewrite app_nil_r in H. exact H. }
    rewrite (add_fifo_rotates s out t head rest _ Ht Hmode Hq); trivial; try lia.
    2: { unfold filled_size, len. rewrite Hq. simpl items. lia. }
    cbn [snd]. fold (perform_all (map call_add ts)).
    rewrite (IH _ (rest ++ [t])); trivial.
    + unfold with_tasks_queue. simpl. rewrite <- app_assoc. reflexivity.
    + rewrite length_app. simpl in *. lia.
    + destruct Hchecks as [H | H]; [ left; exact H | right ].
      intros i t' Hnth. specialize (H (S i) t' Hnth). simpl in H.
      rewrite <- app_assoc. exact H.
Qed.

Lemma fifo_keeps_the_newest_witness :
  perform_all (map call_add [task_c; task_a])
    {| self := full_manager "fifo" false; stdout := [] |} =
    {| self := with_tasks_queue (full_manager "fifo" false)
                 (deque (skipn (List.length [task_c; task_a])
                               ([task_a; task_b] ++ [task_c; task_a])) 2);
       stdout := [] |}.
Proof.
  apply (fifo_keeps_the_newest [task_c; task_a] (full_manager "fifo" false) []
           [task_a; task_b] 2).
  - reflexivity.
  - reflexivity.
  - reflexivity.
  - lia.
  - simpl. lia.
  - repeat constructor.
  - right. intros i t H.
    destruct i as [ | [ | i ] ]; simpl in H.
    + inversion H; subst. reflexivity.
    + inversion H; subst. reflexivity.
    + destruct i; discriminate.
Defined.

(* ================================================================= *)
(** ** The "default" run mode never evicts *)

(** X20. In the "default" run mode, as long as the capacity is not above
    the deque's [maxlen], [add] never removes a task and never prints:
    either it raises and the manager is unchanged, or the task is active,
    the container was below capacity, and the task is appended behind the
    tasks already held. *)
Theorem add_default_never_evicts (s : TaskManager) (out : list string) (task : Task) :
  run_mode s = "default" ->
  (forall l n, tasks_queue s = deque l n -> max_queue_size s <= n) ->
  (exists e, run (add task) s out = (Raise e, {| self := s; stdout := out |})) \/
  (is_active task = true /\
   filled_size s < max_queue_size s /\
   run (add task) s out =
     (Ok tt,
      {| self := with_tasks_queue s
                   (with_items (tasks_queue s) (items (tasks_queue s) ++ [task]));
         stdout := out |})).
Proof.
  intros Hmode Hmaxlen.
  destruct (is_active task) eqn:Hact.
  2: { left. eexists. unfold add. rewrite Hact. reflexivity. }
  destruct (filled_size s >=? max_queue_size s) eqn:Efull.
  { left. eexists. unfold add. rewrite Hact. unfold_M. simpl.
    rewrite Efull, Hmode. reflexivity. }
  assert (Hbelow : filled_size s < max_queue_size s).
  { destruct (Z.ltb_spec (filled_size s) (max_queue_size s)) as [ H | H ]; trivial.
    apply Z.geb_le in H. congruence. }
  destruct (duplicates_allowed s) eqn:Ed;
    [ | destruct (pid_in (get_pid task) (items (tasks_queue s))) eqn:Ein ].
  2: { left. eexists.
       apply (add_propagates_duplicate s out task Hact Ed Ein). left. exact Hbelow. }
  all: right; split; [ reflexivity | ]; split; [ exact Hbelow | ];
    apply add_appends; trivial; try tauto;
    destruct (tasks_queue s) as [l n | l] eqn:Eq; simpl; trivial;
    specialize (Hmaxlen l n eq_refl); unfold filled_size, len in Hbelow;
    rewrite Eq in Hbelow; simpl in Hbelow; lia.
Qed.

Lemma add_default_never_evicts_witness :
  (exists e, run (add task_c) (full_manager "default" false) [] =
               (Raise e, {| self := full_manager "default" false; stdout := [] |})) \/
  (is_active task_c = true /\
   filled_size (full_manager "default" false) <
     max_queue_size (full_manager "default" false) /\
   run (add task_c) (full_manager "default" false) [] =
     (Ok tt,
      {| self := with_tasks_queue (full_manager "default" false)
                   (with_items (tasks_queue (full_manager "default" false))
                      (items (tasks_queue (full_manager "default" false)) ++ [task_c]));
         stdout := [] |})).
Proof.
  apply (add_default_never_evicts (full_manager "default" false) [] task_c).
  - reflexivity.
  - intros l n H. inversion H; subst. simpl. lia.
Defined.

(* ================================================================= *)
(** ** The tasks a manager holds *)

Section AddOfTask.

(** A property of the queue kept by [popleft], by [del] and by the
    appending of [task] is kept by each of the three insertion paths. *)
Variable task : Task.
Variable P : queue -> Prop.
Hypothesis P_append : forall q, P q -> P (append q task).
Hypothesis P_popleft : forall q q' x, popleft q = Ok (x, q') -> P q -> P q'.
Hypothesis P_delitem : forall q q' i, delitem q i = Ok q' -> P q -> P q'.

Lemma add_new_keeps_for_task (w : World) :
  P (tasks_queue (self w)) -> P (tasks_queue (self (snd (_add task w)))).
Proof.
  intros H. unfold _add, _check_if_task_not_exists. unfold_M. simpl.
  destruct (duplicates_allowed (self w)); simpl.
  - apply P_append. exact H.
  - destruct (pid_in (get_pid task) (items (tasks_queue (self w)))); simpl.
    + exact H.
    + apply P_append. exact H.
Qed.

Lemma add_fifo_keeps_for_task (w : World) :
  P (tasks_queue (self w)) -> P (tasks_queue (self (snd (_add_fifo task w)))).
Proof.
  intros H. unfold _add_fifo, _check_if_task_not_exists. unfold_M. simpl.
  destruct (duplicates_allowed (self w)); simpl;
    [ | destruct (pid_in (get_pid task) (items (tasks_queue (self w)))); simpl;
        [ exact H | ] ];
    (destruct (popleft (tasks_queue (self w))) as [[x q'] | e] eqn:E; simpl;
     [ apply P_append; exact (P_popleft _ _ _ E H) | exact H ]).
Qed.

Lemma add_priority_based_keeps_for_task (w : World) :
  P (tasks_queue (self w)) ->
  P (tasks_queue (self (snd (_add_priority_based task w)))).
Proof.
  intros H. unfold _add_priority_based.
  destruct (value (get_priority task) =? value min_Priority).
  { unfold mlogger, print. simpl. exact H. }
  unfold _check_if_task_not_exists. unfold_M. simpl.
  destruct (duplicates_allowed (self w)); simpl;
    [ | destruct (pid_in (get_pid task) (items (tasks_queue (self w)))); simpl;
        [ exact H | ] ];
    (destruct (search_returns task (items (tasks_queue (self w)))) as [st Hs];
     rewrite Hs; destruct (index_to_remove st =? -1);
     [ destruct (verbose (self w)); simpl; exact H
     | simpl;
       destruct (delitem (tasks_queue (self w)) (index_to_remove st)) eqn:E; simpl;
       [ apply P_append; exact (P_delitem _ _ _ E H) | exact H ] ]).
Qed.

End AddOfTask.

Lemma add_keeps_for_task (task : Task) (P : queue -> Prop) (w : World) :
  (is_active task = true -> forall q, P q -> P (append q task)) ->
  (forall q q' x, popleft q = Ok (x, q') -> P q -> P q') ->
  (forall q q' i, delitem q i = Ok q' -> P q -> P q') ->
  P (tasks_queue (self w)) -> P (tasks_queue (self (snd (add task w)))).
Proof.
  intros Ha Hp Hd H. unfold add. destruct (is_active task); simpl; [ | exact H ].
  specialize (Ha eq_refl).
  unfold bind at 1. unfold get_self at 1.
  destruct (filled_size (self w) >=? max_queue_size (self w)).
  - destruct (run_mode (self w) =? "default")%string; [ exact H | ].
    destruct (run_mode (self w) =? "fifo")%string;
      [ apply add_fifo_keeps_for_task; assumption | ].
    destruct (run_mode (self w) =? "priority")%string;
      [ apply add_priority_based_keeps_for_task; assumption | exact H ].
  - apply add_new_keeps_for_task; assumption.
Qed.

Lemma Forall_items_append (R : Task -> Prop) (q : queue) (x : Task) :
  R x -> Forall R (items q) -> Forall R (items (append q x)).
Proof.
  intros Hx H.
  assert (Hs : Forall R (items q ++ [x])).
  { apply Forall_app. split; [ exact H | constructor; [ exact Hx | constructor ] ]. }
  destruct q as [l n | l]; simpl in *; [ | exact Hs ].
  destruct (n <? Z.of_nat (List.length (l ++ [x]))); simpl; [ | exact Hs ].
  destruct (l ++ [x]); simpl; [ constructor | inversion Hs; assumption ].
Qed.

Lemma Forall_remove_at (R : Task -> Prop) (i : nat) (l : list Task) :
  Forall R l -> Forall R (remove_at i l).
Proof.
  intros H. apply Forall_forall. intros t Ht.
  apply remove_at_incl in Ht. revert t Ht. apply Forall_forall. exact H.
Qed.

Lemma Forall_filter_kept (R : Task -> Prop) (f : Task -> bool) (l : list Task) :
  Forall R l -> Forall R (filter f l).
Proof.
  intros H. apply Forall_forall. intros t Ht. apply filter_In in Ht.
  destruct Ht as [Ht _]. revert t Ht. apply Forall_forall. exact H.
Qed.

Lemma perform_keeps_Forall (R : Task -> Prop) (c : call) (w : World) :
  (forall task, c = call_add task -> is_active task = true -> R task) ->
  Forall R (items (tasks_queue (self w))) ->
  Forall R (items (tasks_queue (self (perform c w)))).
Proof.
  intros Hadd H. destruct c; simpl; try exact H.
  - apply (add_keeps_for_task task (fun q => Forall R (items q))); trivial.
    + intros Hact q Hq. apply Forall_items_append; [ | exact Hq ].
      apply (Hadd task eq_refl Hact).
    + intros q q' x Hpop Hq. rewrite (popleft_items _ _ _ Hpop) in Hq.
      inversion Hq. assumption.
    + intros q q' i Hdel Hq. destruct (delitem_items _ _ _ Hdel) as [j ->].
      apply Forall_remove_at. exact Hq.
  - rewrite kill_all_tasks_run_snd. simpl.
    destruct (tasks_queue (self w)); simpl; constructor.
  - apply Forall_filter_kept. exact H.
  - unfold kill_by_group, drop_pid_prefix. unfold_M.
    destruct (opt_str_in group ["priority"; "pid"]); simpl; [ | exact H ].
    destruct (opt_str_eqb group "priority"); simpl;
      [ apply Forall_filter_kept; exact H | ].
    destruct match_ as [ m | ], (items (tasks_queue (self w))) as [ | x l ] eqn:El;
      simpl; try (rewrite El; exact H); try constructor.
    change (Forall R (filter (fun elem => negb (String.prefix m (get_pid elem)))
                             (x :: l))).
    apply Forall_filter_kept. exact H.
  - rewrite list_running_tasks_keeps_self. exact H.
Qed.

(** X21. A manager never stores a task that is inactive when it is added,
    and never holds a task it was not given: over any sequence of public
    calls, every task held at the end was held at the start or is the
    argument of one of the [add] calls, active at that call. In particular
    if all the tasks held at the start are active, so are all those held at
    the end. *)
Theorem held_tasks_were_added_active (calls : list call) (w : World) :
  Forall (fun t => In t (items (tasks_queue (self w))) \/
                   (In (call_add t) calls /\ is_active t = true))
         (items (tasks_queue (self (perform_all calls w)))) /\
  (Forall (fun t => is_active t = true) (items (tasks_queue (self w))) ->
   Forall (fun t => is_active t = true)
          (items (tasks_queue (self (perform_all calls w))))).
Proof.
  split.
  - apply (perform_all_keeps
             (fun w' => Forall (fun t => In t (items (tasks_queue (self w))) \/
                                         (In (call_add t) calls /\ is_active t = true))
                               (items (tasks_queue (self w'))))).
    + intros c w' Hin Hw'. apply perform_keeps_Forall; [ | exact Hw' ].
      intros task -> Hact. right. split; assumption.
    + apply Forall_forall. intros t Ht. left. exact Ht.
  - intros H.
    apply (perform_all_keeps
             (fun w' => Forall (fun t => is_active t = true)
                               (items (tasks_queue (self w'))))); [ | exact H ].
    intros c w' _ Hw'. apply perform_keeps_Forall; [ | exact Hw' ].
    intros task _ Hact. exact Hact.
Qed.

Lemma held_tasks_were_added_active_witness :
  Forall (fun t => is_active t = true)
         (items (tasks_queue (self (perform_all
            [call_add task_c; call_add (kill task_d); call_kill_task "a1"]
            {| self := full_manager "fifo" false; stdout := [] |})))).
Proof.
  apply (proj2 (held_tasks_were_added_active
                  [call_add task_c; call_add (kill task_d); call_kill_task "a1"]
                  {| self := full_manager "fifo" false; stdout := [] |})).
  repeat constructor.
Defined.

(* ================================================================= *)
(** ** Listing by identifier *)

Section StableSortOrder.

Variables A K : Type.
Variable lt : K -> K -> bool.
Variable eqb : K -> K -> bool.
Variable key : A -> K.
Hypothesis eqb_eq : forall a b, eqb a b = true <-> a = b.
Hypothesis lt_irrefl : forall a, lt a a = false.
Hypothesis lt_asym : forall a b, lt a b = true -> lt b a = false.
Hypothesis le_trans : forall a b c, lt b a = false -> lt c b = false -> lt c a = false.

Lemma insert_sorted_not_above (x : A) (l : list A) :
  StronglySorted (not_above lt key) l ->
  StronglySorted (not_above lt key) (insert_sorted lt key x l).
Proof.
  induction l as [ | y l IH ]; simpl; intros Hs.
  - constructor; constructor.
  - inversion Hs as [ | y' l' Hl Hy ]; subst.
    destruct (lt (key y) (key x)) eqn:E.
    + constructor; [ apply IH; exact Hl | ].
      apply (Permutation_Forall (Permutation_sym (insert_sorted_Permutation _ _ lt key x l))).
      constructor; [ apply lt_asym; exact E | exact Hy ].
    + constructor; [ exact Hs | ]. constructor; [ exact E | ].
      apply (Forall_impl _ (P := not_above lt key y)); [ | exact Hy ].
      unfold not_above. intros a Ha. apply (le_trans _ (key y)); assumption.
Qed.

Lemma stable_sort_not_above (l : list A) :
  StronglySorted (not_above lt key) (stable_sort lt key l).
Proof.
  induction l as [ | x l IH ]; simpl; [ constructor | ].
  apply insert_sorted_not_above. exact IH.
Qed.

Lemma insert_sorted_filter_key (k : K) (x : A) (l : list A) :
  filter (fun a => eqb (key a) k) (insert_sorted lt key x l) =
    if eqb (key x) k then x :: filter (fun a => eqb (key a) k) l
    else filter (fun a => eqb (key a) k) l.
Proof.
  induction l as [ | y l IH ]; simpl; [ reflexivity | ].
  destruct (lt (key y) (key x)) eqn:E; [ | reflexivity ].
  simpl. rewrite IH.
  destruct (eqb (key x) k) eqn:Ex; [ | reflexivity ].
  destruct (eqb (key y) k) eqn:Ey; [ | reflexivity ].
  apply eqb_eq in Ex, Ey. rewrite Ex, Ey, lt_irrefl in E. discriminate.
Qed.

Lemma stable_sort_filter_key (k : K) (l : list A) :
  filter (fun a => eqb (key a) k) (stable_sort lt key l) =
    filter (fun a => eqb (key a) k) l.
Proof.
  induction l as [ | x l IH ]; simpl; [ reflexivity | ].
  rewrite insert_sorted_filter_key, IH. reflexivity.
Qed.

Lemma StronglySorted_rev (R : A -> A -> Prop) (l : list A) :
  StronglySorted R l -> StronglySorted (fun a b => R b a) (rev l).
Proof.
  induction l as [ | x l IH ]; simpl; intros Hs; [ constructor | ].
  inversion Hs as [ | x' l' Hl Hx ]; subst.
  apply StronglySorted_snoc; [ apply IH; exact Hl | ].
  apply Forall_rev. exact Hx.
Qed.

Lemma sorted_by_order (reverse : bool) (l : list A) :
  (reverse = false -> StronglySorted (not_above lt key) (sorted lt key reverse l)) /\
  (reverse = true ->
   StronglySorted (fun a b => not_above lt key b a) (sorted lt key reverse l)) /\
  (forall k, filter (fun a => eqb (key a) k) (sorted lt key reverse l) =
             filter (fun a => eqb (key a) k) l).
Proof.
  unfold sorted. split; [ | split ].
  - intros ->. apply stable_sort_not_above.
  - intros ->. apply StronglySorted_rev, stable_sort_not_above.
  - intros k. destruct reverse.
    + rewrite filter_rev, stable_sort_filter_key, filter_rev. apply rev_involutive.
    + apply stable_sort_filter_key.
Qed.

End StableSortOrder.

Lemma ltb_irrefl (a : string) : String.ltb a a = false.
Proof.
  unfold String.ltb.
  assert (E : String.compare a a = Eq) by (apply OrderedTypeEx.String_as_OT.cmp_eq; reflexivity).
  rewrite E. reflexivity.
Qed.

Lemma ltb_lts (a b : string) :
  String.ltb a b = true <-> OrderedTypeEx.String_as_OT.lt a b.
Proof.
  rewrite <- OrderedTypeEx.String_as_OT.cmp_lt. unfold String.ltb, OrderedTypeEx.String_as_OT.cmp.
  destruct (String.compare a b); split; intros H; try reflexivity; discriminate.
Qed.

Lemma ltb_asym (a b : string) : String.ltb a b = true -> String.ltb b a = false.
Proof.
  unfold String.ltb. rewrite (String.compare_antisym b a).
  destruct (String.compare a b); simpl; intros H; try discriminate; reflexivity.
Qed.

Lemma ltb_false (a b : string) :
  String.ltb b a = false <-> a = b \/ String.ltb a b = true.
Proof.
  unfold String.ltb. rewrite (String.compare_antisym b a).
  destruct (String.compare a b) eqn:E; simpl; split; intros H;
    try reflexivity; try discriminate; try (right; reflexivity).
  - left. apply OrderedTypeEx.String_as_OT.cmp_eq. exact E.
  - destruct H as [H | H]; [ | discriminate ].
    apply OrderedTypeEx.String_as_OT.cmp_eq in H.
    unfold OrderedTypeEx.String_as_OT.cmp in H. congruence.
Qed.

Lemma ltb_le_trans (a b c : string) :
  String.ltb b a = false -> String.ltb c b = false -> String.ltb c a = false.
Proof.
  intros Hab Hbc. apply ltb_false in Hab, Hbc. apply ltb_false.
  destruct Hab as [ -> | Hab ]; [ exact Hbc | ].
  destruct Hbc as [ <- | Hbc ]; [ right; exact Hab | ].
  right. apply ltb_lts. apply ltb_lts in Hab, Hbc.
  exact (OrderedTypeEx.String_as_OT.lt_trans _ _ _ Hab Hbc).
Qed.

Lemma not_above_leb (a b : Task) :
  not_above String.ltb get_pid a b <-> String.leb (get_pid a) (get_pid b) = true.
Proof.
  unfold not_above, String.ltb, String.leb.
  rewrite (String.compare_antisym (get_pid b) (get_pid a)).
  destruct (String.compare (get_pid a) (get_pid b)); simpl; split; intros H;
    try reflexivity; discriminate.
Qed.

Lemma StronglySorted_iff (R R' : Task -> Task -> Prop) (l : list Task) :
  (forall a b, R a b <-> R' a b) -> StronglySorted R l -> StronglySorted R' l.
Proof.
  intros HR. induction 1 as [ | x l Hl IH Hx ]; constructor; [ exact IH | ].
  apply (Forall_impl _ (P := R x)); [ | exact Hx ]. intros a. apply HR.
Qed.

(** X22. For a non-empty container, listing by "pid" returns a permutation
    of the queue sorted by identifier in string order, ascending without
    [reverse] and descending with it; in both directions tasks with the
    same identifier (possible when duplicates are allowed) appear in their
    insertion order, and the manager is unchanged. *)
Theorem list_by_pid_is_stable (s : TaskManager) (out : list string) (reverse : bool) :
  filled_size s <> 0 ->
  exists l,
    run (list_running_tasks "pid" reverse) s out =
      (Ok (Some l),
       {| self := s;
          stdout := out ++ (if verbose s then [listing_message "pid"] else []) |}) /\
    Permutation l (items (tasks_queue s)) /\
    (reverse = false ->
     StronglySorted (fun a b => String.leb (get_pid a) (get_pid b) = true) l) /\
    (reverse = true ->
     StronglySorted (fun a b => String.leb (get_pid b) (get_pid a) = true) l) /\
    (forall pid,
       filter (fun t => (get_pid t =? pid)%string) l =
       filter (fun t => (get_pid t =? pid)%string) (items (tasks_queue s))).
Proof.
  intros Hne. exists (sorted String.ltb get_pid reverse (items (tasks_queue s))).
  destruct (sorted_by_order Task string String.ltb String.eqb get_pid
              String.eqb_eq ltb_irrefl ltb_asym ltb_le_trans
              reverse (items (tasks_queue s))) as [Hasc [Hdesc Hstable]].
  split; [ | split; [ | split; [ | split ] ] ].
  - rewrite list_running_tasks_run. apply Z.eqb_neq in Hne. rewrite Hne. reflexivity.
  - apply sorted_Permutation.
  - intros Hr. apply (StronglySorted_iff (not_above String.ltb get_pid));
      [ apply not_above_leb | exact (Hasc Hr) ].
  - intros Hr.
    apply (StronglySorted_iff (fun a b => not_above String.ltb get_pid b a));
      [ intros a b; apply not_above_leb | exact (Hdesc Hr) ].
  - exact Hstable.
Qed.

Lemma list_by_pid_is_stable_witness :
  exists l,
    run (list_running_tasks "pid" true) priority_manager [] =
      (Ok (Some l),
       {| self := priority_manager;
          stdout := [] ++ (if verbose priority_manager
                           then [listing_message "pid"] else []) |}) /\
    Permutation l (items (tasks_queue priority_manager)) /\
    (true = false ->
     StronglySorted (fun a b => String.leb (get_pid a) (get_pid b) = true) l) /\
    (true = true ->
     StronglySorted (fun a b => String.leb (get_pid b) (get_pid a) = true) l) /\
    (forall pid,
       filter (fun t => (get_pid t =? pid)%string) l =
       filter (fun t => (get_pid t =? pid)%string) (items (tasks_queue priority_manager))).
Proof.
  apply (list_by_pid_is_stable priority_manager [] true).
  vm_compute. discriminate.
Defined.

(* ================================================================= *)
(** ** The priority run mode only improves the container *)

Lemma total_value_app (l l' : list Task) :
  total_value (l ++ l') = total_value l + total_value l'.
Proof. induction l as [ | x l IH ]; simpl; [ reflexivity | rewrite IH; lia ]. Qed.

Lemma total_value_remove_at (i : nat) (l : list Task) (v : Task) :
  nth_error l i = Some v ->
  total_value (remove_at i l) + value (get_priority v) = total_value l.
Proof.
  revert i. induction l as [ | x l IH ]; intros i H.
  - destruct i; discriminate.
  - destruct i as [ | i ]; simpl in H.
    + inversion H; subst. unfold remove_at. simpl. lia.
    + change (remove_at (S i) (x :: l)) with (x :: remove_at i l). simpl.
      specialize (IH i H). lia.
Qed.

(** X23. In the "priority" run mode at capacity, [add] of an active task
    never lowers the sum of the priority values of the tasks held: either
    the tasks held are exactly the same as before, or the sum has strictly
    increased and the incoming task is the last one held. *)
Theorem add_priority_never_lowers_total
    (s : TaskManager) (out : list string) (task : Task) :
  is_active task = true ->
  run_mode s = "priority" ->
  queue_wf (tasks_queue s) ->
  max_queue_size s <= filled_size s ->
  exists w,
    run (add task) s out = (Ok tt, w) /\
    (items (tasks_queue (self w)) = items (tasks_queue s) \/
     (total_value (items (tasks_queue s)) < total_value (items (tasks_queue (self w))) /\
      last (items (tasks_queue (self w))) task = task /\
      In task (items (tasks_queue (self w))))).
Proof.
  intros Hact Hmode Hwf Hfull. unfold run.
  rewrite (add_priority_at_capacity_run s out task Hact Hmode Hwf Hfull).
  assert (Hevict : forall i,
    victim (get_priority task) (items (tasks_queue s)) = Some i ->
    total_value (items (tasks_queue s)) <
      total_value (remove_at i (items (tasks_queue s)) ++ [task])).
  { intros i Ev. destruct (victim_Some _ _ _ Ev) as [v [Hv [Hvlt _]]].
    pose proof (total_value_remove_at i _ v Hv) as Hsum.
    rewrite total_value_app. simpl. unfold Priority_lt in Hvlt.
    apply Z.ltb_lt in Hvlt. lia. }
  destruct (get_priority task) eqn:Ep.
  - eexists. split; [ reflexivity | left; reflexivity ].
  - destruct (negb (duplicates_allowed s) && pid_in (get_pid task) (items (tasks_queue s))).
    + eexists. split; [ reflexivity | left; reflexivity ].
    + destruct (victim medium (items (tasks_queue s))) as [ i | ] eqn:Ev.
      * eexists. split; [ reflexivity | right ]. simpl. rewrite items_with_items.
        split; [ apply Hevict; reflexivity | ].
        split; [ apply last_last | apply in_or_app; right; left; reflexivity ].
      * eexists. split; [ reflexivity | left; reflexivity ].
  - destruct (negb (duplicates_allowed s) && pid_in (get_pid task) (items (tasks_queue s))).
    + eexists. split; [ reflexivity | left; reflexivity ].
    + destruct (victim high (items (tasks_queue s))) as [ i | ] eqn:Ev.
      * eexists. split; [ reflexivity | right ]. simpl. rewrite items_with_items.
        split; [ apply Hevict; reflexivity | ].
        split; [ apply last_last | apply in_or_app; right; left; reflexivity ].
      * eexists. split; [ reflexivity | left; reflexivity ].
Qed.

Lemma add_priority_never_lowers_total_witness :
  exists w,
    run (add task_9) priority_manager [] = (Ok tt, w) /\
    (items (tasks_queue (self w)) = items (tasks_queue priority_manager) \/
     (total_value (items (tasks_queue priority_manager)) <
        total_value (items (tasks_queue (self w))) /\
      last (items (tasks_queue (self w))) task_9 = task_9 /\
      In task_9 (items (tasks_queue (self w))))).
Proof.
  apply (add_priority_never_lowers_total priority_manager [] task_9).
  - reflexivity.
  - reflexivity.
  - simpl. lia.
  - vm_compute. discriminate.
Defined.

(* ================================================================= *)
(** ** A capacity set to zero or below *)

(** X24. [set_max_queue_size] accepts zero and negative values. On an
    empty deque such a capacity makes every [add] of an active task fail to
    store it: the "default" run mode raises [MaxTaskSizeError], the "fifo"
    run mode raises [IndexError] (pop from an empty deque), and the
    "priority" run mode returns normally without storing the task. The
    queue stays empty in all three. *)
Theorem add_after_capacity_set_to_zero_or_below
    (s : TaskManager) (out : list string) (task : Task) (n v : Z) :
  is_active task = true ->
  tasks_queue s = deque [] n ->
  v <= 0 ->
  exists r diag,
    run (set_max_queue_size v ;;; add task) s out =
      (r,
       {| self := mkTaskManager v (deque [] n) (run_mode s) (verbose s)
                    (duplicates_allowed s);
          stdout := out ++ diag |}) /\
    (run_mode s = "default" ->
     r = Raise (MaxTaskSizeError "Task manager does not have free job slot.") /\
     diag = []) /\
    (run_mode s = "fifo" ->
     r = Raise (IndexError "pop from an empty deque") /\ diag = []) /\
    (run_mode s = "priority" -> r = Ok tt /\ (List.length diag <= 1)%nat).
Proof.
  intros Hact Hq Hv. unfold run, bind, set_max_queue_size. cbn [self stdout].
  set (s1 := {| max_queue_size := v; tasks_queue := tasks_queue s;
                run_mode := run_mode s; verbose := verbose s;
                duplicates_allowed := duplicates_allowed s |}).
  assert (Hs1 : s1 = mkTaskManager v (deque [] n) (run_mode s) (verbose s)
                       (duplicates_allowed s)).
  { unfold s1. rewrite Hq. reflexivity. }
  assert (Hfull : (filled_size s1 >=? max_queue_size s1) = true).
  { apply Z.geb_le. unfold s1, filled_size, len. simpl. rewrite Hq. simpl. lia. }
  assert (Hcheck : _check_if_task_not_exists task {| self := s1; stdout := out |} =
                   (Ok true, {| self := s1; stdout := out |})).
  { apply check_passes. right. unfold s1. simpl. rewrite Hq. reflexivity. }
  unfold add. rewrite Hact. unfold_M. cbn [negb self stdout]. rewrite Hfull.
  destruct (run_mode s1 =? "default")%string eqn:Ed.
  { eexists _, []. rewrite app_nil_r, <- Hs1. split; [ reflexivity | ].
    apply String.eqb_eq in Ed. unfold s1 in Ed. simpl in Ed.
    split; [ intros _; split; reflexivity | ].
    split; intros H; rewrite H in Ed; discriminate. }
  destruct (run_mode s1 =? "fifo")%string eqn:Ef.
  { unfold _add_fifo. unfold_M. rewrite Hcheck. cbn [self stdout].
    assert (Hpop : popleft (tasks_queue s1) = Raise (IndexError "pop from an empty deque")).
    { unfold s1. simpl. rewrite Hq. reflexivity. }
    rewrite Hpop. eexists _, []. rewrite app_nil_r, <- Hs1. split; [ reflexivity | ].
    apply String.eqb_eq in Ef. apply String.eqb_neq in Ed. unfold s1 in Ed, Ef.
    simpl in Ed, Ef.
    split; [ intros H; contradiction | ].
    split; [ intros _; split; reflexivity | ].
    intros H; rewrite H in Ef; discriminate. }
  destruct (run_mode s1 =? "priority")%string eqn:Epr.
  { unfold _add_priority_based.
    apply String.eqb_neq in Ed, Ef. unfold s1 in Ed, Ef. simpl in Ed, Ef.
    destruct (value (get_priority task) =? value min_Priority).
    - unfold mlogger, print. cbn [self stdout]. eexists _, [_]. rewrite <- Hs1.
      split; [ reflexivity | ].
      split; [ intros H; contradiction | ]. split; [ intros H; contradiction | ].
      intros _. split; [ reflexivity | simpl; lia ].
    - unfold_M. rewrite Hcheck. cbn [self stdout].
      assert (Hitems : items (tasks_queue s1) = []).
      { unfold s1. simpl. rewrite Hq. reflexivity. }
      rewrite Hitems. simpl.
      destruct (verbose s); simpl.
      + eexists _, [_]. rewrite <- Hs1. split; [ reflexivity | ].
        split; [ intros H; contradiction | ]. split; [ intros H; contradiction | ].
        intros _. split; [ reflexivity | simpl; lia ].
      + eexists _, []. rewrite app_nil_r, <- Hs1. split; [ reflexivity | ].
        split; [ intros H; contradiction | ]. split; [ intros H; contradiction | ].
        intros _. split; [ reflexivity | simpl; lia ]. }
  apply String.eqb_neq in Ed, Ef, Epr. unfold s1 in Ed, Ef, Epr. simpl in Ed, Ef, Epr.
  eexists _, []. rewrite app_nil_r, <- Hs1. split; [ reflexivity | ].
  split; [ intros H; contradiction | ]. split; intros H; contradiction.
Qed.

Lemma add_after_capacity_set_to_zero_or_below_witness :
  exists r diag,
    run (set_max_queue_size 0 ;;; add task_a)
        (mkTaskManager 3 (deque [] 3) "fifo" true false) [] =
      (r,
       {| self := mkTaskManager 0 (deque [] 3) "fifo" true false;
          stdout := [] ++ diag |}) /\
    ("fifo" = "default" ->
     r = Raise (MaxTaskSizeError "Task manager does not have free job slot.") /\
     diag = []) /\
    ("fifo" = "fifo" ->
     r = Raise (IndexError "pop from an empty deque") /\ diag = []) /\
    ("fifo" = "priority" -> r = Ok tt /\ (List.length diag <= 1)%nat).
Proof.
  apply (add_after_capacity_set_to_zero_or_below
           (mkTaskManager 3 (deque [] 3) "fifo" true false) [] task_a 3 0).
  - reflexivity.
  - reflexivity.
  - lia.
Defined.
